(** * Inu-Bot: the Crash round engine and the stock tracker

  A shallow embedding of
    - [src/database/database_manager.py]  (the balance ledger),
    - [src/cogs/games/crash.py]           (the Crash game),
    - [src/cogs/roblox_tracker.py]        (the Grow a Garden stock tracker),
    - [src/cogs/admin.py], [src/cogs/economy.py], [src/cogs/games/coinflip.py],
      [src/cogs/games/slots.py], [src/cogs/games/blackjack.py]
                                          (the other callers of the ledger),
    - [src/utils/easing.py], [src/utils/game_utils.py],
  followed by the properties of the specification that concern them, and by
  further properties of the code.

  Conventions of the embedding.
    - Python [float]s are exact rationals ([Q]); Python [int]s are [Z].
      Two floats are compared with [==]: the loop of [run_game] leaves the
      crash point 3.5 as the fraction 875/250.  Nothing is stated on the
      ending of a loop that ends by the rounding of floats.
    - A [dict] is a [gmap]; the insertion order of a dict, which the source
      uses for display only, is not kept.  A [str] is the [string] of its
      UTF-8 bytes.
    - Every coroutine of the bot runs on one asyncio event loop and gives
      way to the others only at an await.  [cashout_player] and [crash] test
      and write with no await in between, so each is one transition.
      [add_player] awaits the ledger between its tests and its insertion,
      and so do [/coinflip], [/eco_admin remove] and [/daily] between reading
      and writing: written as one function, such a handler is the call that
      no other coroutine overtakes, and module [Suspended] gives its
      stretches, to be run in any order with those of other calls.  The
      animation loop of [run_game] sleeps in every pass, so it is also given
      step by step.
    - A call to Discord whose answer is not an argument of the function that
      makes it is taken to be accepted; what is sent is then collected.
    - [asyncio.gather] runs its tasks one after the other; the deliveries
      of the tracker are shown to read and write their own channel only.
    - What a handler sends to Discord is collected in a list of effects,
      what it logs in a list of log entries.
    - What [random] draws, what the clock reads and what a deck deals are
      arguments of the functions that use them; so is, per database call,
      whether the driver raises.
    - A coroutine that can raise returns an [option]: of its result when
      the exception is a Python error, of the exception when the source
      catches it by its class. *)

From Stdlib Require Import QArith Qabs Lqa ZArith List Ascii String.
From stdpp Require Import gmap strings list fin_maps sorting.

Local Open Scope Z_scope.

(** ** Numbers *)

(** [x < y] on Python floats. *)
Definition Qlt_bool (x y : Q) : bool :=
  (Qnum x * QDen y <? Qnum y * QDen x)%Z.

(** Python's [min(a, b)]: the first argument unless the second is smaller. *)
Definition py_min (a b : Q) : Q := if Qlt_bool b a then b else a.

(** ** The ledger: [database/database_manager.py] *)

Module DatabaseManager.

(** The columns of table [economy] that [update_balance] touches. *)
Record EconomyRow := mkRow {
  balance : Q;
  total_earned : Q;
  total_spent : Q
}.

(** Table [users] (the ids that have a profile) and table [economy]. *)
Record DB := mkDB {
  users : gset Z;
  economy : gmap Z EconomyRow
}.

(** [get_user_profile]: the row of [users] for [user_id], [None] when there
    is none.  Only its truth value is used by the callers modelled here. *)
Definition get_user_profile (db : DB) (user_id : Z) : bool :=
  bool_decide (user_id ∈ users db).

Definition get_user_balance (db : DB) (user_id : Z) : Q :=
  match economy db !! user_id with
  | Some r => balance r
  | None => 0%Q
  end.

(** [UPDATE economy SET balance = balance + ?, total_earned = total_earned + ?] *)
Definition earn (amount : Q) (r : EconomyRow) : EconomyRow :=
  mkRow (balance r + amount)%Q (total_earned r + amount)%Q (total_spent r).

(** [UPDATE economy SET balance = balance + ?, total_spent = total_spent + ?]
    with [spent_amount = abs(amount)]. *)
Definition spend (amount : Q) (r : EconomyRow) : EconomyRow :=
  mkRow (balance r + amount)%Q (total_earned r) (total_spent r + Qabs amount)%Q.

(** [update_balance(user_id, amount)], for amounts and balances that the
    driver and SQLite hold exactly: the bets, payouts and rewards are integers
    of 64 bits, and the float winnings of a cashout are taken as exact.
    [sql_error] tells whether the driver raises [aiosqlite.Error] in this
    call; the [except] clause then returns [False].  An [UPDATE] whose [WHERE] matches no row changes nothing and
    still succeeds, which is what [alter] does on a missing key. *)
Definition update_balance (db : DB) (user_id : Z) (amount : Q) (sql_error : bool)
  : bool * DB :=
  if negb (get_user_profile db user_id) then (false, db)
  else if sql_error then (false, db)
  else if Qlt_bool 0 amount
    then (true, mkDB (users db) (alter (earn amount) user_id (economy db)))
    else (true, mkDB (users db) (alter (spend amount) user_id (economy db))).

End DatabaseManager.

(** ** The Crash game: [cogs/games/crash.py] *)

Module CrashGameInstance.
Import DatabaseManager.

(** Game constants. *)
Definition MIN_MULTIPLIER : Q := 1.
Definition MAX_PLAYERS : nat := 20.

(** An entry of [self.players]: [{"bet": int, "user": Member, "cashout_at": float | None}].
    The member is kept as its id. *)
Record Player := mkPlayer {
  bet : Z;
  user : Z;
  cashout_at : option Q
}.

Record Game := mkGame {
  players : gmap Z Player;
  message : option Z;
  crashed_at : Q;
  current_multiplier : Q;
  is_betting_open : bool;
  is_running : bool;
  (** [graph_data], the local list of [run_game]: it lives in the frame of
      the coroutine, which is suspended between two iterations. *)
  graph_data : list Q
}.

Definition set_players (f : gmap Z Player → gmap Z Player) (g : Game) : Game :=
  mkGame (f (players g)) (message g) (crashed_at g) (current_multiplier g)
         (is_betting_open g) (is_running g) (graph_data g).
Definition set_message (m : option Z) (g : Game) : Game :=
  mkGame (players g) m (crashed_at g) (current_multiplier g)
         (is_betting_open g) (is_running g) (graph_data g).
Definition set_current_multiplier (m : Q) (g : Game) : Game :=
  mkGame (players g) (message g) (crashed_at g) m
         (is_betting_open g) (is_running g) (graph_data g).
Definition set_is_betting_open (b : bool) (g : Game) : Game :=
  mkGame (players g) (message g) (crashed_at g) (current_multiplier g)
         b (is_running g) (graph_data g).
Definition set_is_running (b : bool) (g : Game) : Game :=
  mkGame (players g) (message g) (crashed_at g) (current_multiplier g)
         (is_betting_open g) b (graph_data g).
Definition set_graph_data (d : list Q) (g : Game) : Game :=
  mkGame (players g) (message g) (crashed_at g) (current_multiplier g)
         (is_betting_open g) (is_running g) d.

(** The texts the game answers with, one constructor per f-string. *)
Inductive Reply :=
| BettingPhaseOver          (* "The betting phase is over." *)
| AlreadyJoined             (* "You have already joined." *)
| GameFull                  (* "The game is full." *)
| NotEnoughFunds            (* "You don't have enough funds for that bet." *)
| JoinedWithBet (b : Z)     (* "You have joined the game with a bet of ..." *)
| NotInActiveGame           (* "You are not in an active game." *)
| AlreadyCashedOut          (* "You have already cashed out." *)
| CashedOut (multiplier winnings : Q)  (* "You cashed out at ...x and won ...!" *)
| AlreadyInProgress.        (* "A game of Crash is already in progress in this server." *)

(** A line of [_get_payout_info]. *)
Inductive PlayerStatus :=
| StatusCashedOut (multiplier winnings : Q)
| StatusLost (b : Z)
| StatusInGame (b : Z).

(** What the game sends out. *)
Inductive Effect :=
| StartMessage                                   (* start: the betting embed with CrashJoinView *)
| Followup (user_id : Z) (r : Reply)             (* interaction.followup.send *)
| Respond (user_id : Z) (r : Reply)              (* interaction.response.send_message *)
| EditPlayerList (ps : list (Z * Z))             (* _update_player_list_embed *)
| EditCancelled                                  (* "Game Cancelled" / "No one joined the game." *)
| EditGame (in_progress : bool) (graph : list Q) (multiplier crashed : Q)
           (status : list (Z * PlayerStatus)).   (* _update_game_embed *)

(** [_get_crash_point()], as a function of the two values [random.random()]
    returns: [r] for the test of the instant crash, [p] for the curve. *)
Definition _get_crash_point (r p : Q) : Q :=
  if Qlt_bool r (1 # 100) then 1
  else
    let e := inject_Z (2 ^ 32) in
    let house_edge := 99 # 100 in
    ((e * house_edge - p * e) / (e - p * e))%Q.

(** [__init__]: a round in its betting phase. *)
Definition __init__ (r p : Q) : Game :=
  mkGame ∅ None (_get_crash_point r p) 1 true false [].

(** [start]: posts the betting message and keeps it in [self.message]. *)
Definition start (message_id : Z) (g : Game) : Game * list Effect :=
  (set_message (Some message_id) g, [StartMessage]).

(** [_update_player_list_embed] *)
Definition _update_player_list_embed (g : Game) : list Effect :=
  match message g with
  | None => []
  | Some _ => [EditPlayerList ((λ kp, (kp.1, bet kp.2)) <$> map_to_list (players g))]
  end.

(** [add_player(interaction, bet)], with [user_id = interaction.user.id], as
    a call that nothing overtakes while it awaits [update_balance].  The
    await lies between the tests and the insertion: [Suspended.add_player_tests]
    and [Suspended.add_player_resume] are the two stretches. *)
Definition add_player (g : Game) (db : DB) (user_id : Z) (b : Z) (sql_error : bool)
  : Game * DB * list Effect :=
  if negb (is_betting_open g) then (g, db, [Followup user_id BettingPhaseOver])
  else if bool_decide (is_Some (players g !! user_id))
    then (g, db, [Followup user_id AlreadyJoined])
  else if bool_decide (MAX_PLAYERS ≤ size (players g))%nat
    then (g, db, [Followup user_id GameFull])
  else
    let '(ok, db') := update_balance db user_id (inject_Z (- b)) sql_error in
    if negb ok then (g, db', [Followup user_id NotEnoughFunds])
    else
      let g' := set_players (insert user_id (mkPlayer b user_id None)) g in
      (g', db', Followup user_id (JoinedWithBet b) :: _update_player_list_embed g').

(** [cashout_player(interaction)].  The result of [update_balance] is not
    looked at by the source. *)
Definition cashout_player (g : Game) (db : DB) (user_id : Z) (sql_error : bool)
  : Game * DB * list Effect :=
  if negb (is_running g) || bool_decide (players g !! user_id = None)
  then (g, db, [Respond user_id NotInActiveGame])
  else
    match players g !! user_id with
    | None => (g, db, [Respond user_id NotInActiveGame])
    | Some p =>
        match cashout_at p with
        | Some _ => (g, db, [Respond user_id AlreadyCashedOut])
        | None =>
            let g' := set_players
                        (insert user_id (mkPlayer (bet p) (user p) (Some (current_multiplier g)))) g in
            let winnings := (inject_Z (bet p) * current_multiplier g)%Q in
            let db' := (update_balance db user_id winnings sql_error).2 in
            (g', db', [Respond user_id (CashedOut (current_multiplier g) winnings)])
        end
    end.

(** [_get_payout_info]: [if data['cashout_at']] is Python truthiness, so a
    cashout at [0.0] would count as none. *)
Definition player_status (running : bool) (p : Player) : PlayerStatus :=
  match cashout_at p with
  | Some m =>
      if negb (Qeq_bool m 0) then StatusCashedOut m (inject_Z (bet p) * m)%Q
      else if negb running then StatusLost (bet p) else StatusInGame (bet p)
  | None => if negb running then StatusLost (bet p) else StatusInGame (bet p)
  end.

Definition _get_payout_info (g : Game) : list (Z * PlayerStatus) :=
  (λ kp, (kp.1, player_status (is_running g) kp.2)) <$> map_to_list (players g).

(** [_update_game_embed(graph_bytes, in_progress)] *)
Definition _update_game_embed (g : Game) (in_progress : bool) : list Effect :=
  [EditGame in_progress (graph_data g) (current_multiplier g) (crashed_at g)
            (_get_payout_info g)].

(** [utils/easing.py]: [ease_in_cubic]. *)
Definition ease_in_cubic (x : Q) : Q := (x * x * x)%Q.

(** One pass through the body of the [while] loop of [run_game];
    [elapsed] is [time.time() - start_time_loop] as read in this pass. *)
Definition run_game_iter (elapsed : Q) (g : Game) : Game * list Effect :=
  let duration := 5%Q in
  let progress := py_min (elapsed / duration) 1 in
  let eased_progress := ease_in_cubic progress in
  let m := (1 + (crashed_at g - 1) * eased_progress)%Q in
  let m := py_min m (crashed_at g) in
  let g := set_current_multiplier m g in
  let g := set_graph_data (graph_data g ++ [m]) g in
  if negb (Nat.eqb (length (graph_data g) mod 3) 0) && Qlt_bool m (crashed_at g)
  then (g, [])
  else (g, _update_game_embed g true).

(** The multiplier a pass computes at elapsed time [t] for crash point [c]. *)
Definition curve (c t : Q) : Q :=
  py_min (1 + (c - 1) * ease_in_cubic (py_min (t / 5) 1)) c.

(** The part of [run_game] after the loop ("Final update"). *)
Definition run_game_finish (g : Game) : Game * list Effect :=
  let g := set_is_running false g in
  (g, _update_game_embed g false).

(** The coroutine of [run_game] taken up at the head of its loop. *)
Definition run_game_resume (elapsed : Q) (g : Game) : Game * list Effect :=
  if Qlt_bool (current_multiplier g) (crashed_at g)
  then run_game_iter elapsed g
  else run_game_finish g.

(** The loop of [run_game] run to its end on the clock readings [clock],
    one per pass; [None] when the readings run out before the loop ends. *)
Fixpoint run_game_loop (clock : list Q) (g : Game) (out : list Effect)
  : option (Game * list Effect) :=
  if Qlt_bool (current_multiplier g) (crashed_at g)
  then match clock with
       | [] => None
       | elapsed :: clock' =>
           let '(g', fx) := run_game_iter elapsed g in
           run_game_loop clock' g' (out ++ fx)
       end
  else let '(g', fx) := run_game_finish g in Some (g', out ++ fx).

(** [run_game] *)
Definition run_game (clock : list Q) (g : Game) : option (Game * list Effect) :=
  let g := set_is_running true g in
  let g := set_graph_data [1%Q] g in
  run_game_loop clock g [].

(** [lock_bets] *)
Definition lock_bets (clock : list Q) (g : Game) : option (Game * list Effect) :=
  let g := set_is_betting_open false g in
  if bool_decide (players g = ∅) then Some (g, [EditCancelled])
  else run_game clock g.

End CrashGameInstance.

(** ** The cog: the registry of rounds and the events that drive them *)

Module Crash.
Import DatabaseManager CrashGameInstance.

(** [lock_bets] up to the first suspension of [run_game]: the flags are set
    and the head of the loop is reached without an [await] in between. *)
Definition lock_bets_begin (elapsed : Q) (g : Game) : Game * list Effect :=
  let g := set_is_betting_open false g in
  if bool_decide (players g = ∅) then (g, [EditCancelled])
  else run_game_resume elapsed (set_graph_data [1%Q] (set_is_running true g)).

(** What the event loop can run next on one round. *)
Inductive GameEvent :=
| EvJoin (user_id : Z) (b : Z) (sql_error : bool)    (* CrashBetModal.on_submit *)
| EvCashout (user_id : Z) (sql_error : bool)         (* CrashGameView.cashout_button *)
| EvTimeout (elapsed : Q)                            (* CrashJoinView.on_timeout *)
| EvWake (elapsed : Q).                              (* run_game wakes from a sleep *)

(** One event on a round, each handler run to its end in one piece; the
    joins that wait for the ledger while other handlers run are those of
    [Suspended.step].  A view times out once, so [on_timeout] reaches a round
    only while its betting is open, and [run_game] sleeps in its loop only
    while the round is running: the events that cannot occur are written as
    steps that change nothing, the source having no guard of its own. *)
Definition game_step (s : Game * DB * list Effect) (e : GameEvent)
  : Game * DB * list Effect :=
  let '(g, d, out) := s in
  match e with
  | EvJoin uid b err =>
      let '(g', d', fx) := add_player g d uid b err in (g', d', out ++ fx)
  | EvCashout uid err =>
      let '(g', d', fx) := cashout_player g d uid err in (g', d', out ++ fx)
  | EvTimeout t =>
      if is_betting_open g
      then let '(g', fx) := lock_bets_begin t g in (g', d, out ++ fx)
      else s
  | EvWake t =>
      if is_running g
      then let '(g', fx) := run_game_resume t g in (g', d, out ++ fx)
      else s
  end.

Definition game_run (s : Game * DB * list Effect) (es : list GameEvent)
  : Game * DB * list Effect :=
  fold_left game_step es s.

(** [Crash.crash]: the [/crash] command in guild [guild_id].  [r] and [p]
    are the random draws of the new round, [message_id] the message that
    [start] posts. *)
Definition crash (active_games : gmap Z Game) (guild_id user_id : Z)
           (r p : Q) (message_id : Z) : gmap Z Game * list Effect :=
  let in_progress :=
    match active_games !! guild_id with
    | Some g => is_running g || is_betting_open g
    | None => false
    end in
  if in_progress then (active_games, [Respond user_id AlreadyInProgress])
  else
    let game := __init__ r p in
    let '(game, fx) := start message_id game in
    (<[guild_id := game]> active_games, fx).

(** The bot as far as the game goes: the registry [self.active_games], the
    ledger, and everything sent so far. *)
Record World := mkWorld {
  active_games : gmap Z Game;
  db : DB;
  outbox : list Effect
}.

Definition initial (d : DB) : World := mkWorld ∅ d [].

Inductive Event :=
| EvCrash (guild_id user_id : Z) (r p : Q) (message_id : Z)   (* the /crash command *)
| EvGame (guild_id : Z) (e : GameEvent).       (* an event on the round registered for the guild *)

Definition step (w : World) (e : Event) : World :=
  match e with
  | EvCrash gid uid r p mid =>
      let '(ag, fx) := crash (active_games w) gid uid r p mid in
      mkWorld ag (db w) (outbox w ++ fx)
  | EvGame gid e =>
      match active_games w !! gid with
      | Some g =>
          let '(g', d', out) := game_step (g, db w, outbox w) e in
          mkWorld (<[gid := g']> (active_games w)) d' out
      | None => w
      end
  end.

Definition run (w : World) (es : list Event) : World := fold_left step es w.

(** The phase of a round, read off its two flags. *)
Inductive Phase := Betting | Running | Settled | Cancelled.

Definition phase (g : Game) : Phase :=
  if is_betting_open g then Betting
  else if is_running g then Running
  else if bool_decide (players g = ∅) then Cancelled
  else Settled.

End Crash.

(** ** MD5 ([hashlib.md5], after RFC 1321) *)

Module MD5.

Definition mask32 (x : Z) : Z := Z.land x 0xffffffff.

(** Rotation of a 32-bit word to the left. *)
Definition rotl32 (x c : Z) : Z :=
  mask32 (Z.lor (Z.shiftl x c) (Z.shiftr x (32 - c))).

Definition not32 (x : Z) : Z := Z.lxor x 0xffffffff.

(** The per-round shift amounts. *)
Definition S : list Z :=
  [7; 12; 17; 22; 7; 12; 17; 22; 7; 12; 17; 22; 7; 12; 17; 22;
   5; 9; 14; 20; 5; 9; 14; 20; 5; 9; 14; 20; 5; 9; 14; 20;
   4; 11; 16; 23; 4; 11; 16; 23; 4; 11; 16; 23; 4; 11; 16; 23;
   6; 10; 15; 21; 6; 10; 15; 21; 6; 10; 15; 21; 6; 10; 15; 21].

(** [K[i] = floor(2^32 * abs(sin(i + 1)))]. *)
Definition K : list Z :=
 [
  0xd76aa478; 0xe8c7b756; 0x242070db; 0xc1bdceee;
  0xf57c0faf; 0x4787c62a; 0xa8304613; 0xfd469501;
  0x698098d8; 0x8b44f7af; 0xffff5bb1; 0x895cd7be;
  0x6b901122; 0xfd987193; 0xa679438e; 0x49b40821;
  0xf61e2562; 0xc040b340; 0x265e5a51; 0xe9b6c7aa;
  0xd62f105d; 0x02441453; 0xd8a1e681; 0xe7d3fbc8;
  0x21e1cde6; 0xc33707d6; 0xf4d50d87; 0x455a14ed;
  0xa9e3e905; 0xfcefa3f8; 0x676f02d9; 0x8d2a4c8a;
  0xfffa3942; 0x8771f681; 0x6d9d6122; 0xfde5380c;
  0xa4beea44; 0x4bdecfa9; 0xf6bb4b60; 0xbebfbc70;
  0x289b7ec6; 0xeaa127fa; 0xd4ef3085; 0x04881d05;
  0xd9d4d039; 0xe6db99e5; 0x1fa27cf8; 0xc4ac5665;
  0xf4292244; 0x432aff97; 0xab9423a7; 0xfc93a039;
  0x655b59c3; 0x8f0ccc92; 0xffeff47d; 0x85845dd1;
  0x6fa87e4f; 0xfe2ce6e0; 0xa3014314; 0x4e0811a1;
  0xf7537e82; 0xbd3af235; 0x2ad7d2bb; 0xeb86d391
 ].

(** Padding: a 1 bit, zeros up to 56 modulo 64 bytes, then the length of
    the message in bits as 64 bits, least significant byte first. *)
Definition le_bytes (n : nat) (x : Z) : list Z :=
  (λ i, Z.land (Z.shiftr x (8 * Z.of_nat i)) 0xff) <$> seq 0 n.

Definition pad (msg : list Z) : list Z :=
  let len := Z.of_nat (length msg) in
  let zeros := Z.to_nat ((55 - len) mod 64) in
  msg ++ [0x80] ++ replicate zeros 0 ++ le_bytes 8 (8 * len).

(** A 32-bit word from four bytes, least significant first. *)
Definition word_of_bytes (bs : list Z) : Z :=
  foldr (λ b acc, b + 256 * acc) 0 bs.

Fixpoint chunks {A} (n : nat) (fuel : nat) (l : list A) : list (list A) :=
  match fuel with
  | O => []
  | Datatypes.S fuel' =>
      match l with
      | [] => []
      | _ => take n l :: chunks n fuel' (drop n l)
      end
  end.

Definition words_of_block (block : list Z) : list Z :=
  word_of_bytes <$> chunks 4 16 block.

Record State := mkState { A : Z; B : Z; C : Z; D : Z }.

Definition init : State := mkState 0x67452301 0xefcdab89 0x98badcfe 0x10325476.

(** Operation [i] (from 0 to 63) on the words [M] of a block. *)
Definition round (M : list Z) (s : State) (i : nat) : State :=
  let '(F, g) :=
    if (i <? 16)%nat then
      (Z.lor (Z.land (B s) (C s)) (Z.land (not32 (B s)) (D s)), i)
    else if (i <? 32)%nat then
      (Z.lor (Z.land (D s) (B s)) (Z.land (not32 (D s)) (C s)), ((5 * i + 1) mod 16)%nat)
    else if (i <? 48)%nat then
      (Z.lxor (B s) (Z.lxor (C s) (D s)), ((3 * i + 5) mod 16)%nat)
    else
      (Z.lxor (C s) (Z.lor (B s) (not32 (D s))), ((7 * i) mod 16)%nat) in
  let F := mask32 (F + A s + nth i K 0 + nth g M 0) in
  mkState (D s) (mask32 (B s + rotl32 F (nth i S 0))) (B s) (C s).

Definition process_block (s : State) (block : list Z) : State :=
  let M := words_of_block block in
  let s' := fold_left (round M) (seq 0 64) s in
  mkState (mask32 (A s + A s')) (mask32 (B s + B s'))
          (mask32 (C s + C s')) (mask32 (D s + D s')).

Definition digest (msg : list Z) : list Z :=
  let padded := pad msg in
  let s := fold_left process_block (chunks 64 (length padded) padded) init in
  le_bytes 4 (A s) ++ le_bytes 4 (B s) ++ le_bytes 4 (C s) ++ le_bytes 4 (D s).

Definition hex_digit (n : Z) : ascii :=
  ascii_of_N (Z.to_N (if n <? 10 then 48 + n else 87 + n)).

Definition hex_of_byte (b : Z) : string :=
  String (hex_digit (b / 16)) (String (hex_digit (b mod 16)) EmptyString).

Definition bytes_of_string (s : string) : list Z :=
  (λ a, Z.of_N (N_of_ascii a)) <$> list_ascii_of_string s.

(** [hashlib.md5(s.encode('utf-8')).hexdigest()] for a string held as its
    UTF-8 bytes. *)
Definition hexdigest (s : string) : string :=
  foldr (λ b acc, hex_of_byte b ++ acc)%string EmptyString (digest (bytes_of_string s)).

End MD5.

(** ** Python strings

    A [str] is held as the [string] of its UTF-8 bytes.  [lower] and [title]
    are given on ASCII letters, where they agree with CPython; the names the
    tracker compares (its allow-lists, the category keys) are ASCII. *)

Module PyStr.

Definition is_upper (a : ascii) : bool :=
  let n := N_of_ascii a in ((65 <=? n) && (n <=? 90))%N.

Definition is_lower (a : ascii) : bool :=
  let n := N_of_ascii a in ((97 <=? n) && (n <=? 122))%N.

Definition lower_char (a : ascii) : ascii :=
  if is_upper a then ascii_of_N (N_of_ascii a + 32) else a.

Definition upper_char (a : ascii) : ascii :=
  if is_lower a then ascii_of_N (N_of_ascii a - 32) else a.

(** [s.lower()] *)
Fixpoint lower (s : string) : string :=
  match s with
  | EmptyString => EmptyString
  | String a s' => String (lower_char a) (lower s')
  end.

(** [s.title()]: a letter that follows a letter is lowered, any other letter
    is raised. *)
Fixpoint title_from (previous_is_cased : bool) (s : string) : string :=
  match s with
  | EmptyString => EmptyString
  | String a s' =>
      if is_upper a || is_lower a
      then String (if previous_is_cased then lower_char a else upper_char a)
                  (title_from true s')
      else String a (title_from false s')
  end.

Definition title (s : string) : string := title_from false s.

(** [a <= b] on strings: the order of the code points, which on UTF-8 is
    the order of the bytes. *)
Definition str_le (a b : string) : Prop := String.leb a b = true.

#[global] Instance str_le_dec (a b : string) : Decision (str_le a b).
Proof. unfold str_le. apply _. Defined.

(** [sorted(l)] on a list of strings. *)
Definition sorted (l : list string) : list string := merge_sort str_le l.

(** [sep.join(l)] *)
Fixpoint join (sep : string) (l : list string) : string :=
  match l with
  | [] => EmptyString
  | [x] => x
  | x :: l' => (x ++ sep ++ join sep l')%string
  end.

(** Truthiness of a string. *)
Definition truthy (s : string) : bool := negb (String.eqb s EmptyString).

End PyStr.

(** ** [json.dumps] on strings, with the default [ensure_ascii=True] *)

Module Json.

(** The code points of a string held as UTF-8.  A byte that does not start
    a well-formed sequence stands for itself. *)
Fixpoint utf8_decode (l : list N) : list N :=
  match l with
  | [] => []
  | b0 :: l1 =>
      if (b0 <? 0x80)%N then b0 :: utf8_decode l1
      else match l1 with
      | [] => [b0]
      | b1 :: l2 =>
          if ((0xC0 <=? b0) && (b0 <? 0xE0))%N
          then (N.lor (N.shiftl (N.land b0 0x1F) 6) (N.land b1 0x3F)) :: utf8_decode l2
          else match l2 with
          | [] => b0 :: utf8_decode l1
          | b2 :: l3 =>
              if ((0xE0 <=? b0) && (b0 <? 0xF0))%N
              then (N.lor (N.shiftl (N.land b0 0x0F) 12)
                          (N.lor (N.shiftl (N.land b1 0x3F) 6) (N.land b2 0x3F)))
                   :: utf8_decode l3
              else match l3 with
              | [] => b0 :: utf8_decode l1
              | b3 :: l4 =>
                  if ((0xF0 <=? b0) && (b0 <? 0xF8))%N
                  then (N.lor (N.shiftl (N.land b0 0x07) 18)
                              (N.lor (N.shiftl (N.land b1 0x3F) 12)
                                     (N.lor (N.shiftl (N.land b2 0x3F) 6) (N.land b3 0x3F))))
                       :: utf8_decode l4
                  else b0 :: utf8_decode l1
              end
          end
      end
  end.

Definition hex_digit (n : N) : ascii :=
  ascii_of_N (if (n <? 10)%N then 48 + n else 87 + n).

(** The double quote, as a string. *)
Definition dquote : string := String (ascii_of_N 0x22) EmptyString.

(** ['\\u{0:04x}'.format(n)] *)
Definition u_escape (n : N) : string :=
  String "\" (String "u"
    (String (hex_digit (N.land (N.shiftr n 12) 0xF))
    (String (hex_digit (N.land (N.shiftr n 8) 0xF))
    (String (hex_digit (N.land (N.shiftr n 4) 0xF))
    (String (hex_digit (N.land n 0xF)) EmptyString))))).

(** The replacement of one code point in [py_encode_basestring_ascii]. *)
Definition escape_code_point (n : N) : string :=
  if (n =? 0x22)%N then ("\" ++ dquote)%string
  else if (n =? 0x5C)%N then String "\" (String "\" EmptyString)
  else if (n =? 0x08)%N then String "\" (String "b" EmptyString)
  else if (n =? 0x0C)%N then String "\" (String "f" EmptyString)
  else if (n =? 0x0A)%N then String "\" (String "n" EmptyString)
  else if (n =? 0x0D)%N then String "\" (String "r" EmptyString)
  else if (n =? 0x09)%N then String "\" (String "t" EmptyString)
  else if ((0x20 <=? n) && (n <=? 0x7E))%N then String (ascii_of_N n) EmptyString
  else if (n <? 0x10000)%N then u_escape n
  else
    let m := (n - 0x10000)%N in
    (u_escape (N.lor 0xD800 (N.land (N.shiftr m 10) 0x3FF)) ++
     u_escape (N.lor 0xDC00 (N.land m 0x3FF)))%string.

(** [json.dumps(s)] for a string [s]. *)
Definition dumps_str (s : string) : string :=
  (dquote ++
   foldr (λ n acc, escape_code_point n ++ acc) EmptyString
         (utf8_decode (N_of_ascii <$> list_ascii_of_string s)) ++
   dquote)%string.

(** [json.dumps(l, separators=(',', ':'))] for a list of strings. *)
Definition dumps_list (l : list string) : string :=
  ("[" ++ PyStr.join "," (dumps_str <$> l) ++ "]")%string.

End Json.

(** ** The stock tracker: [cogs/roblox_tracker.py] *)

Module RobloxTracker.

(** *** Constants *)

Definition NOTABLE_SEEDS : list string :=
  ["Beanstalk"; "Moon Blossom"; "Hive Fruit"; "Sugar Apple"; "Elephant Ears"; "Ember Lily";
   "Cacao"; "Sunflower"; "Pepper"; "Grape"; "Mushroom"; "Traveler's Fruit"; "Rosy Delight";
   "Dragon Pepper"; "Lotus"; "Firework Flower"; "Candy Blossom"]%string.

Definition NOTABLE_GEAR : list string :=
  ["Advanced Sprinkler"; "Star Caller"; "Night Staff"; "Godly Sprinkler";
   "Chocolate Sprinkler"; "Magnifying Glass"; "Master Sprinkler"; "Cleaning Spray";
   "Favorite Tool"; "Harvest Tool"; "Friendship Pot"; "Honey Sprinkler"; "Lightning Rod";
   "Recall Wrench"]%string.

Definition NOTABLE_EGGS : list string :=
  ["Legendary Egg"; "Mythical Egg"; "Paradise Egg"; "Bee Egg"; "Bug Egg"; "Night Egg"]%string.

(** [CATEGORY_MAPPING]: key, display name, emoji. *)
Definition CATEGORY_MAPPING : list (string * (string * string)) :=
  [("gear", ("GEAR STOCK", "🛠️"));
   ("seeds", ("SEEDS STOCK", "🌱"));
   ("eggs", ("EGG STOCK", "🥚"))]%string.

(** [NOTABLE_MAP]: key, allow-list, display name, in the order of the source. *)
Definition NOTABLE_MAP : list (string * (list string * string)) :=
  [("seeds", (NOTABLE_SEEDS, "Seeds"));
   ("gear", (NOTABLE_GEAR, "Gear"));
   ("eggs", (NOTABLE_EGGS, "Eggs"))]%string.

(** [sorted(CATEGORY_MAPPING)]: the keys in order. *)
Definition sorted_categories : list string := PyStr.sorted (fst <$> CATEGORY_MAPPING).

Definition DEFAULT_WEATHER : string := "Bình thường".

(** *** The feed *)

(** An entry of a category: [{"name": ..., "quantity": ...}].  [name] is
    [None] when the key is missing or null. *)
Record Item := mkItem {
  name : option string;
  quantity : Z
}.

(** A non-empty [data] object: the [type] of its [weather] object, when
    there is one, and its arrays by category key ([data.get(key, [])] reads
    a missing key as the empty list). *)
Record StockData := mkData {
  weather : option string;
  categories : gmap string (list Item)
}.

Definition get_items (data : StockData) (category : string) : list Item :=
  default [] (categories data !! category).

(** [item.get('name')] is truthy. *)
Definition has_name (item : Item) : bool :=
  match name item with
  | Some n => PyStr.truthy n
  | None => false
  end.

(** [_get_weather_type] *)
Definition _get_weather_type (data : option StockData) : string :=
  match data with
  | None => DEFAULT_WEATHER
  | Some d => default DEFAULT_WEATHER (weather d)
  end.

(** [[item.get('name', '').lower() for item in items if item.get('name')]] *)
Definition lowered_names (items : list Item) : list string :=
  omap (λ item, if has_name item then PyStr.lower <$> name item else None) items.

(** The entries of [relevant_data["items"]], in the order of the sorted
    keys: a category is left out when its list is empty. *)
Definition relevant_items (d : StockData) : list (string * list string) :=
  omap (λ category,
          match get_items d category with
          | [] => None
          | items => Some (category, PyStr.sorted (lowered_names items))
          end)
       sorted_categories.

(** [json.dumps(relevant_data, sort_keys=True, separators=(',', ':'))] *)
Definition canonical_string (d : StockData) : string :=
  ("{" ++ Json.dumps_str "items" ++ ":{" ++
   PyStr.join ","
     ((λ kv, Json.dumps_str kv.1 ++ ":" ++ Json.dumps_list kv.2)%string <$> relevant_items d) ++
   "}," ++ Json.dumps_str "weather" ++ ":" ++ Json.dumps_str (_get_weather_type (Some d)) ++
   "}")%string.

(** [_calculate_data_hash]; [None] is the empty [data]. *)
Definition _calculate_data_hash (data : option StockData) : string :=
  match data with
  | None => EmptyString
  | Some d => MD5.hexdigest (canonical_string d)
  end.

(** The set of the item names of a category, letter case aside. *)
Definition name_set (d : StockData) (category : string) : gset string :=
  list_to_set (lowered_names (get_items d category)).

(** *** Notable items *)

(** One entry of the comprehension below: [None] once [item['name']] or
    its [lower] has raised. *)
Definition casing_step (acc : option (gmap string string)) (item : Item)
  : option (gmap string string) :=
  match acc, name item with
  | Some m, Some n => Some (<[PyStr.lower n := n]> m)
  | _, _ => None
  end.

(** [{item['name'].lower(): item['name'] for item in items}]: a later item
    replaces an earlier one with the same key. *)
Definition original_casing_map (items : list Item) : option (gmap string string) :=
  fold_left casing_step items (Some ∅).

(** The body of the loop of [_get_notable_items] for one category: [None]
    when it raises, [Some None] when the category gets no entry. *)
Definition notable_in_category (d : StockData) (category_key : string)
           (notable_list : list string) : option (option (list string)) :=
  let new_set : gset string := list_to_set (lowered_names (get_items d category_key)) in
  let notable_list_lower : gset string := list_to_set (PyStr.lower <$> notable_list) in
  let current_notables := new_set ∩ notable_list_lower in
  if bool_decide (current_notables = ∅) then Some None
  else
    match original_casing_map (get_items d category_key) with
    | None => None
    | Some casing =>
        let original_names :=
          PyStr.sorted ((λ n, default (PyStr.title n) (casing !! n)) <$> elements current_notables) in
        match original_names with
        | [] => Some None
        | _ => Some (Some original_names)
        end
    end.

(** One pass of the loop of [_get_notable_items]. *)
Definition notable_step (d : StockData) (acc : option (gmap string (list string)))
           (entry : string * (list string * string)) : option (gmap string (list string)) :=
  match acc with
  | None => None
  | Some notable_by_category =>
      match notable_in_category d entry.1 entry.2.1 with
      | None => None
      | Some None => Some notable_by_category
      | Some (Some names) => Some (<[entry.1 := names]> notable_by_category)
      end
  end.

(** [_get_notable_items]; [None] when it raises. *)
Definition _get_notable_items (d : StockData) : option (gmap string (list string)) :=
  fold_left (notable_step d) NOTABLE_MAP (Some ∅).

(** [d.get(k)] on a dictionary written as the list of its entries. *)
Definition lookup_assoc {A} (k : string) (l : list (string * A)) : option A :=
  (λ iv, iv.2.2) <$> list_find (λ kv, kv.1 = k) l.

Definition newline : string := String (ascii_of_N 10) EmptyString.

(** [_generate_change_summary]; the keys of the dictionary are among those
    of [NOTABLE_MAP], so its sorted keys are read off the sorted keys of the
    latter. *)
Definition _generate_change_summary (d : StockData) : option string :=
  match _get_notable_items d with
  | None => None
  | Some notable_items_by_cat =>
      if bool_decide (notable_items_by_cat = ∅) then Some EmptyString
      else
        let category_parts :=
          omap (λ category_key,
                  match notable_items_by_cat !! category_key with
                  | None => None
                  | Some items =>
                      let emoji := default "🔹"%string
                                     (snd <$> lookup_assoc category_key CATEGORY_MAPPING) in
                      let category_name := default EmptyString
                                     (snd <$> lookup_assoc category_key NOTABLE_MAP) in
                      let item_lines := (λ item, "• " ++ item)%string <$> items in
                      Some (newline ++ "**" ++ emoji ++ " " ++ category_name ++ "**" ++ newline
                            ++ PyStr.join newline item_lines)%string
                  end)
               (PyStr.sorted (fst <$> NOTABLE_MAP)) in
        Some ("**Vật phẩm hiếm trong kho:**" ++ PyStr.join EmptyString category_parts)%string
  end.

(** *** The status embed *)

(** [_process_items]: the quantities of the entries of one name are added up. *)
Definition _process_items (items : list Item) : gmap string Z :=
  fold_left (λ processed item,
               match name item with
               | Some n =>
                   if PyStr.truthy n
                   then <[n := default 0 (processed !! n) + quantity item]> processed
                   else processed
               | None => processed
               end)
            items ∅.

(** What [_build_stock_embed] puts into the embed: the weather line and one
    field per category in stock, its lines sorted by name. *)
Record Embed := mkEmbed {
  embed_weather : string;
  embed_fields : list (string * list (string * Z))
}.

Definition entry_le (a b : string * Z) : Prop := PyStr.str_le a.1 b.1.

#[global] Instance entry_le_dec (a b : string * Z) : Decision (entry_le a b).
Proof. unfold entry_le. apply _. Defined.

Definition _build_stock_embed (d : StockData) : Embed :=
  mkEmbed (_get_weather_type (Some d))
    (omap (λ category_key,
             match get_items d category_key with
             | [] => None
             | items =>
                 let processed_items := _process_items items in
                 if bool_decide (processed_items = ∅) then None
                 else
                   match lookup_assoc category_key CATEGORY_MAPPING with
                   | None => None
                   | Some mapping =>
                       Some (mapping.2 ++ " **" ++ mapping.1 ++ "**",
                             merge_sort entry_le (map_to_list processed_items))%string
                   end
             end)
          ["seeds"; "gear"; "eggs"]%string).

(** *** Discord and the tables of the tracker *)

(** The exceptions a call to Discord raises: [discord.NotFound] and
    [discord.Forbidden], any other [discord.HTTPException], and anything
    that is not an [HTTPException]. *)
Inductive Exn := NotFound | Forbidden | HTTPException | OtherError.

Definition is_HTTPException (e : Exn) : bool :=
  match e with OtherError => false | _ => true end.

Definition is_NotFound_or_Forbidden (e : Exn) : bool :=
  match e with NotFound | Forbidden => true | _ => false end.

Record Channel := mkChannel {
  channel_id : Z;
  channel_name : string;
  guild_id : Z;
  guild_name : string
}.

(** How Discord answers the calls made on one channel during a delivery:
    [None] and [inr] are success, [Some e] and [inl e] raise [e]. *)
Record ChannelApi := mkApi {
  fetch_message : Z → option Exn;
  delete_message : Z → option Exn;
  edit_message : Z → option Exn;
  send_content : Exn + Z;
  send_embed : Exn + Z
}.

Record Discord := mkDiscord {
  get_channel : Z → option Channel;
  api : Z → ChannelApi
}.

(** The tables read and written here.  [stock_channels] is the answer of
    [get_all_stock_channels]; [bot_config] holds, per channel id, the value
    under the key [last_notification_channel_<id>]. *)
Record TrackerDb := mkTrackerDb {
  stock_channels : list Z;
  stock_status_messages : gmap Z Z;
  bot_config : gmap Z Z;
  stock_ping_role : gmap Z Z
}.

Definition PLANTING_TREES_GUILD_ID : Z := 1382226403889647746.

Inductive Ping := RolePing (role_id : Z) | EveryonePing | NoPing.

(** What reached Discord. *)
Inductive Action :=
| DeleteMessage (channel message : Z)
| SendContent (channel : Z) (ping : Ping) (change_summary : string) (new_message : Z)
| SendEmbed (channel : Z) (embed : Embed) (new_message : Z)
| EditMessage (channel message : Z) (embed : Embed).

Definition action_channel (a : Action) : Z :=
  match a with
  | DeleteMessage c _ | SendContent c _ _ _ | SendEmbed c _ _ | EditMessage c _ _ => c
  end.

(** The lines written to the log. *)
Inductive LogEntry :=
| LogNoChannels                                       (* "No stock announcement channels configured..." *)
| LogChannelNotFound (id : Z)                         (* "Stock channel %s not found, skipping." *)
| LogFailedChannel (name : string) (id : Z) (e : Exn) (* "Failed to update channel #%s (%s): %s" *)
| LogFailedUpdate (id : Z) (e : Exn)                  (* "Failed to update channel %s: %s" *)
| LogDeletedPrevious (message : Z) (name : string)    (* "Deleted previous notification message..." *)
| LogSending (name guild : string)                    (* "Sending notification to #%s in %s." *)
| LogFailedNotification (id : Z) (e : Exn).           (* "Failed to send stock notification..." *)

Record Store := mkStore {
  db : TrackerDb;
  actions : list Action;
  log : list LogEntry
}.

Definition add_action (a : Action) (s : Store) : Store :=
  mkStore (db s) (actions s ++ [a]) (log s).
Definition add_log (l : LogEntry) (s : Store) : Store :=
  mkStore (db s) (actions s) (log s ++ [l]).
Definition set_stock_status_message (channel message : Z) (s : Store) : Store :=
  mkStore (mkTrackerDb (stock_channels (db s)) (<[channel := message]> (stock_status_messages (db s)))
                       (bot_config (db s)) (stock_ping_role (db s)))
          (actions s) (log s).
Definition delete_stock_message (channel : Z) (s : Store) : Store :=
  mkStore (mkTrackerDb (stock_channels (db s)) (delete channel (stock_status_messages (db s)))
                       (bot_config (db s)) (stock_ping_role (db s)))
          (actions s) (log s).
Definition set_config_value (channel message : Z) (s : Store) : Store :=
  mkStore (mkTrackerDb (stock_channels (db s)) (stock_status_messages (db s))
                       (<[channel := message]> (bot_config (db s))) (stock_ping_role (db s)))
          (actions s) (log s).

(** An id read from a table, when it is there and truthy. *)
Definition truthy_id (o : option Z) : option Z :=
  match o with
  | Some id => if id =? 0 then None else Some id
  | None => None
  end.

(** [_get_ping_settings] *)
Definition _get_ping_settings (d : TrackerDb) (guild : Z) : Ping :=
  match truthy_id (stock_ping_role d !! guild) with
  | Some role_id => RolePing role_id
  | None => if guild =? PLANTING_TREES_GUILD_ID then EveryonePing else NoPing
  end.

(** [_send_notification]; the second component is the exception it raises,
    if any. *)
Definition _send_notification (dc : Discord) (channel : Channel) (change_summary : string)
           (s : Store) : Store * option Exn :=
  let a := api dc (channel_id channel) in
  let deleted : Store * option Exn :=
    match truthy_id (bot_config (db s) !! channel_id channel) with
    | Some last_noti_id =>
        match fetch_message a last_noti_id with
        | Some e => (s, if is_NotFound_or_Forbidden e then None else Some e)
        | None =>
            match delete_message a last_noti_id with
            | Some e => (s, if is_NotFound_or_Forbidden e then None else Some e)
            | None =>
                (add_log (LogDeletedPrevious last_noti_id (channel_name channel))
                   (add_action (DeleteMessage (channel_id channel) last_noti_id) s), None)
            end
        end
    | None => (s, None)
    end in
  match deleted with
  | (s, Some e) => (s, Some e)
  | (s, None) =>
      let ping := _get_ping_settings (db s) (guild_id channel) in
      let s := add_log (LogSending (channel_name channel) (guild_name channel)) s in
      match send_content a with
      | inr new_msg =>
          (set_config_value (channel_id channel) new_msg
             (add_action (SendContent (channel_id channel) ping change_summary new_msg) s), None)
      | inl e =>
          if is_HTTPException e
          then (add_log (LogFailedNotification (channel_id channel) e) s, None)
          else (s, Some e)
      end
  end.

(** The [try] block of [_update_channel]. *)
Definition update_status_message (dc : Discord) (channel : Channel) (embed : Embed)
           (s : Store) : Store * option Exn :=
  let a := api dc (channel_id channel) in
  let fetched : Store * option Z * option Exn :=
    match truthy_id (stock_status_messages (db s) !! channel_id channel) with
    | Some message_id =>
        match fetch_message a message_id with
        | None => (s, Some message_id, None)
        | Some e =>
            if is_NotFound_or_Forbidden e
            then (delete_stock_message (channel_id channel) s, None, None)
            else (s, None, Some e)
        end
    | None => (s, None, None)
    end in
  match fetched with
  | (s, _, Some e) => (s, Some e)
  | (s, Some message, None) =>
      match edit_message a message with
      | None => (add_action (EditMessage (channel_id channel) message embed) s, None)
      | Some e => (s, Some e)
      end
  | (s, None, None) =>
      match send_embed a with
      | inr new_message =>
          (set_stock_status_message (channel_id channel) new_message
             (add_action (SendEmbed (channel_id channel) embed new_message) s), None)
      | inl e => (s, Some e)
      end
  end.

(** [_update_channel] *)
Definition _update_channel (dc : Discord) (channel : Channel) (embed : Embed)
           (change_summary : string) (s : Store) : Store * option Exn :=
  let notified :=
    if PyStr.truthy change_summary then _send_notification dc channel change_summary s
    else (s, None) in
  match notified with
  | (s, Some e) => (s, Some e)
  | (s, None) =>
      match update_status_message dc channel embed s with
      | (s, Some e) =>
          if is_HTTPException e
          then (add_log (LogFailedUpdate (channel_id channel) e) s, None)
          else (s, Some e)
      | (s, None) => (s, None)
      end
  end.

(** The first loop of [_handle_update]: the channels that are found, with a
    warning for each that is not. *)
Definition channels_to_update (dc : Discord) (all_channel_ids : list Z) (s : Store)
  : list Channel * Store :=
  fold_left (λ acc id,
               match get_channel dc id with
               | Some channel => (acc.1 ++ [channel], acc.2)
               | None => (acc.1, add_log (LogChannelNotFound id) acc.2)
               end)
            all_channel_ids ([], s).

(** [asyncio.gather] with [return_exceptions=True]: every task runs
    to its end; what a task raises becomes its entry in the results.  The
    tasks are run here one after the other, in the order of their creation;
    each reads and writes only the rows and the messages of its own channel. *)
Definition gather_step (dc : Discord) (embed : Embed) (change_summary : string)
           (acc : Store * list (option Exn)) (channel : Channel)
  : Store * list (option Exn) :=
  let '(s', result) := _update_channel dc channel embed change_summary acc.1 in
  (s', acc.2 ++ [result]).

Definition gather (dc : Discord) (embed : Embed) (change_summary : string)
           (channels : list Channel) (s : Store) : Store * list (option Exn) :=
  fold_left (gather_step dc embed change_summary) channels (s, []).

(** The loop over [zip(channels_to_update, results)]. *)
Definition log_failures (channels : list Channel) (results : list (option Exn)) (s : Store)
  : Store :=
  fold_left (λ s cr,
               match cr.2 with
               | Some e => add_log (LogFailedChannel (channel_name cr.1) (channel_id cr.1) e) s
               | None => s
               end)
            (zip channels results) s.

(** [_handle_update]: [None] when it raises (the change summary does); else
    the store it leaves and its local [results], paired with their channels. *)
Definition _handle_update (dc : Discord) (new_data : StockData) (s : Store)
  : option (Store * list (Channel * option Exn)) :=
  match stock_channels (db s) with
  | [] => Some (add_log LogNoChannels s, [])
  | all_channel_ids =>
      let embed := _build_stock_embed new_data in
      match _generate_change_summary new_data with
      | None => None
      | Some change_summary =>
          let '(channels, s) := channels_to_update dc all_channel_ids s in
          match channels with
          | [] => Some (s, [])
          | _ =>
              let '(s, results) := gather dc embed change_summary channels s in
              Some (log_failures channels results s, zip channels results)
          end
      end
  end.

(** *** The listener *)

Record Tracker := mkTracker {
  last_data_hash : option string;
  last_raw_data : option StockData
}.

(** A websocket message: text that is not JSON, or the [data] of the
    payload ([None] when it is missing or empty). *)
Inductive WsMessage := Malformed | Payload (data : option StockData).

(** [_process_websocket_message]: the tracker and store it leaves, and
    whether it raised. *)
Definition _process_websocket_message (dc : Discord) (t : Tracker) (s : Store)
           (message : WsMessage) : Tracker * Store * bool :=
  match message with
  | Malformed => (t, s, false)
  | Payload current_data =>
      let t := mkTracker (last_data_hash t) current_data in
      match current_data with
      | None => (t, s, false)
      | Some d =>
          let current_hash := _calculate_data_hash current_data in
          match last_data_hash t with
          | None => (mkTracker (Some current_hash) current_data, s, false)
          | Some last =>
              if negb (String.eqb current_hash last) then
                match _handle_update dc d s with
                | Some (s', _) => (mkTracker (Some current_hash) current_data, s', false)
                | None => (t, s, true)
                end
              else (t, s, false)
          end
      end
  end.

End RobloxTracker.

(** ** More of the ledger: [database/database_manager.py] *)

Module Economy.
Import DatabaseManager.

(** [add_or_update_user(user)]: the row of [users] is inserted or refreshed,
    and [INSERT OR IGNORE INTO economy (user_id)] gives a user without a row
    the defaults of the table, a balance of 0.  [sql_error] is the driver
    raising in this call. *)
Definition add_or_update_user (db : DB) (user_id : Z) (sql_error : bool) : bool * DB :=
  if sql_error then (false, db)
  else
    (true,
     mkDB ({[ user_id ]} ∪ users db)
          (match economy db !! user_id with
           | Some _ => economy db
           | None => <[user_id := mkRow 0 0 0]> (economy db)
           end)).

(** [UPDATE economy SET balance = ? WHERE user_id = ?] *)
Definition set_balance (amount : Q) (r : EconomyRow) : EconomyRow :=
  mkRow amount (total_earned r) (total_spent r).

(** [force_set_balance(user_id, amount)] *)
Definition force_set_balance (db : DB) (user_id : Z) (amount : Q) (sql_error : bool)
  : bool * DB :=
  if negb (get_user_profile db user_id) then (false, db)
  else if sql_error then (false, db)
  else (true, mkDB (users db) (alter (set_balance amount) user_id (economy db))).

(** [get_user_balance(user_id)] with the driver's error: the [except]
    clause returns 0. *)
Definition get_user_balance_or_0 (db : DB) (user_id : Z) (sql_error : bool) : Q :=
  if sql_error then 0%Q else get_user_balance db user_id.

End Economy.

(** ** The admin commands on balances: [cogs/admin.py] *)

Module Admin.
Import DatabaseManager Economy.

Inductive Reply :=
| Added (amount new_balance : Q)       (* "Đã cộng ... Số dư mới: ..." *)
| Removed (amount new_balance : Q)     (* "Đã trừ ... Số dư mới: ..." *)
| OnlyHas (current_balance amount : Q) (* "Người dùng chỉ có ..., không thể trừ ..." *)
| SetTo (amount : Q)                   (* "Đã đặt số dư của ... thành ..." *)
| UpdateFailed.                        (* "Có lỗi xảy ra khi cập nhật số dư." *)

(** The drivers' errors of the database calls of a command, in order. *)
Record Errors := mkErrors { e1 : bool; e2 : bool; e3 : bool; e4 : bool }.

Definition healthy : Errors := mkErrors false false false false.

(** [eco_add(user, amount)] *)
Definition eco_add (db : DB) (user_id : Z) (amount : Z) (err : Errors) : DB * Reply :=
  let db := (add_or_update_user db user_id (e1 err)).2 in
  let '(success, db) := update_balance db user_id (inject_Z amount) (e2 err) in
  if success
  then (db, Added (inject_Z amount) (get_user_balance_or_0 db user_id (e3 err)))
  else (db, UpdateFailed).

(** [eco_remove(user, amount)], as run when no other coroutine touches the
    ledger between its awaits; [Suspended.eco_remove_check] and
    [eco_remove_debit] are its stretches. *)
Definition eco_remove (db : DB) (user_id : Z) (amount : Z) (err : Errors) : DB * Reply :=
  let db := (add_or_update_user db user_id (e1 err)).2 in
  let current_balance := get_user_balance_or_0 db user_id (e2 err) in
  if Qlt_bool current_balance (inject_Z amount)
  then (db, OnlyHas current_balance (inject_Z amount))
  else
    let '(success, db) := update_balance db user_id (inject_Z (- amount)) (e3 err) in
    if success
    then (db, Removed (inject_Z amount) (get_user_balance_or_0 db user_id (e4 err)))
    else (db, UpdateFailed).

(** [eco_set(user, amount)] *)
Definition eco_set (db : DB) (user_id : Z) (amount : Z) (err : Errors) : DB * Reply :=
  let db := (add_or_update_user db user_id (e1 err)).2 in
  let '(success, db) := force_set_balance db user_id (inject_Z amount) (e2 err) in
  if success then (db, SetTo (inject_Z amount)) else (db, UpdateFailed).

End Admin.

(** ** Coinflip: [cogs/games/coinflip.py] *)

Module Coinflip.
Import DatabaseManager Economy.

Inductive Side := heads | tails.

Definition Side_eqb (a b : Side) : bool :=
  match a, b with
  | heads, heads | tails, tails => true
  | _, _ => false
  end.

Inductive Outcome :=
| NotEnough (amount : Z)                          (* "Bạn không có đủ ..." *)
| Result (result : Side) (is_winner : bool) (amount payout : Z) (new_balance : Q).

(** [coinflip(amount, side)]; [result] is what [random.choice] returns.  The
    command as run when no other coroutine touches the ledger between its
    awaits; [Suspended.coinflip_check], [coinflip_debit] and [coinflip_settle]
    are its stretches. *)
Definition coinflip (db : DB) (user_id : Z) (amount : Z) (side result : Side)
           (err : Admin.Errors) : DB * Outcome :=
  let current_balance := get_user_balance_or_0 db user_id (Admin.e1 err) in
  if Qlt_bool current_balance (inject_Z amount) then (db, NotEnough amount)
  else
    let db := (update_balance db user_id (inject_Z (- amount)) (Admin.e2 err)).2 in
    let is_winner := Side_eqb result side in
    let payout := if is_winner then amount * 2 else 0 in
    let db := if is_winner
              then (update_balance db user_id (inject_Z payout) (Admin.e3 err)).2
              else db in
    let new_balance := get_user_balance_or_0 db user_id (Admin.e4 err) in
    (db, Result result is_winner amount payout new_balance).

End Coinflip.

(** ** Slots: [cogs/games/slots.py] *)

Module Slots.
Import DatabaseManager Economy.

Inductive Symbol := Diamond | Orange | Lemon | Bell | Cherry | Clover | BAR.

Definition REELS : list Symbol := [Diamond; Orange; Lemon; Bell; Cherry; Clover; BAR].

(** [PAYOUTS.get(symbol, 0)] *)
Definition PAYOUTS (s : Symbol) : Z :=
  match s with
  | Diamond => 20 | Clover => 15 | BAR => 10 | Bell => 8
  | Orange => 5 | Lemon => 3 | Cherry => 2
  end.

Definition Symbol_eqb (a b : Symbol) : bool :=
  match a, b with
  | Diamond, Diamond | Orange, Orange | Lemon, Lemon | Bell, Bell
  | Cherry, Cherry | Clover, Clover | BAR, BAR => true
  | _, _ => false
  end.

Record GameResult := mkGameResult {
  results : Symbol * Symbol * Symbol;
  winnings : Z;
  is_win : bool
}.

(** [_get_game_result(bet)]; [r0], [r1], [r2] are the three draws of
    [random.choice(REELS)]. *)
Definition _get_game_result (bet : Z) (r0 r1 r2 : Symbol) : GameResult :=
  let is_win := Symbol_eqb r0 r1 && Symbol_eqb r1 r2 in
  let winnings := if is_win then bet * PAYOUTS r0 else - bet in
  mkGameResult (r0, r1, r2) winnings is_win.

Inductive Outcome :=
| NotEnough                                           (* "Bạn không đủ tiền để đặt cược." *)
| Jackpot (winnings : Z) (new_balance : Q)            (* "JACKPOT! Bạn đã thắng ..." *)
| Lost (bet : Z) (new_balance : Q).                   (* "Tiếc quá! Bạn đã thua ..." *)

(** [slots(bet)]: [_check_balance], then [_process_game_result] on the
    result of the spin. *)
Definition slots (db : DB) (user_id : Z) (bet : Z) (r0 r1 r2 : Symbol)
           (err : Admin.Errors) : DB * Outcome :=
  let balance := get_user_balance_or_0 db user_id (Admin.e1 err) in
  if Qlt_bool balance (inject_Z bet) then (db, NotEnough)
  else
    let game_result := _get_game_result bet r0 r1 r2 in
    let net_change := winnings game_result - bet in
    let db := (update_balance db user_id (inject_Z net_change) (Admin.e2 err)).2 in
    let new_balance := get_user_balance_or_0 db user_id (Admin.e3 err) in
    if is_win game_result
    then (db, Jackpot (winnings game_result) new_balance)
    else (db, Lost bet new_balance).

End Slots.

(** ** The daily reward: [cogs/economy.py] *)

Module Daily.

(** [_calculate_reward(streak)] for the configured [DAILY_REWARD] and
    [MAX_STREAK_MULTIPLIER]; [//] is the floor division of Python. *)
Record Reward := mkReward { base : Z; bonus : Z; total : Z }.

Definition _calculate_reward (DAILY_REWARD MAX_STREAK_MULTIPLIER : Z) (streak : Z) : Reward :=
  let base := DAILY_REWARD in
  let bonus_multiplier := Z.min (streak - 1) MAX_STREAK_MULTIPLIER in
  let bonus := bonus_multiplier * (base / 10) in
  mkReward base bonus (base + bonus).

(** The table [daily_claims]: per user, [last_claim_date] and [streak].  A
    date is kept as the number of its day; [isoformat] writes it and
    [strptime(..., '%Y-%m-%d')] reads it back. *)
Abbreviation Claims := (gmap Z (Z * Z)).

(** [get_daily_claim_info(user_id)]: the row, or [None] when there is none
    or the driver raises. *)
Definition get_daily_claim_info (claims : Claims) (user_id : Z) (sql_error : bool)
  : option (Z * Z) :=
  if sql_error then None else claims !! user_id.

(** [update_daily_claim(user_id, claim_date, new_streak)] *)
Definition update_daily_claim (claims : Claims) (user_id claim_date new_streak : Z)
           (sql_error : bool) : Claims :=
  if sql_error then claims else <[user_id := (claim_date, new_streak)]> claims.

Inductive Reply :=
| AlreadyClaimed                          (* "Bạn đã điểm danh hôm nay rồi. ..." *)
| UpdateFailed                            (* "Có lỗi xảy ra khi cập nhật số dư của bạn." *)
| Claimed (reward : Reward) (streak : Z). (* "Điểm Danh Thành Công!" *)

(** [daily]: the command [/daily] of user [user_id] on the day [today], as
    run when no other coroutine touches the tables between its awaits;
    [Suspended.daily_read], [daily_pay] and [daily_file] are its stretches. *)
Definition daily (DAILY_REWARD MAX_STREAK_MULTIPLIER : Z) (db : DatabaseManager.DB)
           (claims : Claims) (user_id today : Z) (err : Admin.Errors)
  : DatabaseManager.DB * Claims * Reply :=
  let db := (Economy.add_or_update_user db user_id (Admin.e1 err)).2 in
  let claim_info := get_daily_claim_info claims user_id (Admin.e2 err) in
  let streak : option Z :=
    match claim_info with
    | Some (last_claim_date, current_streak) =>
        if last_claim_date =? today then None
        else if last_claim_date =? today - 1 then Some (current_streak + 1)
        else Some 1
    | None => Some 1
    end in
  match streak with
  | None => (db, claims, AlreadyClaimed)
  | Some streak =>
      let reward_details := _calculate_reward DAILY_REWARD MAX_STREAK_MULTIPLIER streak in
      let '(success, db) :=
        DatabaseManager.update_balance db user_id (inject_Z (total reward_details))
                                       (Admin.e3 err) in
      if negb success then (db, claims, UpdateFailed)
      else
        (db, update_daily_claim claims user_id today streak (Admin.e4 err),
         Claimed reward_details streak)
  end.

End Daily.

(** ** Easing: [utils/easing.py] *)

Module Easing.

(** [ease_out_bounce(x)], with [n1 = 7.5625] and [d1 = 2.75]. *)
Definition ease_out_bounce (x : Q) : Q :=
  let n1 := 121 # 16 in
  let d1 := 11 # 4 in
  if Qlt_bool x (1 / d1) then (n1 * x * x)%Q
  else if Qlt_bool x (2 / d1) then
    let x := (x - (3 # 2) / d1)%Q in (n1 * x * x + (3 # 4))%Q
  else if Qlt_bool x ((5 # 2) / d1) then
    let x := (x - (9 # 4) / d1)%Q in (n1 * x * x + (15 # 16))%Q
  else
    let x := (x - (21 # 8) / d1)%Q in (n1 * x * x + (63 # 64))%Q.

End Easing.

(** ** Hands of cards: [utils/game_utils.py] *)

Module GameUtils.

Inductive Rank := R2 | R3 | R4 | R5 | R6 | R7 | R8 | R9 | R10 | J | Q_ | K | A.

(** [VALUES[rank]] *)
Definition VALUES (r : Rank) : Z :=
  match r with
  | R2 => 2 | R3 => 3 | R4 => 4 | R5 => 5 | R6 => 6 | R7 => 7 | R8 => 8 | R9 => 9
  | R10 => 10 | J => 10 | Q_ => 10 | K => 10 | A => 11
  end.

Definition is_ace (r : Rank) : bool := match r with A => true | _ => false end.

(** A card: its suit, from 0 to 3, and its rank; [card.value] is [VALUES[rank]]. *)
Record Card := mkCard { suit : nat; rank : Rank }.

Definition card_value (c : Card) : Z := VALUES (rank c).

Record Hand := mkHand {
  cards : list Card;
  value : Z;
  aces : Z
}.

(** [Hand()] *)
Definition empty_hand : Hand := mkHand [] 0 0.

(** [adjust_for_ace]: [while self.value > 21 and self.aces].  The loop
    runs at most [aces] times, which is the fuel given to it here. *)
Fixpoint adjust_loop (fuel : nat) (v a : Z) : Z * Z :=
  match fuel with
  | O => (v, a)
  | S fuel' =>
      if (21 <? v) && negb (a =? 0) then adjust_loop fuel' (v - 10) (a - 1)
      else (v, a)
  end.

Definition adjust_for_ace (h : Hand) : Hand :=
  let '(v, a) := adjust_loop (Z.to_nat (aces h)) (value h) (aces h) in
  mkHand (cards h) v a.

(** [add_card(card)] *)
Definition add_card (h : Hand) (card : Card) : Hand :=
  let h := mkHand (cards h ++ [card]) (value h + card_value card)
                  (if is_ace (rank card) then aces h + 1 else aces h) in
  adjust_for_ace h.

End GameUtils.

(** ** Blackjack: [cogs/games/blackjack.py] *)

Module Blackjack.
Import DatabaseManager GameUtils.

(** The keys of [payout_map]. *)
Inductive Outcome := win | loss | blackjack_ | push.

(** A [BlackjackGame].  [deck] holds the cards that [self.deck.deal()] hands
    out, in the order in which it hands them out. *)
Record BlackjackGame := mkBlackjackGame {
  player : Z;
  bet : Z;
  deck : list Card;
  player_hand : Hand;
  dealer_hand : Hand;
  game_over : bool
}.

(** [BlackjackGame(bot, interaction, bet)] *)
Definition __init__ (player bet : Z) (deck : list Card) : BlackjackGame :=
  mkBlackjackGame player bet deck empty_hand empty_hand false.

(** [payout_map[outcome]]; [int(self.bet * 1.5)] cuts the half of an odd bet. *)
Definition payout_map (bet : Z) (outcome : Outcome) : Z :=
  match outcome with
  | win => bet * 2
  | loss => 0
  | blackjack_ => bet + Z.quot (bet * 3) 2
  | push => bet
  end.

(** [end_game(outcome, ...)], as far as the game and the balances go: the
    counters of [update_blackjack_stats] are other columns. *)
Definition end_game (g : BlackjackGame) (db : DB) (outcome : Outcome) (sql_error : bool)
  : BlackjackGame * DB :=
  let g := mkBlackjackGame (player g) (bet g) (deck g) (player_hand g) (dealer_hand g) true in
  let payout := payout_map (bet g) outcome in
  let db := if 0 <? payout
            then (update_balance db (player g) (inject_Z payout) sql_error).2
            else db in
  (g, db).

(** The dealer's turn, [while self.dealer_hand.value < 17]; [None] when the
    cards listed in [deck] run out before the loop ends. *)
Fixpoint dealer_turn (deck : list Card) (dealer_hand : Hand) : option (Hand * list Card) :=
  if value dealer_hand <? 17
  then match deck with
       | [] => None
       | card :: deck' => dealer_turn deck' (add_card dealer_hand card)
       end
  else Some (dealer_hand, deck).

(** The choice of the outcome in [stand]. *)
Definition stand_outcome (blackjack : bool) (player_score dealer_score : Z) : Outcome :=
  if blackjack then blackjack_
  else if 21 <? player_score then loss
  else if (21 <? dealer_score) || (dealer_score <? player_score) then win
  else if player_score <? dealer_score then loss
  else push.

(** [stand(blackjack)] *)
Definition stand (g : BlackjackGame) (db : DB) (blackjack : bool) (sql_error : bool)
  : option (BlackjackGame * DB) :=
  match dealer_turn (deck g) (dealer_hand g) with
  | None => None
  | Some (dealer_hand, deck) =>
      let g := mkBlackjackGame (player g) (bet g) deck (player_hand g) dealer_hand
                               (game_over g) in
      let player_score := value (player_hand g) in
      let dealer_score := value dealer_hand in
      Some (end_game g db (stand_outcome blackjack player_score dealer_score) sql_error)
  end.

(** [hit] *)
Definition hit (g : BlackjackGame) (db : DB) (sql_error : bool)
  : option (BlackjackGame * DB) :=
  match deck g with
  | [] => None
  | card :: deck =>
      let g := mkBlackjackGame (player g) (bet g) deck (add_card (player_hand g) card)
                               (dealer_hand g) (game_over g) in
      if 21 <=? value (player_hand g) then stand g db false sql_error
      else Some (g, db)
  end.

(** [double_down]; [err] holds the errors of its two calls of the ledger. *)
Definition double_down (g : BlackjackGame) (db : DB) (err : Admin.Errors)
  : option (BlackjackGame * DB) :=
  let '(transaction_successful, db) :=
    update_balance db (player g) (inject_Z (- bet g)) (Admin.e1 err) in
  if negb transaction_successful then Some (g, db)
  else
    match deck g with
    | [] => None
    | card :: deck =>
        let g := mkBlackjackGame (player g) (bet g * 2) deck (add_card (player_hand g) card)
                                 (dealer_hand g) (game_over g) in
        stand g db false (Admin.e2 err)
    end.

(** [start]: two cards each, dealt in turn, and [stand(blackjack=True)] on 21. *)
Definition start (g : BlackjackGame) (db : DB) (sql_error : bool)
  : option (BlackjackGame * DB) :=
  match deck g with
  | c1 :: c2 :: c3 :: c4 :: deck =>
      let player_hand := add_card (add_card (player_hand g) c1) c3 in
      let dealer_hand := add_card (add_card (dealer_hand g) c2) c4 in
      let g := mkBlackjackGame (player g) (bet g) deck player_hand dealer_hand (game_over g) in
      if value player_hand =? 21 then stand g db true sql_error
      else Some (g, db)
  | _ => None
  end.

(** [BlackjackCog.blackjack(bet)]: [Some (None, _)] is the answer "Bạn không
    đủ tiền để đặt cược."; [deck] is the shuffled [Deck(num_decks=4)]. *)
Definition blackjack (db : DB) (user_id bet : Z) (deck : list Card) (err : Admin.Errors)
  : option (option BlackjackGame * DB) :=
  let '(transaction_successful, db) :=
    update_balance db user_id (inject_Z (- bet)) (Admin.e1 err) in
  if negb transaction_successful then Some (None, db)
  else
    match start (__init__ user_id bet deck) db (Admin.e2 err) with
    | Some (g, db) => Some (Some g, db)
    | None => None
    end.

End Blackjack.

(** ** Handlers suspended at an await

    A coroutine gives way to the event loop at each of its awaits.  The
    handlers below test something, await the ledger, and write afterwards;
    they are given here stretch by stretch, a stretch being the code between
    two awaits on the ledger, so that the stretches of several calls can be
    run in any order. *)

Module Suspended.
Import DatabaseManager CrashGameInstance Crash.

(** *** [CrashGameInstance.add_player] *)

(** [add_player] from its entry to [await self.bot.db.update_balance(...)]:
    the three tests.  [Some r] is the answer of a call that is turned down,
    [None] a call that goes on to the ledger. *)
Definition add_player_tests (g : Game) (user_id : Z) : option Reply :=
  if negb (is_betting_open g) then Some BettingPhaseOver
  else if bool_decide (is_Some (players g !! user_id)) then Some AlreadyJoined
  else if bool_decide (MAX_PLAYERS ≤ size (players g))%nat then Some GameFull
  else None.

(** [add_player] from the return of [update_balance] on, [ok] being what it
    returned.  Nothing is tested again. *)
Definition add_player_resume (g : Game) (user_id b : Z) (ok : bool) : Game * list Effect :=
  if negb ok then (g, [Followup user_id NotEnoughFunds])
  else
    let g' := set_players (insert user_id (mkPlayer b user_id None)) g in
    (g', Followup user_id (JoinedWithBet b) :: _update_player_list_embed g').

(** A round, the ledger, the users whose [add_player] is waiting for the
    ledger, and what was sent. *)
Record State := mkState {
  round : Game;
  ledger : DB;
  awaiting : list Z;
  sent : list Effect
}.

(** What the event loop runs next. *)
Inductive Event :=
| JoinTests (user_id : Z)                     (* add_player is entered and runs to its await *)
| JoinResume (user_id b : Z) (sql_error : bool) (* update_balance runs, and add_player goes on *)
| Timeout (elapsed : Q).                      (* CrashJoinView.on_timeout: lock_bets *)

(** [remove_first x l]: one coroutine of user [x] leaves the waiting ones. *)
Fixpoint remove_first (x : Z) (l : list Z) : list Z :=
  match l with
  | [] => []
  | y :: l' => if bool_decide (x = y) then l' else y :: remove_first x l'
  end.

Definition step (s : State) (e : Event) : State :=
  match e with
  | JoinTests uid =>
      match add_player_tests (round s) uid with
      | Some r => mkState (round s) (ledger s) (awaiting s) (sent s ++ [Followup uid r])
      | None => mkState (round s) (ledger s) (awaiting s ++ [uid]) (sent s)
      end
  | JoinResume uid b err =>
      if bool_decide (uid ∈ awaiting s)
      then
        let '(ok, d) := update_balance (ledger s) uid (inject_Z (- b)) err in
        let '(g, fx) := add_player_resume (round s) uid b ok in
        mkState g d (remove_first uid (awaiting s)) (sent s ++ fx)
      else s
  | Timeout t =>
      let '(g, fx) := lock_bets_begin t (round s) in
      mkState g (ledger s) (awaiting s) (sent s ++ fx)
  end.

Definition run (s : State) (es : list Event) : State := fold_left step es s.

(** *** [Coinflip.coinflip] *)

(** Lines 41 to 47: the balance is read and compared with the bet; [true]
    when the command goes on. *)
Definition coinflip_check (db : DB) (user_id amount : Z) (sql_error : bool) : bool :=
  negb (Qlt_bool (Economy.get_user_balance_or_0 db user_id sql_error) (inject_Z amount)).

(** Line 49: the bet is taken. *)
Definition coinflip_debit (db : DB) (user_id amount : Z) (sql_error : bool) : DB :=
  (update_balance db user_id (inject_Z (- amount)) sql_error).2.

(** Lines 57 to 64: the coin has fallen on [result]; a winner is paid, and
    the balance is read for the answer. *)
Definition coinflip_settle (db : DB) (user_id amount : Z) (side result : Coinflip.Side)
           (e3 e4 : bool) : DB * Coinflip.Outcome :=
  let is_winner := Coinflip.Side_eqb result side in
  let payout := if is_winner then amount * 2 else 0 in
  let db := if is_winner
            then (update_balance db user_id (inject_Z payout) e3).2
            else db in
  (db, Coinflip.Result result is_winner amount payout
         (Economy.get_user_balance_or_0 db user_id e4)).

(** *** [Admin.eco_remove] *)

(** Lines 57 to 65: the user is registered, the balance read and compared
    with the amount.  The balance read is returned with the database;
    [true] when the command goes on. *)
Definition eco_remove_check (db : DB) (user_id amount : Z) (e1 e2 : bool)
  : DB * Q * bool :=
  let db := (Economy.add_or_update_user db user_id e1).2 in
  let current_balance := Economy.get_user_balance_or_0 db user_id e2 in
  (db, current_balance, negb (Qlt_bool current_balance (inject_Z amount))).

(** Lines 67 to 82: the amount is taken and the answer made. *)
Definition eco_remove_debit (db : DB) (user_id amount : Z) (e3 e4 : bool)
  : DB * Admin.Reply :=
  let '(success, db) := update_balance db user_id (inject_Z (- amount)) e3 in
  if success
  then (db, Admin.Removed (inject_Z amount) (Economy.get_user_balance_or_0 db user_id e4))
  else (db, Admin.UpdateFailed).

(** *** [Economy.daily] *)

(** Lines 126 to 143: the user is registered and the claim read; [None]
    when the user has claimed today, else the streak of the new claim. *)
Definition daily_read (db : DB) (claims : Daily.Claims) (user_id today : Z) (e1 e2 : bool)
  : DB * option Z :=
  let db := (Economy.add_or_update_user db user_id e1).2 in
  (db,
   match Daily.get_daily_claim_info claims user_id e2 with
   | Some (last_claim_date, current_streak) =>
       if last_claim_date =? today then None
       else if last_claim_date =? today - 1 then Some (current_streak + 1)
       else Some 1
   | None => Some 1
   end).

(** Lines 145 to 152: the reward of the streak is paid; the second
    component is [success]. *)
Definition daily_pay (DAILY_REWARD MAX_STREAK_MULTIPLIER : Z) (db : DB) (user_id streak : Z)
           (e3 : bool) : DB * bool :=
  let reward_details := Daily._calculate_reward DAILY_REWARD MAX_STREAK_MULTIPLIER streak in
  let '(success, db) := update_balance db user_id (inject_Z (Daily.total reward_details)) e3 in
  (db, success).

(** Line 154: the claim is filed. *)
Definition daily_file (claims : Daily.Claims) (user_id today streak : Z) (e4 : bool)
  : Daily.Claims :=
  Daily.update_daily_claim claims user_id today streak e4.

End Suspended.

(** ** Sample data for the examples *)

Module Samples.
Import DatabaseManager CrashGameInstance.

(** A ledger with one user, number 7, who owns 10 coins. *)
Definition poor_db : DB := mkDB {[ 7 ]} {[ 7 := mkRow 10 0 0 ]}.

(** The ledger after players 7 and 8 joined with bets of 100 and 50. *)
Definition bank : DB :=
  mkDB {[ 7; 8 ]} {[ 7 := mkRow 900 0 100; 8 := mkRow 450 0 50 ]}.


(** The same round while its betting is still open. *)
Definition betting_round : Game :=
  mkGame {[ 7 := mkPlayer 100 7 None; 8 := mkPlayer 50 8 None ]}
         (Some 1) (7 # 2) 1 true false [].

(** A round nobody joined. *)
Definition empty_round : Game := mkGame ∅ (Some 1) (7 # 2) 1 true false [].

(** A session in guild 1: [/crash] with the draws 0.5 and 0.0, player 7
    joins with 100, the betting times out, player 7 clicks "Cash Out!". *)
Definition session : list Crash.Event :=
  [Crash.EvCrash 1 7 (1 # 2) 0 10;
   Crash.EvGame 1 (Crash.EvJoin 7 100 false);
   Crash.EvGame 1 (Crash.EvTimeout 0);
   Crash.EvGame 1 (Crash.EvCashout 7 false)].

End Samples.

Module FeedSamples.
Import RobloxTracker.

Definition item (n : string) (q : Z) : Item := mkItem (Some n) q.

(** The three snapshots of the scenario in section 8 of the specification. *)
Definition snapshot1 : StockData :=
  mkData (Some "Rain"%string) {[ "seeds"%string := [item "Cacao" 2] ]}.
Definition snapshot2 : StockData := snapshot1.
Definition snapshot3 : StockData :=
  mkData (Some "Rain"%string) {[ "seeds"%string := [item "Cacao" 2; item "Beanstalk" 1] ]}.

(** The third snapshot in another order, another case and other quantities. *)
Definition snapshot3_shuffled : StockData :=
  mkData (Some "Rain"%string) {[ "seeds"%string := [item "BEANSTALK" 7; item "cacao" 1] ]}.

(** One name listed twice. *)
Definition snapshot_twice : StockData :=
  mkData (Some "Rain"%string) {[ "seeds"%string := [item "Cacao" 2; item "Cacao" 1] ]}.

(** A category whose only entry has no name, and the same category empty. *)
Definition snapshot_nameless : StockData :=
  mkData (Some "Rain"%string) {[ "seeds"%string := [mkItem None 1] ]}.
Definition snapshot_empty : StockData :=
  mkData (Some "Rain"%string) {[ "seeds"%string := [] ]}.

(** One destination on which every call to Discord succeeds; the alert it
    sends gets the id 501, the status message the id 502. *)
Definition garden_channel : Channel := mkChannel 100 "stock" 1 "Garden".

Definition all_ok : ChannelApi :=
  mkApi (λ _, None) (λ _, None) (λ _, None) (inr 501) (inr 502).

Definition one_destination : Discord :=
  mkDiscord (λ id, if id =? 100 then Some garden_channel else None) (λ _, all_ok).

Definition store0 : Store := mkStore (mkTrackerDb [100] ∅ ∅ ∅) [] [].

(** The alert the third snapshot gives rise to. *)
Definition alert3 : string :=
  ("**Vật phẩm hiếm trong kho:**" ++ newline ++ "**🌱 Seeds**" ++ newline ++
   "• Beanstalk" ++ newline ++ "• Cacao")%string.

(** Five destinations, 101 to 105.  On the third, the status message 900
    is on record and editing it raises an error that is not an
    [HTTPException]. *)
Definition five_destinations : Discord :=
  mkDiscord
    (λ id, if (101 <=? id) && (id <=? 105)
           then Some (mkChannel id "stock" 1 "Garden") else None)
    (λ id, if id =? 103
           then mkApi (λ _, None) (λ _, None) (λ _, Some OtherError) (inr 501) (inr 502)
           else all_ok).

Definition store5 : Store :=
  mkStore (mkTrackerDb [101; 102; 103; 104; 105] {[ 103 := 900 ]} ∅ ∅) [] [].

End FeedSamples.

Module TableSamples.
Import GameUtils.

Definition card (r : Rank) : Card := mkCard 0 r.

(** The top of a shoe: the first four cards go to the player and the dealer
    in turn. *)
Definition shoe : list Card :=
  card <$> [R10; R6; R9; A; R5; K; R2; R3; R4; R5; R6; R7; R8; R9; R10; J; Q_; K; A; R2; R3; R4].

(** [daily_claims] with one row: user 7 claimed on day 19000, the third day
    of a streak. *)
Definition claims : Daily.Claims := {[ 7 := (19000, 3) ]}.

End TableSamples.

Module RaceSamples.
Import DatabaseManager CrashGameInstance.

(** Twenty-one users with a profile, one more than a round takes. *)
Definition crowd : list Z := seqZ 1 21.

Definition crowd_db : DB := mkDB (list_to_set crowd) ∅.

End RaceSamples.

(** ** Invariants used in the proofs *)

Module Invariants.
Import DatabaseManager CrashGameInstance.



(** A round that is not running and whose multiplier has not left 1.0,
    with a crash point that is not above it. *)
Definition idle (g : Game) : Prop :=
  is_running g = false ∧ current_multiplier g = 1%Q ∧ (crashed_at g <= 1)%Q.

(** An effect other than the answer to an accepted cashout. *)
Definition not_cashed_out (e : Effect) : Prop :=
  match e with
  | Respond _ (CashedOut _ _) => False
  | _ => True
  end.

(** An event whose random draws are values of [random.random()]. *)
Definition valid_event (e : Crash.Event) : Prop :=
  match e with
  | Crash.EvCrash _ _ r p _ => (0 <= p)%Q ∧ (p < 1)%Q
  | Crash.EvGame _ _ => True
  end.

End Invariants.

Module DispatchRelations.
Import RobloxTracker.

(** Two stores look the same from channel [c]: the same rows for [c] in
    both tables, and the same ping roles. *)
Definition sim (c : Z) (s s' : Store) : Prop :=
  stock_status_messages (db s) !! c = stock_status_messages (db s') !! c ∧
  bot_config (db s) !! c = bot_config (db s') !! c ∧
  stock_ping_role (db s) = stock_ping_role (db s').

(** A delivery on channel [c] took [s] to [out]: the rows of the other
    channels, the ping roles and the list of channels are as before, what
    was sent and logged before is still there, and what was sent since went
    to [c]. *)
Definition frame (c : Z) (s out : Store) (sent : list Action) : Prop :=
  (∀ c', c' ≠ c →
         stock_status_messages (db out) !! c' = stock_status_messages (db s) !! c' ∧
         bot_config (db out) !! c' = bot_config (db s) !! c') ∧
  stock_ping_role (db out) = stock_ping_role (db s) ∧
  stock_channels (db out) = stock_channels (db s) ∧
  actions out = actions s ++ sent ∧
  Forall (λ a, action_channel a = c) sent ∧
  ∃ logged, log out = log s ++ logged.

(** A step of a delivery is local to channel [c]: on two stores that look
    the same from [c] it raises the same, sends the same, and leaves stores
    that look the same from [c], touching nothing of the other channels. *)
Definition local_step (c : Z) (f : Store → Store * option Exn) : Prop :=
  ∀ s s', sim c s s' →
    (f s).2 = (f s').2 ∧
    sim c (f s).1 (f s').1 ∧
    ∃ sent, frame c s (f s).1 sent ∧ frame c s' (f s').1 sent.

(** The actions that went to channel [c]. *)
Definition sent_to (c : Z) (l : list Action) : list Action :=
  filter (λ a, action_channel a = c) l.

(** Two stores hold the same for channel [c]: its rows, and what was sent
    to it. *)
Definition same_view (c : Z) (s s' : Store) : Prop :=
  sim c s s' ∧ sent_to c (actions s) = sent_to c (actions s').

(** The destinations of an update: the configured channels that are found,
    in the order of the table. *)
Definition destinations (dc : Discord) (s : Store) : list Channel :=
  omap (get_channel dc) (stock_channels (db s)).

(** An action on the status message of a channel, as opposed to an alert
    or the deletion of one. *)
Definition is_status (a : Action) : Prop :=
  match a with
  | EditMessage _ _ _ | SendEmbed _ _ _ => True
  | DeleteMessage _ _ | SendContent _ _ _ _ => False
  end.

(** What a step adds to the messages sent, when all it adds are status
    messages and the table of the last alerts stays as it is. *)
Definition quiet_step (s s' : Store) : Prop :=
  (∃ sent, actions s' = actions s ++ sent ∧ Forall is_status sent) ∧
  bot_config (db s') = bot_config (db s).

End DispatchRelations.

(** ** Dealing a hand *)

Module Dealing.
Import GameUtils.

(** A fresh [Hand()] to which the cards are added one after the other. *)
Definition hand_of (cs : list Card) : Hand := fold_left add_card cs empty_hand.

(** The cards counted at face value, every ace as 11. *)
Definition face_total (cs : list Card) : Z := fold_right (λ c acc, card_value c + acc) 0 cs.

Definition count_aces (cs : list Card) : Z :=
  fold_right (λ c acc, (if is_ace (rank c) then 1 else 0) + acc) 0 cs.

End Dealing.

(** ** Reading a category of the feed *)

Module FeedRelations.
Import RobloxTracker.

(** The entry carries the name [n]. *)
Definition named (n : string) (item : Item) : bool := bool_decide (name item = Some n).

(** The quantities of the entries named [n], added up. *)
Definition total_quantity (n : string) (items : list Item) : Z :=
  foldr (λ item acc, if named n item then quantity item + acc else acc) 0 items.

End FeedRelations.

(** * Properties *)

(** ** Numbers *)

Lemma Qlt_bool_iff (x y : Q) : Qlt_bool x y = true ↔ (x < y)%Q.
Proof. unfold Qlt_bool, Qlt. apply Z.ltb_lt. Qed.

Lemma Qlt_bool_false_iff (x y : Q) : Qlt_bool x y = false ↔ (y <= x)%Q.
Proof. unfold Qlt_bool, Qle. rewrite Z.ltb_ge. reflexivity. Qed.





(** ** The crash point *)

Section CrashPoint.
Import CrashGameInstance.

(** The instant crash: a first draw below 0.01 gives exactly 1.00. *)
Lemma crash_point_instant (r p : Q) :
  (r < 1 # 100)%Q → _get_crash_point r p = 1%Q.
Proof.
  intros H. unfold _get_crash_point.
  apply Qlt_bool_iff in H. rewrite H. reflexivity.
Qed.

(** Off the instant crash the source's quotient is [(0.99 - p) / (1 - p)]. *)
Lemma crash_point_curve (r p : Q) :
  ¬ (r < 1 # 100)%Q → ¬ (p == 1)%Q →
  (_get_crash_point r p == ((99 # 100) - p) / (1 - p))%Q.
Proof.
  intros Hr Hp. unfold _get_crash_point.
  destruct (Qlt_bool r (1 # 100)) eqn:E.
  { apply Qlt_bool_iff in E. contradiction. }
  change (inject_Z (2 ^ 32)) with (4294967296 # 1)%Q.
  field. split; intros H; apply Hp; lra.
Qed.

End CrashPoint.

Section CrashPointRange.
Import CrashGameInstance.

(** Off the instant crash, a draw [0 <= p < 1] gives at most 0.99. *)
Lemma crash_point_off_instant (r p : Q) :
  (1 # 100 <= r)%Q → (0 <= p)%Q → (p < 1)%Q → (_get_crash_point r p <= 99 # 100)%Q.
Proof.
  intros Hr Hp0 Hp1.
  rewrite crash_point_curve; [| lra | lra].
  apply Qle_shift_div_r; lra.
Qed.

(** C1.  [_get_crash_point] has no clamp.  Whenever the instant-crash test
    fails (first draw [r >= 0.01]), every draw [p] of [random.random()],
    that is every [0 <= p < 1], makes the returned crash point at most
    0.99, so below the 1.00 the specification promises. *)
Theorem crash_point_below_one (r p : Q) :
  (1 # 100 <= r)%Q → (0 <= p)%Q → (p < 1)%Q →
  (_get_crash_point r p <= 99 # 100)%Q ∧ (_get_crash_point r p < 1)%Q.
Proof.
  intros Hr Hp0 Hp1.
  pose proof (crash_point_off_instant r p Hr Hp0 Hp1) as H.
  split; [exact H | lra].
Qed.

Lemma crash_point_below_one_witness :
  (_get_crash_point (1 # 2) 0 <= 99 # 100)%Q ∧ (_get_crash_point (1 # 2) 0 < 1)%Q.
Proof. apply (crash_point_below_one (1 # 2) 0); lra. Defined.

(** The value at the draws [r = 0.5], [p = 0]. *)
Lemma crash_point_example : (_get_crash_point (1 # 2) 0 == 99 # 100)%Q.
Proof. vm_compute. reflexivity. Qed.

(** The crash point turns negative for draws above 0.99. *)
Lemma crash_point_negative_example : (_get_crash_point (1 # 2) (999 # 1000) < 0)%Q.
Proof. vm_compute. reflexivity. Qed.

End CrashPointRange.

(** ** The ledger *)

Section Ledger.
Import DatabaseManager.

Lemma update_balance_no_profile (d : DB) (uid : Z) (amount : Q) (err : bool) :
  uid ∉ users d → update_balance d uid amount err = (false, d).
Proof.
  intros H. unfold update_balance, get_user_profile.
  rewrite bool_decide_eq_false_2 by assumption. reflexivity.
Qed.

Lemma update_balance_sql_error (d : DB) (uid : Z) (amount : Q) :
  update_balance d uid amount true = (false, d).
Proof.
  unfold update_balance. destruct (negb (get_user_profile d uid)); reflexivity.
Qed.

(** With a profile and a healthy connection the update goes through,
    whatever the balance and whatever the sign of the amount. *)
Lemma update_balance_ok (d : DB) (uid : Z) (amount : Q) :
  uid ∈ users d →
  ∃ d', update_balance d uid amount false = (true, d') ∧
        users d' = users d ∧
        (∀ r, economy d !! uid = Some r →
              ∃ r', economy d' !! uid = Some r' ∧ balance r' = (balance r + amount)%Q) ∧
        (∀ u, u ≠ uid → economy d' !! u = economy d !! u).
Proof.
  intros H. unfold update_balance, get_user_profile.
  rewrite bool_decide_eq_true_2 by assumption. simpl.
  destruct (Qlt_bool 0 amount); eexists; (split; [reflexivity |]); simpl;
    (split; [reflexivity |]); split.
  - intros r Hr. rewrite lookup_alter_eq, Hr. simpl. eauto.
  - intros u Hu. apply lookup_alter_ne. congruence.
  - intros r Hr. rewrite lookup_alter_eq, Hr. simpl. eauto.
  - intros u Hu. apply lookup_alter_ne. congruence.
Qed.

(** A failed update leaves the tables as they were. *)
Lemma update_balance_false (d d' : DB) (uid : Z) (amount : Q) (err : bool) :
  update_balance d uid amount err = (false, d') → d' = d.
Proof.
  unfold update_balance.
  destruct (negb (get_user_profile d uid)); [congruence |].
  destruct err; [congruence |].
  destruct (Qlt_bool 0 amount); congruence.
Qed.

End Ledger.

Section Overdraft.
Import DatabaseManager CrashGameInstance Samples.

(** C2.  [update_balance] never looks at the balance.  A debit larger than
    the balance of a user who has a profile succeeds and drives the balance
    below zero; a join with such a bet is therefore accepted: the player
    enters the round and the ledger is overdrawn. *)
Theorem update_balance_overdraft (g : Game) (d : DB) (uid b : Z) (row : EconomyRow) :
  uid ∈ users d →
  economy d !! uid = Some row →
  (0 < b)%Z →
  (balance row < inject_Z b)%Q →
  is_betting_open g = true →
  players g !! uid = None →
  (size (players g) < MAX_PLAYERS)%nat →
  ∃ d' row',
    update_balance d uid (inject_Z (- b)) false = (true, d') ∧
    economy d' !! uid = Some row' ∧
    balance row' = (balance row + inject_Z (- b))%Q ∧
    (balance row' < 0)%Q ∧
    ∃ fx, add_player g d uid b false =
            (set_players (insert uid (mkPlayer b uid None)) g, d',
             Followup uid (JoinedWithBet b) :: fx).
Proof.
  intros Hu Hrow Hb Hbal Hopen Hnew Hsize.
  destruct (update_balance_ok d uid (inject_Z (- b)) Hu) as (d' & Hupd & _ & Hbalance & _).
  destruct (Hbalance row Hrow) as (row' & Hrow' & Hb').
  exists d', row'. repeat split; try assumption.
  - rewrite Hb'. rewrite inject_Z_opp. lra.
  - unfold add_player. rewrite Hopen. simpl.
    rewrite bool_decide_eq_false_2 by (rewrite Hnew; intros [? ?]; discriminate).
    rewrite bool_decide_eq_false_2 by lia.
    rewrite Hupd. simpl. eexists. reflexivity.
Qed.

Lemma update_balance_overdraft_witness :
  ∃ d' row',
    update_balance poor_db 7 (inject_Z (- 100)) false = (true, d') ∧
    economy d' !! 7 = Some row' ∧
    balance row' = (balance (mkRow 10 0 0) + inject_Z (- 100))%Q ∧
    (balance row' < 0)%Q ∧
    ∃ fx, add_player (__init__ (1 # 2) 0) poor_db 7 100 false =
            (set_players (insert 7 (mkPlayer 100 7 None)) (__init__ (1 # 2) 0), d',
             Followup 7 (JoinedWithBet 100) :: fx).
Proof.
  apply (update_balance_overdraft (__init__ (1 # 2) 0) poor_db 7 100 (mkRow 10 0 0)).
  - vm_compute. reflexivity.
  - reflexivity.
  - lia.
  - reflexivity.
  - reflexivity.
  - reflexivity.
  - vm_compute. lia.
Defined.

(** The same run, evaluated: the debit of 100 on a balance of 10 reports
    success and leaves -90. *)
Lemma update_balance_overdraft_example :
  (update_balance poor_db 7 (inject_Z (- 100)) false).1 = true ∧
  (get_user_balance (update_balance poor_db 7 (inject_Z (- 100)) false).2 7 == - 90)%Q.
Proof. split; vm_compute; reflexivity. Qed.

End Overdraft.

(** ** The animation loop *)

Section Animation.
Import DatabaseManager CrashGameInstance Invariants.

Lemma square_nonneg (a : Q) : (0 <= a * a)%Q.
Proof. unfold Qle, Qmult. simpl. nia. Qed.







(** From the animation's duration on, the pass lands on the crash point,
    whatever the crash point is. *)
Lemma curve_at_end (c t : Q) : (5 <= t)%Q → (curve c t == c)%Q.
Proof.
  intros Ht. unfold curve, ease_in_cubic.
  assert (Hp : (py_min (t / 5) 1 == 1)%Q).
  { unfold py_min. destruct (Qlt_bool 1 (t / 5)) eqn:E; [reflexivity |].
    apply Qlt_bool_false_iff in E.
    assert (1 <= t / 5)%Q by (apply Qle_shift_div_l; lra). lra. }
  unfold py_min at 1.
  destruct (Qlt_bool c _) eqn:E; [reflexivity |].
  rewrite Hp. ring.
Qed.

Lemma run_game_iter_game (t : Q) (g : Game) :
  (run_game_iter t g).1 =
    set_graph_data (graph_data g ++ [curve (crashed_at g) t])
      (set_current_multiplier (curve (crashed_at g) t) g).
Proof.
  unfold run_game_iter. fold (curve (crashed_at g) t).
  match goal with |- context [if ?b then _ else _] => destruct b end; reflexivity.
Qed.

Lemma run_game_finish_game (g : Game) :
  (run_game_finish g).1 = set_is_running false g.
Proof. reflexivity. Qed.

(** What the loop keeps and what it ends on. *)
Lemma run_game_loop_frame (clock : list Q) :
  ∀ g out g' fx,
    run_game_loop clock g out = Some (g', fx) →
    players g' = players g ∧ crashed_at g' = crashed_at g ∧
    message g' = message g ∧ is_betting_open g' = is_betting_open g ∧
    is_running g' = false ∧
    (crashed_at g' <= current_multiplier g')%Q.
Proof.
  induction clock as [| t clock IH]; intros g out g' fx; simpl.
  - destruct (Qlt_bool (current_multiplier g) (crashed_at g)) eqn:E; [discriminate |].
    intros [= <- <-]. simpl. apply Qlt_bool_false_iff in E. auto 10.
  - destruct (Qlt_bool (current_multiplier g) (crashed_at g)) eqn:E.
    + destruct (run_game_iter t g) as [g1 fx1] eqn:Hit.
      intros H. apply IH in H.
      pose proof (run_game_iter_game t g) as Hg. rewrite Hit in Hg. simpl in Hg. subst g1.
      simpl in H. exact H.
    + intros [= <- <-]. simpl. apply Qlt_bool_false_iff in E. auto 10.
Qed.








(** A round whose crash point lies below its multiplier: the loop of
    [run_game] is never entered. *)
Lemma run_game_skips (clock : list Q) (g : Game) :
  (crashed_at g <= current_multiplier g)%Q →
  run_game clock g =
    Some (set_is_running false (set_graph_data [1%Q] (set_is_running true g)),
          [EditGame false [1%Q] (current_multiplier g) (crashed_at g)
                    (_get_payout_info (set_is_running false g))]).
Proof.
  intros H. unfold run_game.
  assert (E : Qlt_bool (current_multiplier g) (crashed_at g) = false)
    by (apply Qlt_bool_false_iff; exact H).
  destruct clock; simpl; rewrite E; reflexivity.
Qed.

End Animation.

Section Overshoot.
Import DatabaseManager CrashGameInstance.

(** C3.  A round created off the instant crash (first draw [r >= 0.01], any
    second draw [0 <= p < 1]) starts with its multiplier, 1.0, above its
    crash point; [run_game] then never enters its loop and the round settles
    with the multiplier still at 1.0, which is not the crash point. *)
Theorem fresh_round_multiplier_above_crash_point (r p : Q) (clock : list Q) :
  (1 # 100 <= r)%Q → (0 <= p)%Q → (p < 1)%Q →
  current_multiplier (__init__ r p) = 1%Q ∧
  (crashed_at (__init__ r p) < current_multiplier (__init__ r p))%Q ∧
  ∃ g' fx, run_game clock (__init__ r p) = Some (g', fx) ∧
           is_running g' = false ∧
           current_multiplier g' = 1%Q ∧
           ¬ (current_multiplier g' == crashed_at g')%Q ∧
           ¬ (current_multiplier g' <= crashed_at g')%Q.
Proof.
  intros Hr Hp0 Hp1.
  pose proof (crash_point_off_instant r p Hr Hp0 Hp1) as Hle.
  assert (Hlt : (crashed_at (__init__ r p) < 1)%Q) by (simpl; lra).
  split; [reflexivity |]. split; [exact Hlt |].
  eexists _, _. split.
  - apply run_game_skips. simpl. lra.
  - simpl. repeat split; lra.
Qed.

Lemma fresh_round_multiplier_above_crash_point_witness :
  current_multiplier (__init__ (1 # 2) 0) = 1%Q ∧
  (crashed_at (__init__ (1 # 2) 0) < current_multiplier (__init__ (1 # 2) 0))%Q ∧
  ∃ g' fx, run_game [0%Q; 1%Q; 5%Q] (__init__ (1 # 2) 0) = Some (g', fx) ∧
           is_running g' = false ∧
           current_multiplier g' = 1%Q ∧
           ¬ (current_multiplier g' == crashed_at g')%Q ∧
           ¬ (current_multiplier g' <= crashed_at g')%Q.
Proof.
  apply (fresh_round_multiplier_above_crash_point (1 # 2) 0 [0%Q; 1%Q; 5%Q]); lra.
Defined.

End Overshoot.

(** ** Joining and cashing out *)

Section JoinCashout.
Import DatabaseManager CrashGameInstance Crash.

Lemma add_player_closed (g : Game) (d : DB) (uid b : Z) (err : bool) :
  is_betting_open g = false →
  add_player g d uid b err = (g, d, [Followup uid BettingPhaseOver]).
Proof. intros H. unfold add_player. rewrite H. reflexivity. Qed.

Lemma run_game_resume_frame (t : Q) (g : Game) :
  players (run_game_resume t g).1 = players g ∧
  crashed_at (run_game_resume t g).1 = crashed_at g ∧
  is_betting_open (run_game_resume t g).1 = is_betting_open g ∧
  message (run_game_resume t g).1 = message g.
Proof.
  unfold run_game_resume.
  destruct (Qlt_bool (current_multiplier g) (crashed_at g)).
  - rewrite run_game_iter_game. simpl. auto.
  - simpl. auto.
Qed.

Lemma lock_bets_begin_frame (t : Q) (g : Game) :
  players (lock_bets_begin t g).1 = players g ∧
  crashed_at (lock_bets_begin t g).1 = crashed_at g ∧
  is_betting_open (lock_bets_begin t g).1 = false.
Proof.
  unfold lock_bets_begin. simpl.
  destruct (bool_decide (players g = ∅)); [simpl; auto |].
  destruct (run_game_resume_frame t
              (set_graph_data [1%Q] (set_is_running true (set_is_betting_open false g))))
    as (H1 & H2 & H3 & _).
  rewrite H1, H2, H3. simpl. auto.
Qed.

(** The big-step [lock_bets] closes the betting as well. *)
Lemma lock_bets_closes (clock : list Q) (g g' : Game) (fx : list Effect) :
  lock_bets clock g = Some (g', fx) → is_betting_open g' = false.
Proof.
  unfold lock_bets. simpl.
  destruct (bool_decide (players g = ∅)).
  - intros [= <- <-]. reflexivity.
  - unfold run_game. intros H.
    apply run_game_loop_frame in H as (_ & _ & _ & H & _). exact H.
Qed.

(** Once closed, the betting stays closed, and the set of players and the
    ledger rows of those who are not in the round stay as they are. *)
Lemma game_step_closed (g : Game) (d : DB) (out : list Effect) (e : GameEvent) :
  is_betting_open g = false →
  is_betting_open (game_step (g, d, out) e).1.1 = false ∧
  dom (players (game_step (g, d, out) e).1.1) = dom (players g).
Proof.
  intros H. destruct e as [uid b err | uid err | t | t]; simpl.
  - rewrite add_player_closed by exact H. simpl. auto.
  - unfold cashout_player.
    destruct (negb (is_running g) || bool_decide (players g !! uid = None)) eqn:E;
      [simpl; auto |].
    destruct (players g !! uid) as [p |] eqn:Hp; [| simpl; auto].
    destruct (cashout_at p); simpl; [auto |]. split; [exact H |].
    rewrite dom_insert_L. apply elem_of_dom_2 in Hp.
    apply subseteq_union_1_L, singleton_subseteq_l. exact Hp.
  - rewrite H. simpl. auto.
  - destruct (is_running g); [| simpl; auto].
    destruct (run_game_resume_frame t g) as (H1 & _ & H3 & _).
    destruct (run_game_resume t g) as [g1 fx1]. simpl in *.
    rewrite H1, H3. auto.
Qed.

Lemma game_run_cons (s : Game * DB * list Effect) (e : GameEvent) (es : list GameEvent) :
  game_run s (e :: es) = game_run (game_step s e) es.
Proof. reflexivity. Qed.

Lemma game_run_closed (es : list GameEvent) :
  ∀ g d out, is_betting_open g = false →
    is_betting_open (game_run (g, d, out) es).1.1 = false ∧
    dom (players (game_run (g, d, out) es).1.1) = dom (players g).
Proof.
  induction es as [| e es IH]; intros g d out H.
  - simpl. auto.
  - rewrite game_run_cons.
    destruct (game_step_closed g d out e H) as [H1 H2].
    destruct (game_step (g, d, out) e) as [[g1 d1] out1]. simpl in H1, H2.
    destruct (IH g1 d1 out1 H1) as [H3 H4]. split; [exact H3 |]. congruence.
Qed.

(** A call of [add_player] that is entered once betting is closed: betting
    stays closed whatever handlers have run to their end in between, and the
    call is turned down by its first test, before any await, with "The betting
    phase is over.".  A call that was entered before the lock and is still
    waiting for the ledger is another matter: see [Suspended] and
    [join_in_flight_admitted_after_lock]. *)
Lemma join_entered_after_lock_rejected
  (g : Game) (d : DB) (out : list Effect) (es : list GameEvent)
  (uid b : Z) (err : bool) :
  phase g ≠ Betting →
  phase (game_run (g, d, out) es).1.1 ≠ Betting ∧
  dom (players (game_run (g, d, out) es).1.1) = dom (players g) ∧
  add_player (game_run (g, d, out) es).1.1 (game_run (g, d, out) es).1.2 uid b err =
    ((game_run (g, d, out) es).1.1, (game_run (g, d, out) es).1.2,
     [Followup uid BettingPhaseOver]).
Proof.
  intros Hphase.
  assert (Hclosed : is_betting_open g = false).
  { unfold phase in Hphase. destruct (is_betting_open g); [contradiction | reflexivity]. }
  destruct (game_run_closed es g d out Hclosed) as [H1 H2].
  split; [| split].
  - unfold phase. rewrite H1. destruct (is_running _); [discriminate |].
    destruct (bool_decide _); discriminate.
  - exact H2.
  - apply add_player_closed. exact H1.
Qed.


(** The three answers of [cashout_player], by cases on the round. *)
Lemma cashout_player_not_running (g : Game) (d : DB) (uid : Z) (err : bool) :
  is_running g = false →
  cashout_player g d uid err = (g, d, [Respond uid NotInActiveGame]).
Proof. intros H. unfold cashout_player. rewrite H. reflexivity. Qed.









End JoinCashout.

Section CashoutExample.
Import DatabaseManager CrashGameInstance Crash Samples.


End CashoutExample.

(** ** Locking the bets *)

Section LockBets.
Import DatabaseManager CrashGameInstance Crash Samples.

(** C6, as stated, fails.  On a round nobody joined, a second [lock_bets]
    edits the message to "Game Cancelled" a second time.  On a round with
    players, the second call runs [run_game] again: its loop is skipped, but
    the message is edited once more, now with the graph of the fresh
    [graph_data = [1.0]] in place of the curve that was shown (the fraction
    875/250 is the 3.5 the loop has computed). *)
Lemma lock_bets_twice_counterexample :
  (∃ g1 g2 fx1 fx2,
     lock_bets [] empty_round = Some (g1, fx1) ∧
     lock_bets [] g1 = Some (g2, fx2) ∧
     fx1 = [EditCancelled] ∧ fx2 = [EditCancelled] ∧
     fx1 ++ fx2 ≠ fx1) ∧
  (∃ g1 g2 fx1 fx2 status,
     lock_bets [5%Q] betting_round = Some (g1, fx1) ∧
     lock_bets [5%Q] g1 = Some (g2, fx2) ∧
     last fx1 = Some (EditGame false [1%Q; 875 # 250] (875 # 250) (7 # 2) status) ∧
     fx2 = [EditGame false [1%Q] (875 # 250) (7 # 2) status] ∧
     fx1 ++ fx2 ≠ fx1 ∧
     last (fx1 ++ fx2) ≠ last fx1).
Proof.
  split.
  - eexists _, _, _, _. split; [reflexivity |]. split; [reflexivity |].
    split; [reflexivity |]. split; [reflexivity |]. discriminate.
  - eexists _, _, _, _, _. split; [vm_compute; reflexivity |].
    split; [vm_compute; reflexivity |].
    split; [vm_compute; reflexivity |]. split; [vm_compute; reflexivity |].
    split; discriminate.
Qed.


Lemma phase_flags (g1 g2 : Game) :
  is_betting_open g2 = is_betting_open g1 → is_running g2 = is_running g1 →
  players g2 = players g1 → phase g2 = phase g1.
Proof. intros H1 H2 H3. unfold phase. rewrite H1, H2, H3. reflexivity. Qed.

(** C6, amended.  A second [lock_bets], called after the first has returned,
    leaves the players, the crash point, the multiplier, the message, both
    flags and so the phase as the first call left them (the ledger is out of
    reach of [lock_bets]).  What it does again is the outbound edit: the
    cancellation message when nobody joined, otherwise one final render of
    [run_game], drawn from the fresh [graph_data = [1.0]]. *)
Theorem lock_bets_twice (clock1 clock2 : list Q) (g g1 : Game) (fx1 : list Effect) :
  lock_bets clock1 g = Some (g1, fx1) →
  ∃ g2 fx2,
    lock_bets clock2 g1 = Some (g2, fx2) ∧
    players g2 = players g1 ∧ crashed_at g2 = crashed_at g1 ∧
    current_multiplier g2 = current_multiplier g1 ∧ message g2 = message g1 ∧
    is_betting_open g2 = is_betting_open g1 ∧ is_running g2 = is_running g1 ∧
    phase g2 = phase g1 ∧
    fx2 = (if bool_decide (players g1 = ∅) then [EditCancelled]
           else [EditGame false [1%Q] (current_multiplier g1) (crashed_at g1)
                          (_get_payout_info g1)]).
Proof.
  intros H1. pose proof (lock_bets_closes _ _ _ _ H1) as Hclosed.
  unfold lock_bets in H1. simpl in H1.
  destruct (bool_decide (players g = ∅)) eqn:Hemp.
  - injection H1 as <- <-. unfold lock_bets. simpl. rewrite Hemp.
    eexists _, _. split; [reflexivity |]. simpl. auto 10.
  - unfold run_game in H1.
    apply run_game_loop_frame in H1 as (Hp & _ & _ & _ & Hrun & Hge).
    simpl in Hp.
    assert (Hemp1 : bool_decide (players g1 = ∅) = false) by (rewrite Hp; exact Hemp).
    unfold lock_bets. simpl. rewrite Hemp1.
    rewrite run_game_skips by exact Hge.
    eexists _, _. split; [reflexivity |]. simpl.
    repeat split; try (symmetry; assumption).
    + apply phase_flags; simpl; auto.
    + unfold _get_payout_info. simpl. rewrite Hrun. reflexivity.
Qed.

Lemma lock_bets_twice_witness :
  ∃ g1 fx1 g2 fx2,
    lock_bets [5%Q] betting_round = Some (g1, fx1) ∧
    lock_bets [] g1 = Some (g2, fx2) ∧
    players g2 = players g1 ∧ crashed_at g2 = crashed_at g1 ∧
    current_multiplier g2 = current_multiplier g1 ∧ message g2 = message g1 ∧
    is_betting_open g2 = is_betting_open g1 ∧ is_running g2 = is_running g1 ∧
    phase g2 = phase g1 ∧
    fx2 = (if bool_decide (players g1 = ∅) then [EditCancelled]
           else [EditGame false [1%Q] (current_multiplier g1) (crashed_at g1)
                          (_get_payout_info g1)]).
Proof.
  destruct (lock_bets [5%Q] betting_round) as [[g1 fx1] |] eqn:H1;
    [| vm_compute in H1; discriminate].
  destruct (lock_bets_twice [5%Q] [] betting_round g1 fx1 H1) as (g2 & fx2 & H2).
  exists g1, fx1, g2, fx2. split; [reflexivity | exact H2].
Defined.

End LockBets.

(** ** One round per guild *)

Section Registry.
Import DatabaseManager CrashGameInstance Crash Samples.

(** C10.  [/crash] in a guild either finds the registered round with its
    betting open or running, and then answers "already in progress" and
    leaves the registry as it is; or it finds no round, or a round that is
    settled or cancelled, and only then registers a new round, in its
    betting phase, in place of the old one.  So a guild's round is replaced
    only when it is over. *)
Theorem crash_one_round_per_guild
  (ag : gmap Z Game) (gid uid : Z) (r p : Q) (mid : Z) :
  ((∃ g, ag !! gid = Some g ∧ (phase g = Betting ∨ phase g = Running)) ∧
   crash ag gid uid r p mid = (ag, [Respond uid AlreadyInProgress]))
  ∨
  ((ag !! gid = None ∨
    ∃ g, ag !! gid = Some g ∧ (phase g = Settled ∨ phase g = Cancelled)) ∧
   crash ag gid uid r p mid
     = (<[gid := set_message (Some mid) (__init__ r p)]> ag, [StartMessage]) ∧
   phase (set_message (Some mid) (__init__ r p)) = Betting).
Proof.
  unfold crash. destruct (ag !! gid) as [g |] eqn:Hg.
  - unfold phase. destruct (is_betting_open g) eqn:Hb.
    + left. rewrite orb_true_r. split; [| reflexivity].
      exists g. split; [reflexivity |]. left. rewrite Hb. reflexivity.
    + destruct (is_running g) eqn:Hr.
      * left. split; [| reflexivity].
        exists g. split; [reflexivity |]. right. rewrite Hb, Hr. reflexivity.
      * right. simpl. split; [| split; reflexivity]. right.
        exists g. split; [reflexivity |]. rewrite Hb, Hr.
        destruct (bool_decide (players g = ∅)); [right | left]; reflexivity.
  - right. simpl. split; [| split; reflexivity]. left. reflexivity.
Qed.

End Registry.

(** ** What the generated crash points do to the game *)

Section NeverRunning.
Import DatabaseManager CrashGameInstance Crash Invariants Samples.

Lemma crash_point_at_most_one (r p : Q) :
  (0 <= p)%Q → (p < 1)%Q → (_get_crash_point r p <= 1)%Q.
Proof.
  intros Hp0 Hp1. destruct (Qlt_le_dec r (1 # 100)) as [Hr | Hr].
  - rewrite crash_point_instant by exact Hr. lra.
  - pose proof (crash_point_off_instant r p Hr Hp0 Hp1). lra.
Qed.

Lemma idle_init (r p : Q) (mid : Z) :
  (0 <= p)%Q → (p < 1)%Q → idle (set_message (Some mid) (__init__ r p)).
Proof.
  intros Hp0 Hp1. unfold idle. simpl. repeat split.
  apply crash_point_at_most_one; assumption.
Qed.

Lemma game_step_idle (g : Game) (d : DB) (out : list Effect) (e : GameEvent) :
  idle g → Forall not_cashed_out out →
  idle (game_step (g, d, out) e).1.1 ∧ Forall not_cashed_out (game_step (g, d, out) e).2.
Proof.
  intros (Hrun & Hcur & Hcrash) Hout.
  destruct e as [uid b err | uid err | t | t]; simpl.
  - unfold add_player. destruct (negb (is_betting_open g)).
    { simpl. split; [unfold idle; auto |]. apply Forall_app. split; [exact Hout |].
      repeat constructor. }
    destruct (bool_decide (is_Some (players g !! uid))).
    { simpl. split; [unfold idle; auto |]. apply Forall_app. split; [exact Hout |].
      repeat constructor. }
    destruct (bool_decide (MAX_PLAYERS ≤ size (players g))%nat).
    { simpl. split; [unfold idle; auto |]. apply Forall_app. split; [exact Hout |].
      repeat constructor. }
    destruct (update_balance d uid (inject_Z (- b)) err) as [[|] d']; simpl.
    + split; [unfold idle; auto |]. apply Forall_app. split; [exact Hout |].
      constructor; [exact I |]. unfold _update_player_list_embed. simpl.
      destruct (message g); repeat constructor.
    + split; [unfold idle; auto |]. apply Forall_app. split; [exact Hout |].
      repeat constructor.
  - rewrite cashout_player_not_running by exact Hrun. simpl.
    split; [unfold idle; auto |]. apply Forall_app. split; [exact Hout |].
    repeat constructor.
  - destruct (is_betting_open g); [| simpl; split; [unfold idle; auto | exact Hout]].
    unfold lock_bets_begin. simpl.
    destruct (bool_decide (players g = ∅)).
    { simpl. split; [unfold idle; auto |]. apply Forall_app. split; [exact Hout |].
      repeat constructor. }
    unfold run_game_resume. simpl.
    rewrite (proj2 (Qlt_bool_false_iff _ _)) by (rewrite Hcur; exact Hcrash).
    simpl. split; [unfold idle; auto |]. apply Forall_app. split; [exact Hout |].
    repeat constructor.
  - rewrite Hrun. simpl. split; [unfold idle; auto | exact Hout].
Qed.

Lemma step_idle (w : World) (e : Event) :
  (∀ gid g, active_games w !! gid = Some g → idle g) →
  Forall not_cashed_out (outbox w) →
  valid_event e →
  (∀ gid g, active_games (step w e) !! gid = Some g → idle g) ∧
  Forall not_cashed_out (outbox (step w e)).
Proof.
  intros Hgames Hout Hvalid. destruct e as [gid uid r p mid | gid e].
  - destruct Hvalid as [Hp0 Hp1]. unfold step, crash.
    destruct (match active_games w !! gid with
              | Some g => is_running g || is_betting_open g
              | None => false
              end); simpl.
    + split; [exact Hgames |]. apply Forall_app. split; [exact Hout |]. repeat constructor.
    + split.
      * intros gid' g' Hg'. destruct (decide (gid = gid')) as [<- | Hne].
        -- rewrite lookup_insert_eq in Hg'. injection Hg' as <-.
           apply idle_init; assumption.
        -- rewrite lookup_insert_ne in Hg' by exact Hne. eapply Hgames; exact Hg'.
      * apply Forall_app. split; [exact Hout |]. repeat constructor.
  - unfold step. destruct (active_games w !! gid) as [g |] eqn:Hg; [| auto].
    destruct (game_step_idle g (db w) (outbox w) e (Hgames gid g Hg) Hout) as [Hidle Hfx].
    destruct (game_step (g, db w, outbox w) e) as [[g1 d1] out1]. simpl in *.
    split; [| exact Hfx].
    intros gid' g' Hg'. destruct (decide (gid = gid')) as [<- | Hne].
    + rewrite lookup_insert_eq in Hg'. injection Hg' as <-. exact Hidle.
    + rewrite lookup_insert_ne in Hg' by exact Hne. eapply Hgames; exact Hg'.
Qed.

Lemma run_idle (es : list Event) :
  ∀ w,
    (∀ gid g, active_games w !! gid = Some g → idle g) →
    Forall not_cashed_out (outbox w) →
    Forall valid_event es →
    (∀ gid g, active_games (run w es) !! gid = Some g → idle g) ∧
    Forall not_cashed_out (outbox (run w es)).
Proof.
  induction es as [| e es IH]; intros w Hgames Hout Hvalid.
  - simpl. auto.
  - apply Forall_cons in Hvalid as [He Hes].
    destruct (step_idle w e Hgames Hout He) as [Hgames' Hout'].
    change (run w (e :: es)) with (run (step w e) es).
    apply IH; assumption.
Qed.

(** With the crash points [_get_crash_point] produces, no round of the bot
    is ever seen running: after any sequence of commands, joins, cashout
    clicks, timeouts and wake-ups, every registered round has
    [is_running = False] and its multiplier at 1.0, every cashout is turned
    down, and no cashout was ever accepted. *)
Theorem no_round_ever_runs (d : DB) (es : list Event) :
  Forall valid_event es →
  (∀ gid g, active_games (run (initial d) es) !! gid = Some g →
            idle g ∧
            ∀ uid err, cashout_player g (db (run (initial d) es)) uid err
                       = (g, db (run (initial d) es), [Respond uid NotInActiveGame])) ∧
  Forall not_cashed_out (outbox (run (initial d) es)).
Proof.
  intros Hvalid.
  destruct (run_idle es (initial d)) as [Hgames Hout].
  - intros gid g Hg. simpl in Hg. rewrite lookup_empty in Hg. discriminate.
  - constructor.
  - exact Hvalid.
  - split; [| exact Hout]. intros gid g Hg. pose proof (Hgames gid g Hg) as Hidle.
    split; [exact Hidle |]. intros uid err.
    apply cashout_player_not_running. apply Hidle.
Qed.

End NeverRunning.

Section CrashWitnesses.
Import DatabaseManager CrashGameInstance Crash Invariants Samples.



Lemma no_round_ever_runs_witness :
  (∀ gid g, active_games (run (initial bank) session) !! gid = Some g →
            idle g ∧
            ∀ uid err, cashout_player g (db (run (initial bank) session)) uid err
                       = (g, db (run (initial bank) session),
                          [Respond uid NotInActiveGame])) ∧
  Forall not_cashed_out (outbox (run (initial bank) session)).
Proof.
  apply (no_round_ever_runs bank session).
  repeat constructor; simpl; lra.
Defined.

(** The session, evaluated: the round settles at once at 1.0 while its
    crash point is 0.99, and the click on "Cash Out!" is answered with "You
    are not in an active game."; the bet of 100 is lost. *)
Lemma session_example :
  (∃ g, active_games (run (initial bank) session) !! 1 = Some g ∧
        phase g = Settled ∧ current_multiplier g = 1%Q ∧
        (crashed_at g == 99 # 100)%Q) ∧
  last (outbox (run (initial bank) session)) = Some (Respond 7 NotInActiveGame) ∧
  (get_user_balance (db (run (initial bank) session)) 7 == 800)%Q.
Proof.
  split; [| split].
  - eexists. split; [vm_compute; reflexivity |].
    split; [vm_compute; reflexivity |]. split; vm_compute; reflexivity.
  - vm_compute. reflexivity.
  - vm_compute. reflexivity.
Qed.

End CrashWitnesses.


(** ** Sorting strings *)

Section StringOrder.
Import PyStr.

Lemma ascii_compare_refl (a : ascii) : Ascii.compare a a = Eq.
Proof. unfold Ascii.compare. apply N.compare_refl. Qed.

Lemma string_compare_refl (s : string) : String.compare s s = Eq.
Proof. induction s as [| a s IH]; simpl; [reflexivity |]. rewrite ascii_compare_refl. exact IH. Qed.

Lemma string_leb_refl (s : string) : String.leb s s = true.
Proof. unfold String.leb. rewrite string_compare_refl. reflexivity. Qed.

Lemma string_leb_trans (a : string) :
  ∀ b c, String.leb a b = true → String.leb b c = true → String.leb a c = true.
Proof.
  unfold String.leb.
  induction a as [| x a IH]; intros [| y b] [| z c]; simpl; try congruence.
  unfold Ascii.compare.
  destruct (N.compare_spec (N_of_ascii x) (N_of_ascii y)) as [Hxy | Hxy | Hxy];
    destruct (N.compare_spec (N_of_ascii y) (N_of_ascii z)) as [Hyz | Hyz | Hyz];
    try congruence; intros H1 H2.
  - rewrite Hxy, Hyz, N.compare_refl. exact (IH b c H1 H2).
  - rewrite Hxy. rewrite (proj2 (N.compare_lt_iff _ _) Hyz). reflexivity.
  - rewrite <- Hyz. rewrite (proj2 (N.compare_lt_iff _ _) Hxy). reflexivity.
  - rewrite (proj2 (N.compare_lt_iff _ _) (N.lt_trans _ _ _ Hxy Hyz)). reflexivity.
Qed.

#[local] Instance str_le_refl : Reflexive str_le.
Proof. intros s. apply string_leb_refl. Qed.

#[local] Instance str_le_trans : Transitive str_le.
Proof. intros a b c. apply string_leb_trans. Qed.

#[local] Instance str_le_total : Total str_le.
Proof. intros a b. apply String.leb_total. Qed.

#[local] Instance str_le_antisym : AntiSymm (=) str_le.
Proof. intros a b. apply String.leb_antisym. Qed.

Lemma sorted_Permutation (l : list string) : sorted l ≡ₚ l.
Proof. apply merge_sort_Permutation. Qed.

Lemma sorted_StronglySorted (l : list string) : StronglySorted str_le (sorted l).
Proof. apply StronglySorted_merge_sort; apply _. Qed.

(** [sorted] forgets the order of its argument. *)
Lemma sorted_perm (l1 l2 : list string) : l1 ≡ₚ l2 → sorted l1 = sorted l2.
Proof.
  intros H. apply (StronglySorted_unique str_le).
  - apply sorted_StronglySorted.
  - apply sorted_StronglySorted.
  - rewrite !sorted_Permutation. exact H.
Qed.

Lemma elem_of_sorted (x : string) (l : list string) : x ∈ sorted l ↔ x ∈ l.
Proof. rewrite sorted_Permutation. reflexivity. Qed.

End StringOrder.

(** ** The fingerprint *)

Section Fingerprint.
Import RobloxTracker FeedSamples.

Lemma omap_ext_in {A B} (f g : A → option B) (l : list A) :
  (∀ x, x ∈ l → f x = g x) → omap f l = omap g l.
Proof.
  induction l as [| x l IH]; intros H; simpl; [reflexivity |].
  rewrite (H x) by left.
  assert (IH' : omap f l = omap g l).
  { apply IH. intros y Hy. apply H. right. exact Hy. }
  destruct (g x); [f_equal |]; exact IH'.
Qed.

(** The fingerprint reads a payload through its weather label and, for each
    category key, through the sorted lowered names and the emptiness of the
    list. *)
Lemma relevant_items_ext (d1 d2 : StockData) :
  (∀ c, c ∈ sorted_categories →
        lowered_names (get_items d1 c) ≡ₚ lowered_names (get_items d2 c) ∧
        (get_items d1 c = [] ↔ get_items d2 c = [])) →
  relevant_items d1 = relevant_items d2.
Proof.
  intros H. unfold relevant_items. apply omap_ext_in. intros c Hc.
  destruct (H c Hc) as [Hperm Hempty].
  destruct (get_items d1 c) as [| i1 l1] eqn:E1; destruct (get_items d2 c) as [| i2 l2] eqn:E2.
  - reflexivity.
  - destruct Hempty as [Hempty _]. specialize (Hempty eq_refl). discriminate.
  - destruct Hempty as [_ Hempty]. specialize (Hempty eq_refl). discriminate.
  - rewrite (sorted_perm _ _ Hperm). reflexivity.
Qed.

(** C8, amended.  Two payloads with the same weather label produce the same
    fingerprint when, in each category, they list the same names with the
    same multiplicities, letter case aside, and the category is empty in
    both or in neither; the order of the entries, the case of the names and
    the quantities play no part. *)
Theorem fingerprint_same_names (d1 d2 : StockData) :
  _get_weather_type (Some d1) = _get_weather_type (Some d2) →
  (∀ c, c ∈ sorted_categories →
        lowered_names (get_items d1 c) ≡ₚ lowered_names (get_items d2 c) ∧
        (get_items d1 c = [] ↔ get_items d2 c = [])) →
  _calculate_data_hash (Some d1) = _calculate_data_hash (Some d2).
Proof.
  intros Hw Hitems. unfold _calculate_data_hash, canonical_string.
  rewrite (relevant_items_ext d1 d2 Hitems), Hw. reflexivity.
Qed.

Lemma sorted_categories_eq : sorted_categories = ["eggs"; "gear"; "seeds"]%string.
Proof. vm_compute. reflexivity. Qed.

Lemma fingerprint_same_names_witness :
  _calculate_data_hash (Some snapshot3) = _calculate_data_hash (Some snapshot3_shuffled).
Proof.
  apply (fingerprint_same_names snapshot3 snapshot3_shuffled).
  - reflexivity.
  - intros c Hc. rewrite sorted_categories_eq in Hc.
    repeat (apply elem_of_cons in Hc as [-> | Hc]); [| | | inversion Hc].
    + vm_compute. split; [constructor | tauto].
    + vm_compute. split; [constructor | tauto].
    + split.
      * vm_compute. apply perm_swap.
      * vm_compute. split; discriminate.
Defined.

(** The fingerprints of the sample snapshots, as CPython computes them. *)
Lemma fingerprint_examples :
  _calculate_data_hash (Some snapshot1) = "ce48a3ecd383b512c8f47ca065407851"%string ∧
  _calculate_data_hash (Some snapshot3) = "9a247dc30c8a5cc1e2604651e01fbea3"%string ∧
  _calculate_data_hash (Some snapshot3_shuffled) = "9a247dc30c8a5cc1e2604651e01fbea3"%string.
Proof. repeat split; vm_compute; reflexivity. Qed.

End Fingerprint.

Section FingerprintSets.
Import RobloxTracker FeedSamples.

Lemma name_set_other (w : option string) (items : list Item) (c : string) :
  c ≠ "seeds"%string → name_set (mkData w {[ "seeds"%string := items ]}) c = ∅.
Proof.
  intros Hc. unfold name_set, get_items. simpl.
  rewrite lookup_singleton_ne by congruence. reflexivity.
Qed.

(** C8, as stated, fails.  A payload that lists "Cacao" twice has the same
    set of names per category as one that lists it once, and the same
    weather, yet another fingerprint: the sorted list of names that is
    hashed keeps repetitions.  Likewise a category whose only entry has no
    name is hashed as an empty list, an empty category not at all. *)
Lemma fingerprint_set_counterexample :
  (_get_weather_type (Some snapshot1) = _get_weather_type (Some snapshot_twice) ∧
   (∀ c, name_set snapshot1 c = name_set snapshot_twice c) ∧
   _calculate_data_hash (Some snapshot1) = "ce48a3ecd383b512c8f47ca065407851"%string ∧
   _calculate_data_hash (Some snapshot_twice) = "db0ab2117fb85987e44506c1a3c69bf3"%string ∧
   _calculate_data_hash (Some snapshot1) ≠ _calculate_data_hash (Some snapshot_twice))
  ∧
  (_get_weather_type (Some snapshot_nameless) = _get_weather_type (Some snapshot_empty) ∧
   (∀ c, name_set snapshot_nameless c = name_set snapshot_empty c) ∧
   _calculate_data_hash (Some snapshot_nameless) ≠ _calculate_data_hash (Some snapshot_empty)).
Proof.
  split; (split; [reflexivity |]).
  - split.
    + intros c. destruct (decide (c = "seeds"%string)) as [-> | Hc].
      * vm_compute. reflexivity.
      * unfold snapshot1, snapshot_twice. rewrite !name_set_other by exact Hc. reflexivity.
    + split; [vm_compute; reflexivity |]. split; [vm_compute; reflexivity |].
      vm_compute. discriminate.
  - split.
    + intros c. destruct (decide (c = "seeds"%string)) as [-> | Hc].
      * vm_compute. reflexivity.
      * unfold snapshot_nameless, snapshot_empty. rewrite !name_set_other by exact Hc.
        reflexivity.
    + vm_compute. discriminate.
Qed.

End FingerprintSets.

(** ** Notable items *)

Section Notable.
Import RobloxTracker FeedSamples.

Lemma casing_fold_None (items : list Item) : fold_left casing_step items None = None.
Proof. induction items as [| i items IH]; simpl; [reflexivity | exact IH]. Qed.

(** The casing map holds, under each key, a name of the list whose lowered
    form is the key, and it has a key for every name of the list. *)
Lemma casing_fold_spec (items : list Item) :
  ∀ m0 m,
    fold_left casing_step items (Some m0) = Some m →
    (∀ k n, m !! k = Some n →
            m0 !! k = Some n ∨
            ∃ item, item ∈ items ∧ name item = Some n ∧ PyStr.lower n = k) ∧
    (∀ k, is_Some (m0 !! k) → is_Some (m !! k)) ∧
    (∀ item n, item ∈ items → name item = Some n → is_Some (m !! PyStr.lower n)).
Proof.
  induction items as [| i items IH]; intros m0 m; simpl.
  - intros [= <-]. split; [auto |]. split; [auto |]. intros item n Hin. inversion Hin.
  - destruct (name i) as [n0 |] eqn:Hn0; [| rewrite casing_fold_None; discriminate].
    intros H. destruct (IH _ _ H) as (H1 & H2 & H3). split; [| split].
    + intros k n Hk. destruct (H1 k n Hk) as [Hm0 | (item & Hin & Hname & Hlow)].
      * destruct (decide (PyStr.lower n0 = k)) as [<- | Hne].
        -- rewrite lookup_insert_eq in Hm0. injection Hm0 as <-.
           right. exists i. split; [left | auto].
        -- rewrite lookup_insert_ne in Hm0 by exact Hne. left. exact Hm0.
      * right. exists item. split; [right; exact Hin | auto].
    + intros k Hk. apply H2.
      destruct (decide (PyStr.lower n0 = k)) as [<- | Hne].
      * rewrite lookup_insert_eq. eauto.
      * rewrite lookup_insert_ne by exact Hne. exact Hk.
    + intros item n Hin Hname. apply elem_of_cons in Hin as [-> | Hin].
      * apply H2. rewrite Hn0 in Hname. injection Hname as <-.
        rewrite lookup_insert_eq. eauto.
      * eapply H3; eassumption.
Qed.

Lemma original_casing_map_spec (items : list Item) (m : gmap string string) :
  original_casing_map items = Some m →
  (∀ k n, m !! k = Some n → ∃ item, item ∈ items ∧ name item = Some n ∧ PyStr.lower n = k) ∧
  (∀ item n, item ∈ items → name item = Some n → is_Some (m !! PyStr.lower n)).
Proof.
  intros H. destruct (casing_fold_spec items ∅ m H) as (H1 & _ & H3). split.
  - intros k n Hk. destruct (H1 k n Hk) as [Hempty | Hitem]; [| exact Hitem].
    rewrite lookup_empty in Hempty. discriminate.
  - exact H3.
Qed.

Lemma elem_of_lowered_names (k : string) (items : list Item) :
  k ∈ lowered_names items ↔
  ∃ item n, item ∈ items ∧ name item = Some n ∧ PyStr.truthy n = true ∧ PyStr.lower n = k.
Proof.
  unfold lowered_names. rewrite list_elem_of_omap. split.
  - intros (item & Hin & Hk). unfold has_name in Hk.
    destruct (name item) as [n |] eqn:Hn; [| discriminate].
    destruct (PyStr.truthy n) eqn:Ht; [| discriminate].
    injection Hk as <-. eauto 10.
  - intros (item & n & Hin & Hn & Ht & <-). exists item. split; [exact Hin |].
    unfold has_name. rewrite Hn, Ht. reflexivity.
Qed.


(** What one pass of the loop of [_get_notable_items] lists for a category:
    names of entries of the snapshot that are on the allow-list, and one
    name for each such entry. *)
Lemma notable_in_category_spec (d : StockData) (cat : string) (allow : list string)
      (r : option (list string)) :
  notable_in_category d cat allow = Some r →
  (∀ n, n ∈ default [] r →
        ∃ item, item ∈ get_items d cat ∧ name item = Some n ∧
                PyStr.lower n ∈ PyStr.lower <$> allow) ∧
  (∀ item n, item ∈ get_items d cat → name item = Some n → PyStr.truthy n = true →
             PyStr.lower n ∈ PyStr.lower <$> allow →
             ∃ n', n' ∈ default [] r ∧ PyStr.lower n' = PyStr.lower n).
Proof.
  unfold notable_in_category.
  set (new_set := list_to_set (lowered_names (get_items d cat)) : gset string).
  set (allow_lower := list_to_set (PyStr.lower <$> allow) : gset string).
  assert (Hnew : ∀ k, k ∈ new_set ∩ allow_lower ↔
                      k ∈ lowered_names (get_items d cat) ∧ k ∈ PyStr.lower <$> allow).
  { intros k. unfold new_set, allow_lower.
    rewrite elem_of_intersection, !elem_of_list_to_set. reflexivity. }
  destruct (bool_decide (new_set ∩ allow_lower = ∅)) eqn:Hempty.
  - apply bool_decide_eq_true in Hempty. intros [= <-]. simpl. split.
    + intros n Hn. inversion Hn.
    + intros item n Hin Hname Ht Hallow. exfalso.
      assert (Hk : PyStr.lower n ∈ new_set ∩ allow_lower).
      { apply Hnew. split; [| exact Hallow]. apply elem_of_lowered_names. eauto 10. }
      rewrite Hempty in Hk. apply not_elem_of_empty in Hk. exact Hk.
  - destruct (original_casing_map (get_items d cat)) as [casing |] eqn:Hcasing;
      [| discriminate].
    destruct (original_casing_map_spec _ _ Hcasing) as [Hsound Hcomplete].
    set (shown := λ k, default (PyStr.title k) (casing !! k)).
    set (names := PyStr.sorted (shown <$> elements (new_set ∩ allow_lower))).
    assert (Hnames : ∀ n, n ∈ names ↔ ∃ k, k ∈ new_set ∩ allow_lower ∧ n = shown k).
    { intros n. unfold names. rewrite elem_of_sorted, list_elem_of_fmap.
      split; intros (k & H1 & H2); exists k.
      - apply elem_of_elements in H2. auto.
      - split; [exact H2 | apply elem_of_elements; exact H1]. }
    assert (Hshown : ∀ k, k ∈ new_set ∩ allow_lower →
                          ∃ item, item ∈ get_items d cat ∧ name item = Some (shown k) ∧
                                  PyStr.lower (shown k) = k).
    { intros k Hk. apply Hnew in Hk as [Hk _].
      apply elem_of_lowered_names in Hk as (item & n & Hin & Hname & _ & Hlow).
      destruct (Hcomplete item n Hin Hname) as [n' Hn']. rewrite Hlow in Hn'.
      unfold shown. rewrite Hn'. simpl. apply Hsound. exact Hn'. }
    assert (Hgoal :
      (∀ n, n ∈ names →
            ∃ item, item ∈ get_items d cat ∧ name item = Some n ∧
                    PyStr.lower n ∈ PyStr.lower <$> allow) ∧
      (∀ item n, item ∈ get_items d cat → name item = Some n → PyStr.truthy n = true →
                 PyStr.lower n ∈ PyStr.lower <$> allow →
                 ∃ n', n' ∈ names ∧ PyStr.lower n' = PyStr.lower n)).
    { split.
      - intros n Hn. apply Hnames in Hn as (k & Hk & ->).
        destruct (Hshown k Hk) as (item & Hin & Hname & Hlow).
        exists item. split; [exact Hin |]. split; [exact Hname |].
        rewrite Hlow. apply Hnew in Hk as [_ Hk]. exact Hk.
      - intros item n Hin Hname Ht Hallow.
        assert (Hk : PyStr.lower n ∈ new_set ∩ allow_lower).
        { apply Hnew. split; [| exact Hallow]. apply elem_of_lowered_names. eauto 10. }
        exists (shown (PyStr.lower n)). split.
        + apply Hnames. eauto.
        + destruct (Hshown _ Hk) as (_ & _ & _ & Hlow). exact Hlow. }
    fold shown. fold names. destruct names as [| n0 names'] eqn:Hnames_eq.
    + intros [= <-]. simpl. exact Hgoal.
    + intros [= <-]. simpl. exact Hgoal.
Qed.


Lemma notable_fold_None (d : StockData) (l : list (string * (list string * string))) :
  fold_left (notable_step d) l None = None.
Proof. induction l as [| e l IH]; simpl; [reflexivity | exact IH]. Qed.

(** The dictionary built by the loop over entries with distinct keys: each
    key holds what its own pass has listed. *)
Lemma notable_fold_spec (d : StockData) (l : list (string * (list string * string))) :
  ∀ acc m,
    NoDup (fst <$> l) →
    (∀ e, e ∈ l → acc !! e.1 = None) →
    fold_left (notable_step d) l (Some acc) = Some m →
    (∀ e, e ∈ l → ∃ r, notable_in_category d e.1 e.2.1 = Some r ∧ m !! e.1 = r) ∧
    (∀ c, c ∉ fst <$> l → m !! c = acc !! c).
Proof.
  induction l as [| e l IH]; intros acc m Hnodup Hfresh; simpl.
  - intros [= <-]. split; [intros e He; inversion He | auto].
  - apply NoDup_cons in Hnodup as [Hnotin Hnodup].
    destruct (notable_in_category d e.1 e.2.1) as [r |] eqn:Hr;
      [| rewrite notable_fold_None; discriminate].
    set (acc' := match r with Some names => <[e.1 := names]> acc | None => acc end).
    assert (Hstep : (match r with
                     | Some names => Some (<[e.1 := names]> acc)
                     | None => Some acc
                     end) = Some acc') by (destruct r; reflexivity).
    rewrite Hstep. intros Hfold.
    assert (Hfresh' : ∀ e', e' ∈ l → acc' !! e'.1 = None).
    { intros e' He'. unfold acc'. destruct r as [names |].
      - rewrite lookup_insert_ne.
        + apply Hfresh. right. exact He'.
        + intros Heq. apply Hnotin. rewrite Heq. apply list_elem_of_fmap. eauto.
      - apply Hfresh. right. exact He'. }
    destruct (IH acc' m Hnodup Hfresh' Hfold) as [Hin Hout]. split.
    + intros e' He'. apply elem_of_cons in He' as [-> | He']; [| apply Hin; exact He'].
      exists r. split; [exact Hr |]. rewrite (Hout e.1 Hnotin). unfold acc'.
      destruct r as [names |]; [apply lookup_insert_eq | apply Hfresh; left].
    + intros c Hc. apply not_elem_of_cons in Hc as [Hne Hc]. rewrite (Hout c Hc).
      unfold acc'. destruct r as [names |]; [| reflexivity].
      apply lookup_insert_ne. congruence.
Qed.

Lemma NOTABLE_MAP_keys : NoDup (fst <$> NOTABLE_MAP).
Proof. apply (bool_decide_unpack _). vm_compute. exact I. Qed.

(** C7.  What the alert lists, against the docstring of
    [_generate_change_summary] ("all new, notable items that have appeared in
    the shop"): the notable items of an update are read off the new snapshot
    alone, no previous snapshot being looked at.  For each category of the
    allow-list table, a listed name is the name of an entry of the snapshot
    that is on the category's allow-list, letter case aside; and every named
    entry of the snapshot that is on the allow-list has its name listed, in
    the casing of one of the entries, whether or not the previous snapshot had
    it.  No other category is listed. *)
Theorem notable_items_of_snapshot (d : StockData) (m : gmap string (list string)) :
  _get_notable_items d = Some m →
  (∀ category allow display,
     (category, (allow, display)) ∈ NOTABLE_MAP →
     (∀ n, n ∈ default [] (m !! category) →
           ∃ item, item ∈ get_items d category ∧ name item = Some n ∧
                   PyStr.lower n ∈ PyStr.lower <$> allow) ∧
     (∀ item n, item ∈ get_items d category → name item = Some n →
                PyStr.truthy n = true → PyStr.lower n ∈ PyStr.lower <$> allow →
                ∃ n', n' ∈ default [] (m !! category) ∧ PyStr.lower n' = PyStr.lower n)) ∧
  (∀ category, category ∉ fst <$> NOTABLE_MAP → m !! category = None).
Proof.
  intros H. unfold _get_notable_items in H.
  destruct (notable_fold_spec d NOTABLE_MAP ∅ m NOTABLE_MAP_keys
              (λ e _, lookup_empty _) H) as [Hin Hout].
  split.
  - intros category allow display He.
    destruct (Hin _ He) as (r & Hr & Hm). simpl in Hr, Hm.
    rewrite Hm. apply notable_in_category_spec. exact Hr.
  - intros category Hc. rewrite (Hout category Hc). apply lookup_empty.
Qed.


Lemma notable_items_of_snapshot_witness :
  _get_notable_items snapshot3 = Some {[ "seeds"%string := ["Beanstalk"; "Cacao"]%string ]} ∧
  (∀ category allow display,
     (category, (allow, display)) ∈ NOTABLE_MAP →
     (∀ n, n ∈ default [] (({[ "seeds"%string := ["Beanstalk"; "Cacao"]%string ]}
                              : gmap string (list string)) !! category) →
           ∃ item, item ∈ get_items snapshot3 category ∧ name item = Some n ∧
                   PyStr.lower n ∈ PyStr.lower <$> allow) ∧
     (∀ item n, item ∈ get_items snapshot3 category → name item = Some n →
                PyStr.truthy n = true → PyStr.lower n ∈ PyStr.lower <$> allow →
                ∃ n', n' ∈ default [] (({[ "seeds"%string := ["Beanstalk"; "Cacao"]%string ]}
                                          : gmap string (list string)) !! category) ∧
                      PyStr.lower n' = PyStr.lower n)) ∧
  (∀ category, category ∉ fst <$> NOTABLE_MAP →
               ({[ "seeds"%string := ["Beanstalk"; "Cacao"]%string ]}
                  : gmap string (list string)) !! category = None).
Proof.
  split; [vm_compute; reflexivity |].
  apply (notable_items_of_snapshot snapshot3). vm_compute. reflexivity.
Defined.

(** C7 fails on the scenario of the specification itself.  The
    first snapshot (Rain, Cacao) sets the baseline, the second is the same
    and sends nothing, the third adds Beanstalk and is dispatched.  The
    alert then lists Cacao next to Beanstalk, although Cacao was in stock in
    the previous snapshot. *)
Lemma notable_diff_counterexample :
  let dc := one_destination in
  let '(t1, s1, _) := _process_websocket_message dc (mkTracker None None) store0
                        (Payload (Some snapshot1)) in
  let '(t2, s2, _) := _process_websocket_message dc t1 s1 (Payload (Some snapshot2)) in
  let '(t3, s3, _) := _process_websocket_message dc t2 s2 (Payload (Some snapshot3)) in
  actions s1 = [] ∧ actions s2 = [] ∧
  actions s3 = [SendContent 100 NoPing alert3 501;
                SendEmbed 100 (_build_stock_embed snapshot3) 502] ∧
  _get_notable_items snapshot3
    = Some {[ "seeds"%string := ["Beanstalk"; "Cacao"]%string ]} ∧
  item "Cacao" 2 ∈ get_items snapshot1 "seeds" ∧
  item "Cacao" 2 ∈ get_items snapshot2 "seeds".
Proof.
  vm_compute. repeat split; try reflexivity; left.
Qed.

End Notable.

(** ** Dispatch to the destinations *)

Section Dispatch.
Import RobloxTracker DispatchRelations.

Lemma sim_refl (c : Z) (s : Store) : sim c s s.
Proof. unfold sim. auto. Qed.

Lemma frame_refl (c : Z) (s : Store) : frame c s s [].
Proof.
  unfold frame. rewrite app_nil_r. repeat split; auto.
  exists []. rewrite app_nil_r. reflexivity.
Qed.

Lemma frame_trans (c : Z) (s1 s2 s3 : Store) (a b : list Action) :
  frame c s1 s2 a → frame c s2 s3 b → frame c s1 s3 (a ++ b).
Proof.
  intros (H1 & H2 & H3 & H4 & H5 & l1 & H6) (G1 & G2 & G3 & G4 & G5 & l2 & G6).
  unfold frame. repeat split.
  - destruct (G1 c' H) as [-> _]. apply H1. exact H.
  - destruct (G1 c' H) as [_ ->]. apply H1. exact H.
  - congruence.
  - congruence.
  - rewrite G4, H4, app_assoc. reflexivity.
  - apply Forall_app. auto.
  - exists (l1 ++ l2). rewrite G6, H6, app_assoc. reflexivity.
Qed.

Lemma frame_add_log (c : Z) (s : Store) (l : LogEntry) : frame c s (add_log l s) [].
Proof.
  unfold frame. simpl. rewrite app_nil_r. repeat split; auto. exists [l]. reflexivity.
Qed.

Lemma frame_add_action (c : Z) (s : Store) (a : Action) :
  action_channel a = c → frame c s (add_action a s) [a].
Proof.
  intros H. unfold frame. simpl. repeat split; auto.
  exists []. rewrite app_nil_r. reflexivity.
Qed.

Lemma frame_set_config_value (c m : Z) (s : Store) : frame c s (set_config_value c m s) [].
Proof.
  unfold frame. simpl. rewrite app_nil_r. repeat split; auto.
  - apply lookup_insert_ne. congruence.
  - exists []. rewrite app_nil_r. reflexivity.
Qed.

Lemma frame_set_stock_status_message (c m : Z) (s : Store) :
  frame c s (set_stock_status_message c m s) [].
Proof.
  unfold frame. simpl. rewrite app_nil_r. repeat split; auto.
  - apply lookup_insert_ne. congruence.
  - exists []. rewrite app_nil_r. reflexivity.
Qed.

Lemma frame_delete_stock_message (c : Z) (s : Store) :
  frame c s (delete_stock_message c s) [].
Proof.
  unfold frame. simpl. rewrite app_nil_r. repeat split; auto.
  - apply lookup_delete_ne. congruence.
  - exists []. rewrite app_nil_r. reflexivity.
Qed.

Lemma sim_add_log (c : Z) (s s' : Store) (l : LogEntry) :
  sim c s s' → sim c (add_log l s) (add_log l s').
Proof. unfold sim. simpl. auto. Qed.

Lemma sim_add_action (c : Z) (s s' : Store) (a : Action) :
  sim c s s' → sim c (add_action a s) (add_action a s').
Proof. unfold sim. simpl. auto. Qed.

Lemma sim_set_config_value (c m : Z) (s s' : Store) :
  sim c s s' → sim c (set_config_value c m s) (set_config_value c m s').
Proof.
  unfold sim. simpl. intros (H1 & H2 & H3).
  rewrite !lookup_insert_eq. auto.
Qed.

Lemma sim_set_stock_status_message (c m : Z) (s s' : Store) :
  sim c s s' → sim c (set_stock_status_message c m s) (set_stock_status_message c m s').
Proof.
  unfold sim. simpl. intros (H1 & H2 & H3).
  rewrite !lookup_insert_eq. auto.
Qed.

Lemma sim_delete_stock_message (c : Z) (s s' : Store) :
  sim c s s' → sim c (delete_stock_message c s) (delete_stock_message c s').
Proof.
  unfold sim. simpl. intros (H1 & H2 & H3).
  rewrite !lookup_delete_eq. auto.
Qed.


Ltac frame_tac :=
  lazymatch goal with
  | |- frame _ ?s ?s _ => apply frame_refl
  | |- frame _ _ (add_log _ _) _ =>
      eapply frame_trans; [| apply frame_add_log]; frame_tac
  | |- frame _ _ (add_action _ _) _ =>
      eapply frame_trans; [| apply frame_add_action; reflexivity]; frame_tac
  | |- frame _ _ (set_config_value _ _ _) _ =>
      eapply frame_trans; [| apply frame_set_config_value]; frame_tac
  | |- frame _ _ (set_stock_status_message _ _ _) _ =>
      eapply frame_trans; [| apply frame_set_stock_status_message]; frame_tac
  | |- frame _ _ (delete_stock_message _ _) _ =>
      eapply frame_trans; [| apply frame_delete_stock_message]; frame_tac
  end.

Ltac sim_tac :=
  repeat first
    [ assumption
    | apply sim_add_log
    | apply sim_add_action
    | apply sim_set_config_value
    | apply sim_set_stock_status_message
    | apply sim_delete_stock_message ].

Ltac local_tac :=
  simpl; split; [reflexivity | split; [sim_tac | eexists; split; frame_tac]].

Lemma ping_settings_sim (c : Z) (s s' : Store) (g : Z) :
  sim c s s' → _get_ping_settings (db s) g = _get_ping_settings (db s') g.
Proof. intros (_ & _ & H). unfold _get_ping_settings. rewrite H. reflexivity. Qed.

Lemma send_notification_local (dc : Discord) (ch : Channel) (summary : string) :
  local_step (channel_id ch) (_send_notification dc ch summary).
Proof.
  intros s s' Hsim. pose proof Hsim as (H1 & H2 & H3).
  unfold _send_notification. rewrite <- H2.
  destruct (truthy_id (bot_config (db s) !! channel_id ch)) as [last |].
  - destruct (fetch_message (api dc (channel_id ch)) last) as [e |].
    + destruct (is_NotFound_or_Forbidden e); [| local_tac].
      rewrite (ping_settings_sim _ _ _ _ Hsim).
      destruct (send_content (api dc (channel_id ch))) as [e' | new_msg].
      * destruct (is_HTTPException e'); local_tac.
      * local_tac.
    + destruct (delete_message (api dc (channel_id ch)) last) as [e |].
      * destruct (is_NotFound_or_Forbidden e); [| local_tac].
        rewrite (ping_settings_sim _ _ _ _ Hsim).
        destruct (send_content (api dc (channel_id ch))) as [e' | new_msg].
        -- destruct (is_HTTPException e'); local_tac.
        -- local_tac.
      * simpl. rewrite (ping_settings_sim _ _ _ _ Hsim).
        destruct (send_content (api dc (channel_id ch))) as [e' | new_msg].
        -- destruct (is_HTTPException e'); local_tac.
        -- local_tac.
  - rewrite (ping_settings_sim _ _ _ _ Hsim).
    destruct (send_content (api dc (channel_id ch))) as [e' | new_msg].
    + destruct (is_HTTPException e'); local_tac.
    + local_tac.
Qed.


Lemma update_status_message_local (dc : Discord) (ch : Channel) (embed : Embed) :
  local_step (channel_id ch) (update_status_message dc ch embed).
Proof.
  intros s s' Hsim. pose proof Hsim as (H1 & H2 & H3).
  unfold update_status_message. rewrite <- H1.
  destruct (truthy_id (stock_status_messages (db s) !! channel_id ch)) as [message_id |].
  - destruct (fetch_message (api dc (channel_id ch)) message_id) as [e |].
    + destruct (is_NotFound_or_Forbidden e); [| local_tac].
      destruct (send_embed (api dc (channel_id ch))) as [e' | new_message]; local_tac.
    + destruct (edit_message (api dc (channel_id ch)) message_id) as [e |]; local_tac.
  - destruct (send_embed (api dc (channel_id ch))) as [e' | new_message]; local_tac.
Qed.

(** Each delivery is local to its channel. *)
Lemma update_channel_local (dc : Discord) (ch : Channel) (embed : Embed) (summary : string) :
  local_step (channel_id ch) (_update_channel dc ch embed summary).
Proof.
  intros s s' Hsim. unfold _update_channel.
  assert (Hnotified :
    (let f := λ s, if PyStr.truthy summary then _send_notification dc ch summary s
                   else (s, None) in
     (f s).2 = (f s').2 ∧ sim (channel_id ch) (f s).1 (f s').1 ∧
     ∃ sent, frame (channel_id ch) s (f s).1 sent ∧ frame (channel_id ch) s' (f s').1 sent)).
  { simpl. destruct (PyStr.truthy summary).
    - apply send_notification_local. exact Hsim.
    - simpl. split; [reflexivity |]. split; [exact Hsim |].
      exists []. split; apply frame_refl. }
  simpl in Hnotified.
  destruct (if PyStr.truthy summary then _send_notification dc ch summary s else (s, None))
    as [s1 r1].
  destruct (if PyStr.truthy summary then _send_notification dc ch summary s' else (s', None))
    as [s1' r1'].
  simpl in Hnotified. destruct Hnotified as (<- & Hsim1 & sent1 & Hf1 & Hf1').
  destruct r1 as [e |].
  { simpl. split; [reflexivity |]. split; [exact Hsim1 |]. exists sent1. auto. }
  destruct (update_status_message_local dc ch embed s1 s1' Hsim1)
    as (Hr & Hsim2 & sent2 & Hf2 & Hf2').
  destruct (update_status_message dc ch embed s1) as [s2 r2].
  destruct (update_status_message dc ch embed s1') as [s2' r2'].
  simpl in Hr, Hsim2, Hf2, Hf2'. subst r2'.
  destruct r2 as [e |].
  - destruct (is_HTTPException e); simpl.
    + split; [reflexivity |]. split; [apply sim_add_log; exact Hsim2 |].
      exists ((sent1 ++ sent2) ++ []). split.
      * eapply frame_trans; [| apply frame_add_log]. eapply frame_trans; eassumption.
      * eapply frame_trans; [| apply frame_add_log]. eapply frame_trans; eassumption.
    + split; [reflexivity |]. split; [exact Hsim2 |].
      exists (sent1 ++ sent2). split; eapply frame_trans; eassumption.
  - simpl. split; [reflexivity |]. split; [exact Hsim2 |].
    exists (sent1 ++ sent2). split; eapply frame_trans; eassumption.
Qed.


Lemma same_view_refl (c : Z) (s : Store) : same_view c s s.
Proof. split; [apply sim_refl | reflexivity]. Qed.

Lemma same_view_trans (c : Z) (s1 s2 s3 : Store) :
  same_view c s1 s2 → same_view c s2 s3 → same_view c s1 s3.
Proof.
  intros [(H1 & H2 & H3) H4] [(G1 & G2 & G3) G4].
  split; [unfold sim |]; repeat split; congruence.
Qed.

Lemma sent_to_app (c : Z) (l1 l2 : list Action) :
  sent_to c (l1 ++ l2) = sent_to c l1 ++ sent_to c l2.
Proof. unfold sent_to. apply filter_app. Qed.

Lemma sent_to_same (c : Z) (l : list Action) :
  Forall (λ a, action_channel a = c) l → sent_to c l = l.
Proof.
  unfold sent_to. induction 1 as [| a l Ha Hl IH]; [reflexivity |].
  rewrite filter_cons_True by exact Ha. rewrite IH. reflexivity.
Qed.

Lemma sent_to_other (c c' : Z) (l : list Action) :
  c' ≠ c → Forall (λ a, action_channel a = c) l → sent_to c' l = [].
Proof.
  intros Hne. unfold sent_to. induction 1 as [| a l Ha Hl IH]; [reflexivity |].
  rewrite filter_cons_False by congruence. exact IH.
Qed.

(** A delivery reads its channel only: from two stores that hold the same
    for the channel it ends the same way and leaves the same for it. *)
Lemma update_channel_same_view (dc : Discord) (ch : Channel) (embed : Embed)
      (summary : string) (s s' : Store) :
  same_view (channel_id ch) s s' →
  (_update_channel dc ch embed summary s).2 = (_update_channel dc ch embed summary s').2 ∧
  same_view (channel_id ch) (_update_channel dc ch embed summary s).1
                            (_update_channel dc ch embed summary s').1.
Proof.
  intros [Hsim Hsent].
  destruct (update_channel_local dc ch embed summary s s' Hsim)
    as (Hr & Hsim' & sent & Hf & Hf').
  split; [exact Hr |]. split; [exact Hsim' |].
  destruct Hf as (_ & _ & _ & -> & _ & _). destruct Hf' as (_ & _ & _ & -> & _ & _).
  rewrite !sent_to_app, Hsent. reflexivity.
Qed.

(** A delivery writes its channel only: every other channel holds what it
    held. *)
Lemma update_channel_other (dc : Discord) (ch : Channel) (embed : Embed)
      (summary : string) (s : Store) (c' : Z) :
  c' ≠ channel_id ch →
  same_view c' (_update_channel dc ch embed summary s).1 s.
Proof.
  intros Hne.
  destruct (update_channel_local dc ch embed summary s s (sim_refl _ _))
    as (_ & _ & sent & Hf & _).
  destruct Hf as (Hrows & Hroles & _ & Hact & Hall & _).
  destruct (Hrows c' Hne) as [H1 H2].
  split; [unfold sim; auto |].
  rewrite Hact, sent_to_app, (sent_to_other _ _ _ Hne Hall), app_nil_r. reflexivity.
Qed.

Lemma gather_fold (dc : Discord) (embed : Embed) (summary : string) (channels : list Channel) :
  ∀ s acc s0,
    NoDup (channel_id <$> channels) →
    (∀ ch, ch ∈ channels → same_view (channel_id ch) s s0) →
    (fold_left (gather_step dc embed summary) channels (s, acc)).2
      = acc ++ ((λ ch, (_update_channel dc ch embed summary s0).2) <$> channels) ∧
    (∀ ch, ch ∈ channels →
           same_view (channel_id ch)
             (fold_left (gather_step dc embed summary) channels (s, acc)).1
             (_update_channel dc ch embed summary s0).1) ∧
    (∀ c, c ∉ channel_id <$> channels →
          same_view c (fold_left (gather_step dc embed summary) channels (s, acc)).1 s).
Proof.
  induction channels as [| ch rest IH]; intros s acc s0 Hnodup Hsame.
  - simpl. rewrite app_nil_r. split; [reflexivity |]. split.
    + intros ch Hch. inversion Hch.
    + intros c _. apply same_view_refl.
  - change (NoDup (channel_id ch :: (channel_id <$> rest))) in Hnodup.
    apply NoDup_cons in Hnodup as [Hnotin Hnodup].
    assert (Hch : same_view (channel_id ch) s s0) by (apply Hsame; left).
    destruct (update_channel_same_view dc ch embed summary s s0 Hch) as [Hr Hview].
    change (fold_left (gather_step dc embed summary) (ch :: rest) (s, acc))
      with (fold_left (gather_step dc embed summary) rest
              (gather_step dc embed summary (s, acc) ch)).
    unfold gather_step at 2 4 6. simpl.
    destruct (_update_channel dc ch embed summary s) as [s1 r] eqn:Hrun.
    simpl in Hr, Hview.
    assert (Hother : ∀ c', c' ≠ channel_id ch → same_view c' s1 s).
    { intros c' Hne. pose proof (update_channel_other dc ch embed summary s c' Hne) as H.
      rewrite Hrun in H. exact H. }
    assert (Hsame' : ∀ ch', ch' ∈ rest → same_view (channel_id ch') s1 s0).
    { intros ch' Hin. eapply same_view_trans.
      - apply Hother. intros Heq. apply Hnotin. rewrite <- Heq.
        apply list_elem_of_fmap. eauto.
      - apply Hsame. right. exact Hin. }
    destruct (IH s1 (acc ++ [r]) s0 Hnodup Hsame') as (IH1 & IH2 & IH3).
    split; [| split].
    + rewrite IH1, <- app_assoc, Hr. reflexivity.
    + intros ch' Hin. apply elem_of_cons in Hin as [-> | Hin].
      * eapply same_view_trans; [apply IH3; exact Hnotin | exact Hview].
      * apply IH2. exact Hin.
    + intros c Hc. change (c ∉ channel_id ch :: (channel_id <$> rest)) in Hc.
      apply not_elem_of_cons in Hc as [Hne Hc].
      eapply same_view_trans; [apply IH3; exact Hc | apply Hother; exact Hne].
Qed.


Lemma channels_to_update_fold (dc : Discord) (ids : list Z) :
  ∀ (found : list Channel) (s : Store),
    let out := fold_left (λ acc id,
                            match get_channel dc id with
                            | Some channel => (acc.1 ++ [channel], acc.2)
                            | None => (acc.1, add_log (LogChannelNotFound id) acc.2)
                            end) ids (found, s) in
    out.1 = found ++ omap (get_channel dc) ids ∧
    db out.2 = db s ∧ actions out.2 = actions s ∧
    ∃ logged, log out.2 = log s ++ logged.
Proof.
  induction ids as [| id ids IH]; intros found s; simpl.
  - rewrite app_nil_r. repeat split. exists []. rewrite app_nil_r. reflexivity.
  - destruct (get_channel dc id) as [ch |]; simpl.
    + destruct (IH (found ++ [ch]) s) as (H1 & H2 & H3 & H4).
      rewrite H1, <- app_assoc. auto.
    + destruct (IH found (add_log (LogChannelNotFound id) s)) as (H1 & H2 & H3 & l & H4).
      rewrite H1. repeat split; [exact H2 | exact H3 |].
      exists (LogChannelNotFound id :: l). rewrite H4. simpl.
      rewrite <- app_assoc. reflexivity.
Qed.

Lemma channels_to_update_spec (dc : Discord) (s : Store) :
  (channels_to_update dc (stock_channels (db s)) s).1 = destinations dc s ∧
  (∀ c, same_view c (channels_to_update dc (stock_channels (db s)) s).2 s).
Proof.
  destruct (channels_to_update_fold dc (stock_channels (db s)) [] s) as (H1 & H2 & H3 & _).
  split; [exact H1 |]. intros c. unfold channels_to_update.
  split; [unfold sim |]; rewrite ?H2, ?H3; auto.
Qed.

Lemma destinations_NoDup (dc : Discord) (s : Store) :
  NoDup (stock_channels (db s)) →
  (∀ id ch, get_channel dc id = Some ch → channel_id ch = id) →
  NoDup (channel_id <$> destinations dc s).
Proof.
  intros Hnodup Hid. unfold destinations.
  induction (stock_channels (db s)) as [| id ids IH]; simpl; [constructor |].
  apply NoDup_cons in Hnodup as [Hnotin Hnodup].
  destruct (get_channel dc id) as [ch |] eqn:Hch; [| apply IH; exact Hnodup].
  simpl. apply NoDup_cons. split; [| apply IH; exact Hnodup].
  rewrite (Hid id ch Hch). intros Hin.
  apply list_elem_of_fmap in Hin as (ch' & Heq & Hin).
  apply list_elem_of_omap in Hin as (id' & Hin' & Hch').
  rewrite (Hid id' ch' Hch') in Heq. subst id'. contradiction.
Qed.

Lemma log_failures_fold (pairs : list (Channel * option Exn)) :
  ∀ s,
    let out := fold_left (λ s (cr : Channel * option Exn),
                            match cr.2 with
                            | Some e => add_log (LogFailedChannel (channel_name cr.1)
                                                                  (channel_id cr.1) e) s
                            | None => s
                            end) pairs s in
    db out = db s ∧ actions out = actions s ∧
    (∀ l, l ∈ log s → l ∈ log out) ∧
    (∀ ch e, (ch, Some e) ∈ pairs →
             LogFailedChannel (channel_name ch) (channel_id ch) e ∈ log out).
Proof.
  induction pairs as [| [ch r] pairs IH]; intros s; simpl.
  - repeat split; auto. intros ch e H. inversion H.
  - set (s1 := match r with
               | Some e => add_log (LogFailedChannel (channel_name ch) (channel_id ch) e) s
               | None => s
               end).
    destruct (IH s1) as (H1 & H2 & H3 & H4).
    assert (Hs1 : db s1 = db s ∧ actions s1 = actions s ∧ ∀ l, l ∈ log s → l ∈ log s1).
    { unfold s1. destruct r; simpl; repeat split; auto.
      intros l Hl. apply elem_of_app. left. exact Hl. }
    destruct Hs1 as (G1 & G2 & G3).
    repeat split; try congruence.
    + intros l Hl. apply H3, G3, Hl.
    + intros ch' e Hin. apply elem_of_cons in Hin as [[= -> Hr] | Hin].
      * apply H3. unfold s1. rewrite <- Hr. simpl. apply elem_of_app. right. left.
      * apply H4. exact Hin.
Qed.

Lemma log_failures_spec (channels : list Channel) (results : list (option Exn)) (s : Store) :
  (∀ c, same_view c (log_failures channels results s) s) ∧
  (∀ ch e, (ch, Some e) ∈ zip channels results →
           LogFailedChannel (channel_name ch) (channel_id ch) e
             ∈ log (log_failures channels results s)).
Proof.
  destruct (log_failures_fold (zip channels results) s) as (H1 & H2 & _ & H4).
  split; [| exact H4].
  intros c. unfold log_failures. split; [unfold sim |]; rewrite ?H1, ?H2; auto.
Qed.


Lemma zip_fmap_self {A B} (f : A → B) (l : list A) :
  zip l (f <$> l) = (λ x, (x, f x)) <$> l.
Proof. induction l as [| x l IH]; [reflexivity | simpl; f_equal; exact IH]. Qed.

(** The run of [gather] from a store [s] that holds, for every destination,
    what [s0] holds. *)
Lemma gather_spec (dc : Discord) (embed : Embed) (summary : string)
      (channels : list Channel) (s s0 : Store) :
  NoDup (channel_id <$> channels) →
  (∀ c, same_view c s s0) →
  zip channels (gather dc embed summary channels s).2
    = (λ ch, (ch, (_update_channel dc ch embed summary s0).2)) <$> channels ∧
  ∀ ch, ch ∈ channels →
        same_view (channel_id ch) (gather dc embed summary channels s).1
                  (_update_channel dc ch embed summary s0).1.
Proof.
  intros Hnodup Hsame. unfold gather.
  destruct (gather_fold dc embed summary channels s [] s0 Hnodup
              (λ ch _, Hsame (channel_id ch))) as (H1 & H2 & _).
  rewrite H1. simpl. split; [apply zip_fmap_self | exact H2].
Qed.

(** C9.  [_handle_update] gives every configured destination that is found
    one entry in the results, in order.  The entry of a destination, what
    its rows hold afterwards and what was sent to it are those of its own
    delivery run from the store as it was before the dispatch: no delivery
    depends on how another one ends, so a destination whose delivery raises
    neither stops nor changes the deliveries to the others.  The exception
    a delivery raises is its entry in the results, and it is logged with
    the name and the id of its channel. *)
Theorem dispatch_isolates_failures
  (dc : Discord) (data : StockData) (s0 s1 : Store)
  (results : list (Channel * option Exn)) :
  NoDup (stock_channels (db s0)) →
  (∀ id ch, get_channel dc id = Some ch → channel_id ch = id) →
  _handle_update dc data s0 = Some (s1, results) →
  results.*1 = destinations dc s0 ∧
  ∀ summary, _generate_change_summary data = Some summary →
    ∀ ch, ch ∈ destinations dc s0 →
      (ch, (_update_channel dc ch (_build_stock_embed data) summary s0).2) ∈ results ∧
      same_view (channel_id ch) s1
                (_update_channel dc ch (_build_stock_embed data) summary s0).1 ∧
      (∀ e, (_update_channel dc ch (_build_stock_embed data) summary s0).2 = Some e →
            LogFailedChannel (channel_name ch) (channel_id ch) e ∈ log s1).
Proof.
  intros Hnodup Hid Hrun.
  pose proof (destinations_NoDup dc s0 Hnodup Hid) as Hdest.
  destruct (channels_to_update_spec dc s0) as [Hfound Hkept].
  unfold _handle_update in Hrun. unfold destinations in *.
  destruct (stock_channels (db s0)) as [| id ids] eqn:Hids.
  { injection Hrun as <- <-. split; [reflexivity |].
    intros summary _ ch Hch. inversion Hch. }
  destruct (_generate_change_summary data) as [summary0 |]; [| discriminate].
  destruct (channels_to_update dc (id :: ids) s0) as [channels s] eqn:Hchan.
  cbv beta iota zeta in Hrun. cbn [fst snd] in Hfound, Hkept. subst channels.
  generalize dependent (omap (get_channel dc) (id :: ids)). intros [| ch0 rest] Hrun Hchan Hdest.
  { injection Hrun as <- <-. split; [reflexivity |].
    intros summary _ ch Hch. inversion Hch. }
  destruct (gather_spec dc (_build_stock_embed data) summary0 (ch0 :: rest) s s0
              Hdest Hkept) as [Hzip Hview].
  destruct (log_failures_spec (ch0 :: rest)
              (gather dc (_build_stock_embed data) summary0 (ch0 :: rest) s).2
              (gather dc (_build_stock_embed data) summary0 (ch0 :: rest) s).1)
    as [Hsame Hlogged].
  destruct (gather dc (_build_stock_embed data) summary0 (ch0 :: rest) s) as [s2 rs].
  cbn [fst snd] in Hzip, Hview, Hsame, Hlogged.
  assert (Hrun' : Some (log_failures (ch0 :: rest) rs s2, zip (ch0 :: rest) rs)
                  = Some (s1, results)) by exact Hrun.
  clear Hrun.
  assert (Hres : results = zip (ch0 :: rest) rs) by congruence.
  assert (Hs1 : s1 = log_failures (ch0 :: rest) rs s2) by congruence.
  clear Hrun'. rewrite Hres, Hs1. clear Hres Hs1. split.
  - rewrite Hzip. rewrite <- list_fmap_compose. apply list_fmap_id.
  - intros summary [= <-] ch Hch. split; [| split].
    + rewrite Hzip. apply list_elem_of_fmap. exists ch. split; [reflexivity | exact Hch].
    + eapply same_view_trans; [apply Hsame | apply Hview; exact Hch].
    + intros e He. apply Hlogged. rewrite Hzip. apply list_elem_of_fmap.
      exists ch. split; [rewrite He; reflexivity | exact Hch].
Qed.

End Dispatch.

Section DispatchExample.
Import RobloxTracker DispatchRelations FeedSamples.

Lemma five_destinations_ids (id : Z) (ch : Channel) :
  get_channel five_destinations id = Some ch → channel_id ch = id.
Proof.
  simpl. destruct ((101 <=? id) && (id <=? 105)); [| discriminate].
  intros [= <-]. reflexivity.
Qed.

(** Five destinations, the third of which raises on the edit of its status
    message: the other four get their alert and their status message, and
    the results and the log name the third. *)
Lemma dispatch_isolates_failures_witness :
  ∃ s1 results,
    _handle_update five_destinations snapshot3 store5 = Some (s1, results) ∧
    results.*2 = [None; None; Some OtherError; None; None] ∧
    results.*1 = destinations five_destinations store5 ∧
    ∀ summary, _generate_change_summary snapshot3 = Some summary →
      ∀ ch, ch ∈ destinations five_destinations store5 →
        (ch, (_update_channel five_destinations ch (_build_stock_embed snapshot3)
                summary store5).2) ∈ results ∧
        same_view (channel_id ch) s1
          (_update_channel five_destinations ch (_build_stock_embed snapshot3)
             summary store5).1 ∧
        (∀ e, (_update_channel five_destinations ch (_build_stock_embed snapshot3)
                 summary store5).2 = Some e →
              LogFailedChannel (channel_name ch) (channel_id ch) e ∈ log s1).
Proof.
  destruct (_handle_update five_destinations snapshot3 store5) as [[s1 results] |] eqn:H;
    [| vm_compute in H; discriminate].
  exists s1, results. split; [reflexivity |]. split.
  - vm_compute in H. injection H as _ <-. reflexivity.
  - apply (dispatch_isolates_failures five_destinations snapshot3 store5 s1 results).
    + apply (bool_decide_unpack _). vm_compute. exact I.
    + exact five_destinations_ids.
    + exact H.
Defined.

(** What reaches Discord in that run: an alert and a status message for each
    of the four, the alert alone for the third. *)
Lemma dispatch_five_example :
  ∃ s1 results,
    _handle_update five_destinations snapshot3 store5 = Some (s1, results) ∧
    actions s1 =
      [SendContent 101 NoPing alert3 501; SendEmbed 101 (_build_stock_embed snapshot3) 502;
       SendContent 102 NoPing alert3 501; SendEmbed 102 (_build_stock_embed snapshot3) 502;
       SendContent 103 NoPing alert3 501;
       SendContent 104 NoPing alert3 501; SendEmbed 104 (_build_stock_embed snapshot3) 502;
       SendContent 105 NoPing alert3 501; SendEmbed 105 (_build_stock_embed snapshot3) 502] ∧
    LogFailedChannel "stock" 103 OtherError ∈ log s1.
Proof.
  eexists _, _. split; [vm_compute; reflexivity |].
  split; [vm_compute; reflexivity |]. vm_compute.
  repeat first [left | right].
Qed.

End DispatchExample.

(** ** More on the ledger and on its callers *)

Section LedgerMore.
Import DatabaseManager Economy.

Lemma update_balance_books (d : DB) (uid : Z) (amount : Q) (err : bool) :
  users (update_balance d uid amount err).2 = users d ∧
  (∀ u, u ≠ uid → economy (update_balance d uid amount err).2 !! u = economy d !! u) ∧
  ((update_balance d uid amount err).1 = false ∧ (update_balance d uid amount err).2 = d
   ∨
   (update_balance d uid amount err).1 = true ∧ uid ∈ users d ∧ err = false ∧
   match economy d !! uid with
   | None => economy (update_balance d uid amount err).2 = economy d
   | Some r =>
       ∃ r', economy (update_balance d uid amount err).2 !! uid = Some r' ∧
             balance r' = (balance r + amount)%Q ∧
             (total_earned r <= total_earned r')%Q ∧
             (total_spent r <= total_spent r')%Q ∧
             (balance r' - total_earned r' + total_spent r'
              == balance r - total_earned r + total_spent r)%Q
   end).
Proof.
  unfold update_balance, get_user_profile.
  destruct (decide (uid ∈ users d)) as [Hu | Hu].
  2: { rewrite bool_decide_eq_false_2 by exact Hu. simpl. auto. }
  rewrite bool_decide_eq_true_2 by exact Hu. simpl.
  destruct err; [simpl; auto |].
  destruct (Qlt_bool 0 amount) eqn:Hsign; simpl.
  - apply Qlt_bool_iff in Hsign.
    split; [reflexivity |]. split; [intros u Hne; apply lookup_alter_ne; congruence |].
    right. repeat split; try assumption.
    destruct (economy d !! uid) as [r |] eqn:Hr.
    + exists (earn amount r). rewrite lookup_alter_eq, Hr. simpl.
      repeat split; try lra.
    + apply map_eq. intros u. destruct (decide (uid = u)) as [<- | Hne].
      * rewrite lookup_alter_eq, Hr. reflexivity.
      * apply lookup_alter_ne. exact Hne.
  - apply Qlt_bool_false_iff in Hsign.
    split; [reflexivity |]. split; [intros u Hne; apply lookup_alter_ne; congruence |].
    right. repeat split; try assumption.
    destruct (economy d !! uid) as [r |] eqn:Hr.
    + exists (spend amount r). rewrite lookup_alter_eq, Hr. simpl.
      assert (Habs : (Qabs amount == - amount)%Q) by (apply Qabs_neg; exact Hsign).
      pose proof (Qabs_nonneg amount). repeat split; lra.
    + apply map_eq. intros u. destruct (decide (uid = u)) as [<- | Hne].
      * rewrite lookup_alter_eq, Hr. reflexivity.
      * apply lookup_alter_ne. exact Hne.
Qed.



(** The balance read after an update. *)
Lemma get_user_balance_update (d : DB) (uid : Z) (amount : Q) (err : bool) :
  get_user_balance (update_balance d uid amount err).2 uid = get_user_balance d uid
  ∨ ((update_balance d uid amount err).1 = true ∧
     get_user_balance (update_balance d uid amount err).2 uid
       = (get_user_balance d uid + amount)%Q).
Proof.
  destruct (update_balance_books d uid amount err) as (_ & _ & [[_ ->] | H]).
  - left. reflexivity.
  - destruct H as (Hok & _ & _ & H). unfold get_user_balance.
    destruct (economy d !! uid) as [r |] eqn:Hr.
    + destruct H as (r' & Hr' & Hbal & _). right. split; [exact Hok |].
      rewrite Hr'. exact Hbal.
    + left. rewrite H, Hr. reflexivity.
Qed.

Lemma get_user_balance_update_other (d : DB) (uid u : Z) (amount : Q) (err : bool) :
  u ≠ uid → get_user_balance (update_balance d uid amount err).2 u = get_user_balance d u.
Proof.
  intros Hne. destruct (update_balance_books d uid amount err) as (_ & H & _).
  unfold get_user_balance. rewrite (H u Hne). reflexivity.
Qed.

(** With a profile, a row and a healthy connection, the balance moves by
    the amount. *)
Lemma get_user_balance_update_ok (d : DB) (uid : Z) (amount : Q) :
  uid ∈ users d → is_Some (economy d !! uid) →
  get_user_balance (update_balance d uid amount false).2 uid
    = (get_user_balance d uid + amount)%Q ∧
  users (update_balance d uid amount false).2 = users d ∧
  is_Some (economy (update_balance d uid amount false).2 !! uid).
Proof.
  intros Hu [r Hr].
  destruct (update_balance_ok d uid amount Hu) as (d' & Hupd & Husers & Hbal & _).
  rewrite Hupd. simpl. destruct (Hbal r Hr) as (r' & Hr' & Hb).
  unfold get_user_balance. rewrite Hr, Hr'. split; [exact Hb |]. split; [exact Husers | eauto].
Qed.

End LedgerMore.

Section AdminCommands.
Import DatabaseManager Economy Admin.

(** Registering a user never changes a balance. *)
Lemma add_or_update_user_balance (d : DB) (uid u : Z) (err : bool) :
  get_user_balance (add_or_update_user d uid err).2 u = get_user_balance d u.
Proof.
  unfold add_or_update_user. destruct err; [reflexivity |]. simpl.
  unfold get_user_balance. simpl.
  destruct (economy d !! uid) as [r |] eqn:Hr; [reflexivity |].
  destruct (decide (uid = u)) as [<- | Hne].
  - rewrite lookup_insert_eq, Hr. reflexivity.
  - rewrite lookup_insert_ne by exact Hne. reflexivity.
Qed.

Lemma add_or_update_user_registered (d : DB) (uid : Z) :
  uid ∈ users (add_or_update_user d uid false).2 ∧
  is_Some (economy (add_or_update_user d uid false).2 !! uid).
Proof.
  unfold add_or_update_user. simpl. split; [set_solver |].
  destruct (economy d !! uid) as [r |] eqn:Hr; [rewrite Hr; eauto |].
  rewrite lookup_insert_eq. eauto.
Qed.

(** [/eco_admin add] and [/eco_admin set] on a healthy connection always
    take effect, whether or not the user was known before: [add] moves the
    balance by the amount, [set] makes it the amount, and the answer says
    so.  The balances of the other users stay as they are. *)
Theorem eco_add_and_set_take_effect (d : DB) (uid : Z) (amount : Z) :
  (eco_add d uid amount healthy).2
    = Added (inject_Z amount) (get_user_balance d uid + inject_Z amount)%Q ∧
  get_user_balance (eco_add d uid amount healthy).1 uid
    = (get_user_balance d uid + inject_Z amount)%Q ∧
  (eco_set d uid amount healthy).2 = SetTo (inject_Z amount) ∧
  get_user_balance (eco_set d uid amount healthy).1 uid = inject_Z amount ∧
  ∀ u, u ≠ uid →
       get_user_balance (eco_add d uid amount healthy).1 u = get_user_balance d u ∧
       get_user_balance (eco_set d uid amount healthy).1 u = get_user_balance d u.
Proof.
  destruct (add_or_update_user_registered d uid) as [Hu Hrow].
  assert (Hbal : ∀ u, get_user_balance (add_or_update_user d uid false).2 u
                      = get_user_balance d u)
    by (intros u; apply add_or_update_user_balance).
  remember (add_or_update_user d uid false).2 as d1 eqn:Hd1.
  assert (Hadd : eco_add d uid amount healthy =
                 ((update_balance d1 uid (inject_Z amount) false).2,
                  Added (inject_Z amount)
                        (get_user_balance (update_balance d1 uid (inject_Z amount) false).2 uid))).
  { unfold eco_add, healthy. cbn [e1 e2 e3 e4]. rewrite <- Hd1.
    destruct (update_balance_ok d1 uid (inject_Z amount) Hu) as (d' & Hupd & _).
    rewrite Hupd. reflexivity. }
  assert (Hset : eco_set d uid amount healthy =
                 (mkDB (users d1) (alter (set_balance (inject_Z amount)) uid (economy d1)),
                  SetTo (inject_Z amount))).
  { unfold eco_set, healthy. cbn [e1 e2 e3 e4]. rewrite <- Hd1.
    unfold force_set_balance, get_user_profile.
    rewrite bool_decide_eq_true_2 by exact Hu. reflexivity. }
  destruct (get_user_balance_update_ok d1 uid (inject_Z amount) Hu Hrow) as (Hnew & _ & _).
  rewrite Hadd, Hset. simpl. rewrite Hnew, Hbal.
  split; [reflexivity |]. split; [reflexivity |]. split; [reflexivity |]. split.
  - unfold get_user_balance. simpl. rewrite lookup_alter_eq.
    destruct Hrow as [r ->]. reflexivity.
  - intros u Hne. split.
    + rewrite get_user_balance_update_other by exact Hne. apply Hbal.
    + unfold get_user_balance at 1. simpl. rewrite lookup_alter_ne by congruence.
      apply Hbal.
Qed.

(** [/eco_admin remove] run with no other coroutine between its awaits: a
    balance that is not negative is not negative afterwards, whatever the
    driver does.  On a healthy connection it removes the amount exactly when
    the balance covers it, and otherwise answers with the balance and changes
    nothing. *)
Lemma eco_remove_alone (d : DB) (uid : Z) (amount : Z) (err : Errors) :
  (0 <= get_user_balance d uid)%Q →
  (0 <= get_user_balance (eco_remove d uid amount err).1 uid)%Q ∧
  (err = healthy →
   if Qlt_bool (get_user_balance d uid) (inject_Z amount)
   then (eco_remove d uid amount err).2 = OnlyHas (get_user_balance d uid) (inject_Z amount) ∧
        get_user_balance (eco_remove d uid amount err).1 uid = get_user_balance d uid
   else (eco_remove d uid amount err).2
          = Removed (inject_Z amount) (get_user_balance d uid + inject_Z (- amount))%Q ∧
        get_user_balance (eco_remove d uid amount err).1 uid
          = (get_user_balance d uid + inject_Z (- amount))%Q).
Proof.
  intros Hpos. split.
  - unfold eco_remove.
    set (d1 := (add_or_update_user d uid (e1 err)).2).
    assert (Hbal : get_user_balance d1 uid = get_user_balance d uid)
      by apply add_or_update_user_balance.
    destruct (Qlt_bool (get_user_balance_or_0 d1 uid (e2 err)) (inject_Z amount)) eqn:Hlt.
    + simpl. rewrite Hbal. exact Hpos.
    + apply Qlt_bool_false_iff in Hlt.
      assert (Hnew : (0 <= get_user_balance (update_balance d1 uid (inject_Z (- amount)) (e3 err)).2 uid)%Q).
      { destruct (get_user_balance_update d1 uid (inject_Z (- amount)) (e3 err)) as [-> | [_ ->]].
        - rewrite Hbal. exact Hpos.
        - rewrite Hbal, inject_Z_opp. unfold get_user_balance_or_0 in Hlt.
          destruct (e2 err); [lra |]. rewrite Hbal in Hlt. lra. }
      destruct (update_balance d1 uid (inject_Z (- amount)) (e3 err)) as [[|] d2]; exact Hnew.
  - intros ->.
    destruct (add_or_update_user_registered d uid) as [Hu Hrow].
    unfold eco_remove, healthy. cbn [e1 e2 e3 e4].
    assert (Hbal : get_user_balance (add_or_update_user d uid false).2 uid
                   = get_user_balance d uid)
      by apply add_or_update_user_balance.
    remember (add_or_update_user d uid false).2 as d1 eqn:Hd1.
    unfold get_user_balance_or_0. rewrite Hbal.
    destruct (Qlt_bool (get_user_balance d uid) (inject_Z amount)).
    + simpl. auto.
    + destruct (get_user_balance_update_ok d1 uid (inject_Z (- amount)) Hu Hrow) as (Hnew & _ & _).
      destruct (update_balance_ok d1 uid (inject_Z (- amount)) Hu) as (d' & Hupd & _).
      rewrite Hupd in *. simpl in *. rewrite Hnew, Hbal. auto.
Qed.


End AdminCommands.

Section Games.
Import DatabaseManager Economy.

(** [/coinflip] run with no other coroutine between its awaits: a balance
    that is not negative is not negative afterwards, whatever the driver does
    and however the coin falls.  On a healthy connection, for a user with a
    profile and a row, a bet the balance does not cover is turned down
    without a change; otherwise the balance goes up by the bet on a win and
    down by it on a loss. *)
Lemma coinflip_alone
  (d : DB) (uid amount : Z) (side result : Coinflip.Side) (err : Admin.Errors) :
  (1 <= amount)%Z →
  (0 <= get_user_balance d uid)%Q →
  (0 <= get_user_balance (Coinflip.coinflip d uid amount side result err).1 uid)%Q ∧
  (err = Admin.healthy → uid ∈ users d → is_Some (economy d !! uid) →
   (get_user_balance (Coinflip.coinflip d uid amount side result err).1 uid
    == get_user_balance d uid +
       (if Qlt_bool (get_user_balance d uid) (inject_Z amount) then 0
        else if Coinflip.Side_eqb result side then inject_Z amount
        else - inject_Z amount))%Q).
Proof.
  intros Hamount Hpos.
  assert (Ha : (1 <= inject_Z amount)%Q).
  { change 1%Q with (inject_Z 1). rewrite <- Zle_Qle. exact Hamount. }
  split.
  - unfold Coinflip.coinflip.
    destruct (Qlt_bool (get_user_balance_or_0 d uid (Admin.e1 err)) (inject_Z amount)) eqn:Hlt.
    { simpl. exact Hpos. }
    apply Qlt_bool_false_iff in Hlt. unfold get_user_balance_or_0 in Hlt.
    destruct (Admin.e1 err); [lra |].
    cbn [fst].
    set (d1 := (update_balance d uid (inject_Z (- amount)) (Admin.e2 err)).2).
    assert (H1 : (0 <= get_user_balance d1 uid)%Q).
    { unfold d1.
      destruct (get_user_balance_update d uid (inject_Z (- amount)) (Admin.e2 err))
        as [-> | [_ ->]]; [exact Hpos |].
      rewrite inject_Z_opp. lra. }
    destruct (Coinflip.Side_eqb result side); [| exact H1].
    destruct (get_user_balance_update d1 uid (inject_Z (amount * 2)) (Admin.e3 err))
      as [-> | [_ ->]]; [exact H1 |].
    rewrite inject_Z_mult. change (inject_Z 2) with 2%Q. lra.
  - intros -> Hu Hrow. unfold Coinflip.coinflip, Admin.healthy. cbn [Admin.e1 Admin.e2 Admin.e3 Admin.e4].
    unfold get_user_balance_or_0.
    destruct (Qlt_bool (get_user_balance d uid) (inject_Z amount)); [simpl; lra |].
    cbn [fst].
    destruct (get_user_balance_update_ok d uid (inject_Z (- amount)) Hu Hrow)
      as (H1 & Hu1 & Hrow1).
    rewrite <- Hu1 in Hu.
    destruct (Coinflip.Side_eqb result side).
    + destruct (get_user_balance_update_ok _ uid (inject_Z (amount * 2)) Hu Hrow1)
        as (H2 & _ & _).
      rewrite H2, H1, inject_Z_mult, inject_Z_opp. change (inject_Z 2) with 2%Q. lra.
    + rewrite H1, inject_Z_opp. lra.
Qed.


(** [/slots] takes the bet twice on a losing spin: the spin reports
    winnings of [-bet] and the net change booked is [winnings - bet].  On a
    healthy connection, for a user whose balance covers the bet, three equal
    symbols move the balance by [bet * payout - bet] and anything else by
    [- 2 * bet]. *)
Theorem slots_net_change
  (d : DB) (uid bet : Z) (r0 r1 r2 : Slots.Symbol) :
  uid ∈ users d → is_Some (economy d !! uid) →
  (inject_Z bet <= get_user_balance d uid)%Q →
  (get_user_balance (Slots.slots d uid bet r0 r1 r2 Admin.healthy).1 uid
   == get_user_balance d uid +
      (if Slots.Symbol_eqb r0 r1 && Slots.Symbol_eqb r1 r2
       then inject_Z bet * inject_Z (Slots.PAYOUTS r0) - inject_Z bet
       else - (2 * inject_Z bet)))%Q.
Proof.
  intros Hu Hrow Hcover.
  unfold Slots.slots, Admin.healthy. cbn [Admin.e1 Admin.e2 Admin.e3 Admin.e4].
  unfold get_user_balance_or_0.
  rewrite (proj2 (Qlt_bool_false_iff _ _)) by exact Hcover.
  set (net := (Slots.winnings (Slots._get_game_result bet r0 r1 r2) - bet)%Z).
  destruct (get_user_balance_update_ok d uid (inject_Z net) Hu Hrow) as (H1 & _ & _).
  assert (Hfinal : get_user_balance
                     (if Slots.is_win (Slots._get_game_result bet r0 r1 r2)
                      then ((update_balance d uid (inject_Z net) false).2,
                            Slots.Jackpot (Slots.winnings (Slots._get_game_result bet r0 r1 r2))
                              (get_user_balance (update_balance d uid (inject_Z net) false).2 uid))
                      else ((update_balance d uid (inject_Z net) false).2,
                            Slots.Lost bet
                              (get_user_balance (update_balance d uid (inject_Z net) false).2 uid))).1
                     uid
                   = (get_user_balance d uid + inject_Z net)%Q).
  { destruct (Slots.is_win _); exact H1. }
  rewrite Hfinal. unfold net, Slots._get_game_result. simpl.
  destruct (Slots.Symbol_eqb r0 r1 && Slots.Symbol_eqb r1 r2).
  - unfold Zminus. rewrite inject_Z_plus, inject_Z_mult, inject_Z_opp. lra.
  - unfold Zminus. rewrite inject_Z_plus, !inject_Z_opp. lra.
Qed.

Lemma slots_net_change_witness :
  (get_user_balance
     (Slots.slots Samples.bank 7 100 Slots.Cherry Slots.Lemon Slots.Bell Admin.healthy).1 7
   == get_user_balance Samples.bank 7 +
      (if Slots.Symbol_eqb Slots.Cherry Slots.Lemon && Slots.Symbol_eqb Slots.Lemon Slots.Bell
       then inject_Z 100 * inject_Z (Slots.PAYOUTS Slots.Cherry) - inject_Z 100
       else - (2 * inject_Z 100)))%Q.
Proof.
  apply (slots_net_change Samples.bank 7 100 Slots.Cherry Slots.Lemon Slots.Bell).
  - apply (bool_decide_unpack _). vm_compute. exact I.
  - exists (mkRow 900 0 100). reflexivity.
  - vm_compute. discriminate.
Defined.

End Games.

(** ** The daily reward, the bounce, and hands of cards *)

Section DailyReward.
Import Daily.

(** For a reward and a cap that are not negative and a streak of at least
    one day, the reward is the base plus a bonus between nothing and the cap
    times a tenth of the base; the first day has no bonus, a longer streak
    never pays less, and past the cap the reward no longer grows. *)
Theorem daily_reward_bounds (DAILY_REWARD MAX_STREAK_MULTIPLIER streak : Z) :
  0 <= DAILY_REWARD → 0 <= MAX_STREAK_MULTIPLIER → 1 <= streak →
  let r := _calculate_reward DAILY_REWARD MAX_STREAK_MULTIPLIER in
  total (r streak) = base (r streak) + bonus (r streak) ∧
  base (r streak) = DAILY_REWARD ∧
  0 <= bonus (r streak) <= MAX_STREAK_MULTIPLIER * (DAILY_REWARD / 10) ∧
  total (r 1) = DAILY_REWARD ∧
  total (r streak) <= total (r (streak + 1)) ∧
  (MAX_STREAK_MULTIPLIER + 1 <= streak → total (r (streak + 1)) = total (r streak)).
Proof.
  intros Hbase Hcap Hstreak. unfold _calculate_reward. simpl.
  assert (Htenth : 0 <= DAILY_REWARD / 10) by (apply Z.div_pos; lia).
  split; [reflexivity |]. split; [reflexivity |]. split; [| split; [| split]].
  - split.
    + apply Z.mul_nonneg_nonneg; lia.
    + apply Z.mul_le_mono_nonneg_r; lia.
  - replace (Z.min (1 - 1) MAX_STREAK_MULTIPLIER) with 0 by lia. lia.
  - apply Z.add_le_mono_l. apply Z.mul_le_mono_nonneg_r; lia.
  - intros Hpast.
    replace (Z.min (streak + 1 - 1) MAX_STREAK_MULTIPLIER) with MAX_STREAK_MULTIPLIER by lia.
    replace (Z.min (streak - 1) MAX_STREAK_MULTIPLIER) with MAX_STREAK_MULTIPLIER by lia.
    reflexivity.
Qed.

Lemma daily_reward_bounds_witness :
  let r := _calculate_reward 100 5 in
  total (r 3) = base (r 3) + bonus (r 3) ∧
  base (r 3) = 100 ∧
  0 <= bonus (r 3) <= 5 * (100 / 10) ∧
  total (r 1) = 100 ∧
  total (r 3) <= total (r (3 + 1)) ∧
  (5 + 1 <= 3 → total (r (3 + 1)) = total (r 3)).
Proof. apply (daily_reward_bounds 100 5 3); lia. Defined.

End DailyReward.

Section Bounce.
Import Easing.

Lemma square_le (y a : Q) : (- a <= y)%Q → (y <= a)%Q → (y * y <= a * a)%Q.
Proof.
  intros H1 H2.
  assert (H : (0 <= (a - y) * (a + y))%Q) by (apply Qmult_le_0_compat; lra).
  lra.
Qed.

(** [ease_out_bounce] starts at 0, ends at 1, and stays between 0 and 1 on
    the progress values from 0 to 1. *)
Theorem ease_out_bounce_range (x : Q) :
  (0 <= x)%Q → (x <= 1)%Q →
  (0 <= ease_out_bounce x)%Q ∧ (ease_out_bounce x <= 1)%Q ∧
  (ease_out_bounce 0 == 0)%Q ∧ (ease_out_bounce 1 == 1)%Q.
Proof.
  intros H0 H1.
  split; [| split; [| split; vm_compute; reflexivity]].
  - unfold ease_out_bounce.
    destruct (Qlt_bool x _); [| destruct (Qlt_bool x _); [| destruct (Qlt_bool x _)]];
      cbv zeta;
      match goal with
      | |- (0 <= ?n * ?y * ?y + _)%Q => pose proof (square_nonneg y)
      | |- (0 <= ?n * ?y * ?y)%Q => pose proof (square_nonneg y)
      end; lra.
  - unfold ease_out_bounce.
    change (1 / (11 # 4))%Q with (4 # 11)%Q.
    change (2 / (11 # 4))%Q with (8 # 11)%Q.
    change ((5 # 2) / (11 # 4))%Q with (20 # 22)%Q.
    change ((3 # 2) / (11 # 4))%Q with (12 # 22)%Q.
    change ((9 # 4) / (11 # 4))%Q with (36 # 44)%Q.
    change ((21 # 8) / (11 # 4))%Q with (84 # 88)%Q.
    destruct (Qlt_bool x (4 # 11)) eqn:E1.
    { apply Qlt_bool_iff in E1.
      pose proof (square_le x (4 # 11)). lra. }
    apply Qlt_bool_false_iff in E1.
    destruct (Qlt_bool x (8 # 11)) eqn:E2.
    { apply Qlt_bool_iff in E2. cbv zeta.
      pose proof (square_le (x - (12 # 22)) (2 # 11)). lra. }
    apply Qlt_bool_false_iff in E2.
    destruct (Qlt_bool x (20 # 22)) eqn:E3.
    { apply Qlt_bool_iff in E3. cbv zeta.
      pose proof (square_le (x - (36 # 44)) (1 # 11)). lra. }
    apply Qlt_bool_false_iff in E3. cbv zeta.
    pose proof (square_le (x - (84 # 88)) (1 # 22)). lra.
Qed.

Lemma ease_out_bounce_range_witness :
  (0 <= ease_out_bounce (1 # 2))%Q ∧ (ease_out_bounce (1 # 2) <= 1)%Q ∧
  (ease_out_bounce 0 == 0)%Q ∧ (ease_out_bounce 1 == 1)%Q.
Proof. apply (ease_out_bounce_range (1 # 2)); lra. Defined.

End Bounce.

Section Hands.
Import GameUtils Dealing.

Lemma adjust_loop_spec (fuel : nat) (v a : Z) :
  0 <= a <= Z.of_nat fuel →
  let r := adjust_loop fuel v a in
  0 <= snd r <= a ∧ fst r = v - 10 * (a - snd r) ∧
  (fst r <= 21 ∨ snd r = 0) ∧ (snd r = a ∨ 11 < fst r).
Proof.
  revert v a. induction fuel as [| fuel IH]; intros v a Ha; cbn [adjust_loop].
  - cbn [fst snd]. lia.
  - destruct (21 <? v) eqn:Ev; cbn [andb].
    + destruct (a =? 0) eqn:Ea; cbn [negb].
      * apply Z.eqb_eq in Ea. cbn [fst snd]. lia.
      * apply Z.eqb_neq in Ea. apply Z.ltb_lt in Ev.
        specialize (IH (v - 10) (a - 1) ltac:(lia)). cbv zeta in IH.
        destruct (adjust_loop fuel (v - 10) (a - 1)) as [v' a'].
        cbn [fst snd] in *. lia.
    + apply Z.ltb_ge in Ev. cbn [fst snd]. lia.
Qed.

Lemma face_total_app (cs : list Card) (c : Card) :
  face_total (cs ++ [c]) = face_total cs + card_value c.
Proof. unfold face_total. induction cs as [| x cs IH]; simpl in *; lia. Qed.

Lemma count_aces_app (cs : list Card) (c : Card) :
  count_aces (cs ++ [c]) = count_aces cs + (if is_ace (rank c) then 1 else 0).
Proof. unfold count_aces. induction cs as [| x cs IH]; simpl in *; lia. Qed.

Lemma hand_of_spec (cs : list Card) :
  let h := hand_of cs in
  cards h = cs ∧
  0 <= aces h <= count_aces cs ∧
  value h = face_total cs - 10 * (count_aces cs - aces h) ∧
  (value h <= 21 ∨ aces h = 0) ∧
  (aces h = count_aces cs ∨ 11 < value h).
Proof.
  induction cs as [| c cs IH] using rev_ind.
  - cbn. split; [reflexivity | lia].
  - cbv zeta in *. unfold hand_of in *. rewrite fold_left_app. cbn [fold_left].
    destruct IH as (Hc & Ha & Hv & _ & Hbest).
    set (h := fold_left add_card cs empty_hand) in *.
    rewrite face_total_app, count_aces_app.
    unfold add_card, adjust_for_ace. cbn [cards value aces].
    set (a0 := if is_ace (rank c) then aces h + 1 else aces h).
    assert (Ha0 : a0 = aces h + (if is_ace (rank c) then 1 else 0))
      by (unfold a0; destruct (is_ace (rank c)); lia).
    assert (Hval : 2 <= card_value c)
      by (unfold card_value; destruct (rank c); simpl; lia).
    pose proof (adjust_loop_spec (Z.to_nat a0) (value h + card_value c) a0) as Hloop.
    cbv zeta in Hloop.
    destruct (adjust_loop (Z.to_nat a0) (value h + card_value c) a0) as [v' a'].
    cbn [fst snd cards value aces] in *.
    assert (Hfuel : 0 <= a0 <= Z.of_nat (Z.to_nat a0))
      by (destruct (is_ace (rank c)); lia).
    specialize (Hloop Hfuel).
    split; [rewrite Hc; reflexivity |].
    destruct (is_ace (rank c)); lia.
Qed.

(** Whatever cards are added to a fresh hand, in whatever order: the hand
    holds them in that order; its count of aces still worth 11 is between 0
    and the number of aces dealt; its value is the face total less 10 for every
    ace counted as 1; the value is over 21 only when no ace is left to count
    down; and an ace is counted down only when the hand would otherwise be over
    21, so the value is the best one a blackjack hand can have. *)
Theorem hand_value_is_best (cs : list Card) :
  let h := hand_of cs in
  cards h = cs ∧
  0 <= aces h <= count_aces cs ∧
  value h = face_total cs - 10 * (count_aces cs - aces h) ∧
  (value h <= 21 ∨ aces h = 0) ∧
  (aces h = count_aces cs ∨ 11 < value h).
Proof. exact (hand_of_spec cs). Qed.

End Hands.

(** ** More on the stock tracker *)

Section StatusEmbed.
Import RobloxTracker FeedRelations FeedSamples.

Lemma total_quantity_absent (n : string) (items : list Item) :
  existsb (named n) items = false → total_quantity n items = 0.
Proof.
  induction items as [| item items IH]; [reflexivity |].
  cbn [existsb total_quantity foldr]. intros H.
  apply orb_false_iff in H. destruct H as [H1 H2].
  rewrite H1. apply IH. exact H2.
Qed.

Lemma process_items_fold (n : string) (items : list Item) :
  ∀ m : gmap string Z,
    fold_left (λ processed item,
                 match name item with
                 | Some n =>
                     if PyStr.truthy n
                     then <[n := default 0 (processed !! n) + quantity item]> processed
                     else processed
                 | None => processed
                 end) items m !! n
    = if PyStr.truthy n && existsb (named n) items
      then Some (default 0 (m !! n) + total_quantity n items)
      else m !! n.
Proof.
  induction items as [| item items IH]; intros m.
  - cbn. rewrite andb_false_r. reflexivity.
  - cbn [fold_left existsb total_quantity foldr]. rewrite IH. clear IH.
    fold (total_quantity n items).
    destruct (name item) as [n' |] eqn:Hname.
    + destruct (decide (n' = n)) as [-> | Hne].
      * assert (Hn : named n item = true)
          by (unfold named; rewrite Hname; apply bool_decide_eq_true_2; reflexivity).
        rewrite Hn. cbn [orb].
        destruct (PyStr.truthy n) eqn:Ht; cbn [andb]; [| reflexivity].
        rewrite lookup_insert_eq. cbn [default]. unfold id.
        destruct (existsb (named n) items) eqn:Hex.
        -- apply (f_equal Some). lia.
        -- rewrite (total_quantity_absent n items Hex). apply (f_equal Some). lia.
      * assert (Hn : named n item = false)
          by (unfold named; rewrite Hname; apply bool_decide_eq_false_2; congruence).
        rewrite Hn. cbn [orb].
        destruct (PyStr.truthy n'); [| reflexivity].
        rewrite lookup_insert_ne by exact Hne. reflexivity.
    + assert (Hn : named n item = false)
        by (unfold named; rewrite Hname; apply bool_decide_eq_false_2; discriminate).
      rewrite Hn. reflexivity.
Qed.

Lemma process_items_lookup (items : list Item) (n : string) :
  _process_items items !! n =
    if PyStr.truthy n && existsb (named n) items
    then Some (total_quantity n items) else None.
Proof.
  unfold _process_items. rewrite process_items_fold. rewrite lookup_empty. cbn [default].
  destruct (PyStr.truthy n && existsb (named n) items); [apply (f_equal Some); lia | reflexivity].
Qed.

(** [_process_items] has one key for every non-empty name that an entry of
    the list carries, and no other; under it, the sum of the quantities of all
    the entries of that name. *)
Theorem process_items_sums (items : list Item) (n : string) :
  _process_items items !! n =
    if PyStr.truthy n && existsb (named n) items
    then Some (total_quantity n items) else None.
Proof. exact (process_items_lookup items n). Qed.

Lemma omap_length_le {A B} (f : A → option B) (l : list A) :
  (length (omap f l) ≤ length l)%nat.
Proof.
  induction l as [| x l IH]; [reflexivity |].
  cbn. destruct (f x); cbn; lia.
Qed.

Lemma entry_le_trans : Transitive entry_le.
Proof. intros a b c. unfold entry_le. apply str_le_trans. Qed.

Lemma entry_le_total : Total entry_le.
Proof. intros a b. unfold entry_le. apply str_le_total. Qed.

(** The fields of the status embed: at most one per category of ['seeds',
    'gear', 'eggs']; each has at least one line, its lines sorted by name with
    no name twice, and a line for a name exactly when an entry of the category
    carries that non-empty name, with the quantities of these entries added up. *)
Theorem stock_embed_fields (d : StockData) :
  (length (embed_fields (_build_stock_embed d)) ≤ 3)%nat ∧
  Forall (λ field,
            field.2 ≠ [] ∧
            StronglySorted entry_le field.2 ∧
            NoDup field.2.*1 ∧
            ∃ key, key ∈ ["seeds"; "gear"; "eggs"]%string ∧
              ∀ n q, (n, q) ∈ field.2 ↔
                     PyStr.truthy n = true ∧ existsb (named n) (get_items d key) = true ∧
                     q = total_quantity n (get_items d key))
         (embed_fields (_build_stock_embed d)).
Proof.
  unfold _build_stock_embed. cbn [embed_fields]. split.
  - etransitivity; [apply omap_length_le |]. reflexivity.
  - apply Forall_forall. intros [title lines] Hin.
    apply list_elem_of_omap in Hin. destruct Hin as (key & Hkey & Hfield).
    destruct (get_items d key) as [| item0 items0] eqn:Hitems; [discriminate |].
    rewrite <- Hitems in *.
    destruct (bool_decide (_process_items (get_items d key) = ∅)) eqn:Hempty;
      [discriminate |].
    apply bool_decide_eq_false in Hempty.
    destruct (lookup_assoc key CATEGORY_MAPPING) as [mapping |]; [| discriminate].
    injection Hfield as _ <-. cbn [snd].
    set (m := _process_items (get_items d key)) in *.
    assert (Hperm : merge_sort entry_le (map_to_list m) ≡ₚ map_to_list m)
      by apply merge_sort_Permutation.
    split; [| split; [| split]].
    + intros Hnil. rewrite Hnil in Hperm. symmetry in Hperm.
      apply Permutation_nil_r in Hperm. apply map_to_list_empty_iff in Hperm.
      apply Hempty. exact Hperm.
    + apply StronglySorted_merge_sort; [apply entry_le_trans | apply entry_le_total].
    + rewrite Hperm. apply NoDup_fst_map_to_list.
    + exists key. split; [exact Hkey |]. intros n q.
      rewrite Hperm, elem_of_map_to_list. unfold m.
      rewrite process_items_lookup.
      destruct (PyStr.truthy n); cbn [andb]; [| split; [discriminate | intros (H & _); discriminate]].
      destruct (existsb (named n) (get_items d key));
        [| split; [discriminate | intros (_ & H & _); discriminate]].
      split; [intros [= <-]; auto | intros (_ & _ & ->); reflexivity].
Qed.

End StatusEmbed.

Section Listener.
Import RobloxTracker FeedSamples.

Lemma handle_update_raises (dc : Discord) (d : StockData) (s : Store) :
  _handle_update dc d s = None →
  _generate_change_summary d = None.
Proof.
  unfold _handle_update.
  destruct (stock_channels (db s)); [discriminate |].
  destruct (_generate_change_summary d); [| reflexivity].
  destruct (channels_to_update dc _ s) as [channels s1].
  destruct channels; [discriminate |].
  destruct (gather dc _ _ _ s1). discriminate.
Qed.

(** A websocket message that arrives a second time changes nothing: the
    tracker and the store stay as the first delivery left them, so a snapshot
    that was announced is not announced again, and nothing reaches Discord.  A
    message whose update raised is the one exception to "handled once": its
    fingerprint was not kept, and the second delivery raises again. *)
Theorem websocket_message_twice (dc : Discord) (t : Tracker) (s : Store) (message : WsMessage) :
  let r := _process_websocket_message dc t s message in
  _process_websocket_message dc r.1.1 r.1.2 message = r.
Proof.
  cbv zeta. destruct message as [| [d |]]; cbn [_process_websocket_message]; [reflexivity | |].
  - cbn [last_data_hash].
    destruct (last_data_hash t) as [last |] eqn:Hlast.
    + destruct (String.eqb (_calculate_data_hash (Some d)) last) eqn:Heq; cbn [negb].
      * cbn [fst snd _process_websocket_message last_data_hash].
        rewrite Heq. reflexivity.
      * destruct (_handle_update dc d s) as [[s' results] |] eqn:Hupd.
        -- cbn [fst snd _process_websocket_message last_data_hash].
           rewrite String.eqb_refl. reflexivity.
        -- cbn [fst snd _process_websocket_message last_data_hash].
           rewrite Heq. cbn [negb]. rewrite Hupd. reflexivity.
    + cbn [fst snd _process_websocket_message last_data_hash].
      rewrite String.eqb_refl. reflexivity.
  - reflexivity.
Qed.

End Listener.

Section NotableRaises.
Import RobloxTracker FeedSamples.

Lemma casing_fold_raises (items : list Item) :
  ∀ m0, fold_left casing_step items (Some m0) = None ↔
        ∃ item, item ∈ items ∧ name item = None.
Proof.
  induction items as [| item items IH]; intros m0; cbn [fold_left].
  - split; [discriminate | intros (item & Hin & _); inversion Hin].
  - unfold casing_step at 2. destruct (name item) as [n |] eqn:Hname.
    + rewrite IH. split.
      * intros (x & Hin & Hx). exists x. split; [right; exact Hin | exact Hx].
      * intros (x & Hin & Hx). apply elem_of_cons in Hin. destruct Hin as [-> | Hin].
        -- congruence.
        -- exists x. split; assumption.
    + rewrite casing_fold_None. split; [| reflexivity].
      intros _. exists item. split; [left | exact Hname].
Qed.

Lemma notable_in_category_raises (d : StockData) (cat : string) (allow : list string) :
  notable_in_category d cat allow = None ↔
  (∃ item, item ∈ get_items d cat ∧ name item = None) ∧
  (∃ item n, item ∈ get_items d cat ∧ name item = Some n ∧ PyStr.truthy n = true ∧
             PyStr.lower n ∈ PyStr.lower <$> allow).
Proof.
  unfold notable_in_category. cbv zeta.
  set (current := (list_to_set (lowered_names (get_items d cat)) : gset string)
                    ∩ list_to_set (PyStr.lower <$> allow)).
  assert (Hcur : current ≠ ∅ ↔
                 ∃ item n, item ∈ get_items d cat ∧ name item = Some n ∧
                           PyStr.truthy n = true ∧ PyStr.lower n ∈ PyStr.lower <$> allow).
  { split.
    - intros Hne. apply set_choose_L in Hne. destruct Hne as (k & Hk).
      unfold current in Hk. apply elem_of_intersection in Hk. destruct Hk as [Hk1 Hk2].
      apply elem_of_list_to_set in Hk1. apply elem_of_list_to_set in Hk2.
      apply elem_of_lowered_names in Hk1. destruct Hk1 as (item & n & Hin & Hn & Ht & <-).
      exists item, n. auto.
    - intros (item & n & Hin & Hn & Ht & Hallow) Hempty.
      assert (Hk : PyStr.lower n ∈ current).
      { unfold current. apply elem_of_intersection. split; apply elem_of_list_to_set.
        - apply elem_of_lowered_names. exists item, n. auto.
        - exact Hallow. }
      rewrite Hempty in Hk. apply elem_of_empty in Hk. exact Hk. }
  destruct (bool_decide (current = ∅)) eqn:Hempty.
  - apply bool_decide_eq_true in Hempty. split; [discriminate |].
    intros (_ & Hex). apply Hcur in Hex. contradiction.
  - apply bool_decide_eq_false in Hempty. apply Hcur in Hempty.
    destruct (original_casing_map (get_items d cat)) as [casing |] eqn:Hcasing.
    + split.
      * destruct (PyStr.sorted _); discriminate.
      * intros (Hnone & _). apply (casing_fold_raises _ ∅) in Hnone.
        unfold original_casing_map in Hcasing. congruence.
    + split; [| reflexivity]. intros _. split; [| exact Hempty].
      apply (casing_fold_raises _ ∅). exact Hcasing.
Qed.

Lemma notable_fold_raises (d : StockData) (l : list (string * (list string * string))) :
  ∀ acc, fold_left (notable_step d) l (Some acc) = None ↔
         ∃ e, e ∈ l ∧ notable_in_category d e.1 e.2.1 = None.
Proof.
  induction l as [| e l IH]; intros acc; cbn [fold_left].
  - split; [discriminate | intros (e & Hin & _); inversion Hin].
  - unfold notable_step at 2.
    destruct (notable_in_category d e.1 e.2.1) as [[names |] |] eqn:He.
    + rewrite IH. split.
      * intros (x & Hin & Hx). exists x. split; [right; exact Hin | exact Hx].
      * intros (x & Hin & Hx). apply elem_of_cons in Hin. destruct Hin as [-> | Hin].
        -- congruence.
        -- exists x. split; assumption.
    + rewrite IH. split.
      * intros (x & Hin & Hx). exists x. split; [right; exact Hin | exact Hx].
      * intros (x & Hin & Hx). apply elem_of_cons in Hin. destruct Hin as [-> | Hin].
        -- congruence.
        -- exists x. split; assumption.
    + rewrite notable_fold_None. split; [| reflexivity].
      intros _. exists e. split; [left | exact He].
Qed.

(** [_get_notable_items], and with it [_generate_change_summary] and the
    whole update, raises exactly when a category of the allow-list table holds
    both an entry without a name and a named entry that is on the category's
    allow-list: the entry without a name is skipped while the names are
    collected, and read only once a notable item has been found. *)
Theorem notable_items_raises (d : StockData) :
  (_get_notable_items d = None ↔
   ∃ category allow display,
     (category, (allow, display)) ∈ NOTABLE_MAP ∧
     (∃ item, item ∈ get_items d category ∧ name item = None) ∧
     (∃ item n, item ∈ get_items d category ∧ name item = Some n ∧
                PyStr.truthy n = true ∧ PyStr.lower n ∈ PyStr.lower <$> allow)) ∧
  (_generate_change_summary d = None ↔ _get_notable_items d = None).
Proof.
  split.
  - unfold _get_notable_items. rewrite notable_fold_raises. split.
    + intros ([category [allow display]] & Hin & Hraise).
      exists category, allow, display. split; [exact Hin |].
      apply notable_in_category_raises. exact Hraise.
    + intros (category & allow & display & Hin & Hraise).
      exists (category, (allow, display)). split; [exact Hin |].
      apply notable_in_category_raises. exact Hraise.
  - unfold _generate_change_summary.
    destruct (_get_notable_items d) as [m |]; [| split; reflexivity].
    destruct (bool_decide (m = ∅)); split; discriminate.
Qed.

End NotableRaises.

Section Tracking.
Import RobloxTracker FeedSamples.

(** [update_status_message], the [try] block of [_update_channel]: when it
    returns, exactly one message went out to the channel, carrying the embed,
    and the message the channel's row then names is that message: the tracked
    one, edited, or a new one, sent and filed.  When it raises, nothing went
    out.  The rows of the other channels are never touched. *)
Theorem status_message_tracked (dc : Discord) (channel : Channel) (embed : Embed) (s : Store) :
  let r := update_status_message dc channel embed s in
  let c := channel_id channel in
  match r.2 with
  | None =>
      ∃ m, stock_status_messages (db r.1) !! c = Some m ∧
           (actions r.1 = actions s ++ [EditMessage c m embed]
            ∨ actions r.1 = actions s ++ [SendEmbed c embed m])
  | Some _ => actions r.1 = actions s
  end ∧
  (∀ c', c' ≠ c → stock_status_messages (db r.1) !! c' = stock_status_messages (db s) !! c') ∧
  bot_config (db r.1) = bot_config (db s).
Proof.
  cbv zeta. unfold update_status_message.
  unfold truthy_id.
  destruct (stock_status_messages (db s) !! channel_id channel) as [mid |] eqn:Hrow.
  - destruct (mid =? 0) eqn:Hzero.
    + destruct (send_embed (api dc (channel_id channel))) as [e | new]; cbn.
      * auto.
      * split; [| split; [| reflexivity]].
        -- exists new. rewrite lookup_insert_eq. auto.
        -- intros c' Hc'. rewrite lookup_insert_ne by congruence. reflexivity.
    + destruct (fetch_message (api dc (channel_id channel)) mid) as [e |].
      * destruct (is_NotFound_or_Forbidden e).
        -- destruct (send_embed (api dc (channel_id channel))) as [e' | new]; cbn.
           ++ split; [reflexivity |]. split; [| reflexivity].
              intros c' Hc'. rewrite lookup_delete_ne by congruence. reflexivity.
           ++ split; [| split; [| reflexivity]].
              ** exists new. rewrite lookup_insert_eq. auto.
              ** intros c' Hc'. rewrite lookup_insert_ne by congruence.
                 rewrite lookup_delete_ne by congruence. reflexivity.
        -- cbn. auto.
      * destruct (edit_message (api dc (channel_id channel)) mid) as [e |]; cbn.
        -- auto.
        -- split; [| auto]. exists mid. rewrite Hrow. auto.
  - destruct (send_embed (api dc (channel_id channel))) as [e | new]; cbn.
    + auto.
    + split; [| split; [| reflexivity]].
      * exists new. rewrite lookup_insert_eq. auto.
      * intros c' Hc'. rewrite lookup_insert_ne by congruence. reflexivity.
Qed.

Ltac track_tac :=
  cbn; rewrite ?app_nil_r, <- ?app_assoc; repeat split; eauto 8.

(** [_send_notification]: an alert that is sent is filed as the channel's
    last alert; when none is sent, whether because Discord refused it or
    because deleting the old one raised, the row stays as it was.  At most one
    alert is sent and at most one deleted, the deleted one being the one the
    row named; the rows of the other channels and the status messages are
    never touched. *)
Theorem notification_tracked (dc : Discord) (channel : Channel) (change_summary : string)
        (s : Store) :
  let r := _send_notification dc channel change_summary s in
  let c := channel_id channel in
  ∃ deleted sent,
    actions r.1 = actions s ++ deleted ++ sent ∧
    (deleted = [] ∨ ∃ old, bot_config (db s) !! c = Some old ∧ old ≠ 0 ∧
                           deleted = [DeleteMessage c old]) ∧
    (sent = [] ∧ bot_config (db r.1) = bot_config (db s)
     ∨ ∃ new, sent = [SendContent c (_get_ping_settings (db s) (guild_id channel))
                                  change_summary new] ∧
              r.2 = None ∧
              bot_config (db r.1) = <[c := new]> (bot_config (db s))) ∧
    stock_status_messages (db r.1) = stock_status_messages (db s).
Proof.
  cbv zeta. unfold _send_notification. unfold truthy_id.
  pose (alert new := SendContent (channel_id channel)
                       (_get_ping_settings (db s) (guild_id channel)) change_summary new).
  destruct (bot_config (db s) !! channel_id channel) as [old |] eqn:Hrow.
  - destruct (old =? 0) eqn:Hzero.
    + destruct (send_content (api dc (channel_id channel))) as [e | new].
      * exists [], []. destruct (is_HTTPException e); track_tac.
      * exists [], [alert new]. track_tac.
    + apply Z.eqb_neq in Hzero.
      destruct (fetch_message (api dc (channel_id channel)) old) as [e |].
      * destruct (is_NotFound_or_Forbidden e).
        -- destruct (send_content (api dc (channel_id channel))) as [e' | new].
           ++ exists [], []. destruct (is_HTTPException e'); track_tac.
           ++ exists [], [alert new]. track_tac.
        -- exists [], []. track_tac.
      * destruct (delete_message (api dc (channel_id channel)) old) as [e |].
        -- destruct (is_NotFound_or_Forbidden e).
           ++ destruct (send_content (api dc (channel_id channel))) as [e' | new].
              ** exists [], []. destruct (is_HTTPException e'); track_tac.
              ** exists [], [alert new]. track_tac.
           ++ exists [], []. track_tac.
        -- destruct (send_content (api dc (channel_id channel))) as [e' | new].
           ++ exists [DeleteMessage (channel_id channel) old], [].
              destruct (is_HTTPException e'); track_tac.
           ++ exists [DeleteMessage (channel_id channel) old], [alert new].
              track_tac.
  - destruct (send_content (api dc (channel_id channel))) as [e | new].
    + exists [], []. destruct (is_HTTPException e); track_tac.
    + exists [], [alert new]. track_tac.
Qed.

End Tracking.

Section QuietUpdate.
Import RobloxTracker DispatchRelations FeedSamples.

Lemma quiet_step_refl (s : Store) : quiet_step s s.
Proof. split; [exists []; rewrite app_nil_r; auto | reflexivity]. Qed.

Lemma quiet_step_trans (s1 s2 s3 : Store) :
  quiet_step s1 s2 → quiet_step s2 s3 → quiet_step s1 s3.
Proof.
  intros [(l1 & H1 & F1) C1] [(l2 & H2 & F2) C2]. split.
  - exists (l1 ++ l2). rewrite H2, H1, app_assoc. split; [reflexivity |].
    apply Forall_app. auto.
  - congruence.
Qed.

Ltac quiet_tac :=
  split;
  [ first [ exists []; cbn; rewrite app_nil_r; split; [reflexivity | constructor]
          | eexists [_]; cbn; split; [reflexivity | repeat constructor] ]
  | reflexivity ].

Lemma update_status_message_quiet (dc : Discord) (ch : Channel) (embed : Embed) (s : Store) :
  quiet_step s (update_status_message dc ch embed s).1.
Proof.
  unfold update_status_message.
  destruct (truthy_id (stock_status_messages (db s) !! channel_id ch)) as [mid |].
  - destruct (fetch_message (api dc (channel_id ch)) mid) as [e |].
    + destruct (is_NotFound_or_Forbidden e).
      * destruct (send_embed (api dc (channel_id ch))) as [e' | new]; quiet_tac.
      * quiet_tac.
    + destruct (edit_message (api dc (channel_id ch)) mid) as [e |]; quiet_tac.
  - destruct (send_embed (api dc (channel_id ch))) as [e | new]; quiet_tac.
Qed.

Lemma update_channel_quiet (dc : Discord) (ch : Channel) (embed : Embed) (s : Store) :
  quiet_step s (_update_channel dc ch embed EmptyString s).1.
Proof.
  unfold _update_channel. cbn [PyStr.truthy String.eqb negb].
  pose proof (update_status_message_quiet dc ch embed s) as H.
  destruct (update_status_message dc ch embed s) as [s1 [e |]]; cbn [fst] in *;
    [| exact H].
  destruct (is_HTTPException e); exact H.
Qed.

Lemma gather_quiet (dc : Discord) (embed : Embed) (channels : list Channel) :
  ∀ s acc,
    quiet_step s (fold_left (gather_step dc embed EmptyString) channels (s, acc)).1.
Proof.
  induction channels as [| ch channels IH]; intros s acc; cbn [fold_left].
  - apply quiet_step_refl.
  - unfold gather_step at 2. cbn [fst snd].
    pose proof (update_channel_quiet dc ch embed s) as H.
    destruct (_update_channel dc ch embed EmptyString s) as [s1 result]. cbn [fst] in H.
    eapply quiet_step_trans; [exact H | apply IH].
Qed.

(** An update without a notable item alerts nobody: whatever the channels
    and whatever Discord answers, [_handle_update] returns, and all that it
    sends are status messages, edited or posted; no alert is sent, none is
    deleted, and the table of the last alerts stays as it is. *)
Theorem quiet_update_sends_no_alert (dc : Discord) (d : StockData) (s : Store) :
  _get_notable_items d = Some ∅ →
  ∃ s' results sent,
    _handle_update dc d s = Some (s', results) ∧
    actions s' = actions s ++ sent ∧
    Forall is_status sent ∧
    bot_config (db s') = bot_config (db s).
Proof.
  intros Hnone.
  assert (Hsummary : _generate_change_summary d = Some EmptyString).
  { unfold _generate_change_summary. rewrite Hnone.
    rewrite bool_decide_eq_true_2 by reflexivity. reflexivity. }
  assert (Hgoal : ∃ s' results, _handle_update dc d s = Some (s', results) ∧ quiet_step s s').
  { unfold _handle_update.
    destruct (stock_channels (db s)) as [| id ids] eqn:Hids.
    - eexists _, _. split; [reflexivity |]. quiet_tac.
    - rewrite Hsummary.
      destruct (channels_to_update_fold dc (id :: ids) [] s) as (_ & Hdb & Hact & _).
      fold (channels_to_update dc (id :: ids) s) in Hdb, Hact.
      destruct (channels_to_update dc (id :: ids) s) as [channels s1]. cbn [snd] in Hdb, Hact.
      assert (H1 : quiet_step s s1).
      { split; [exists []; rewrite app_nil_r; auto | rewrite Hdb; reflexivity]. }
      destruct channels as [| ch channels].
      + eexists _, _. split; [reflexivity | exact H1].
      + pose proof (gather_quiet dc (_build_stock_embed d) (ch :: channels) s1 []) as H2.
        fold (gather dc (_build_stock_embed d) EmptyString (ch :: channels) s1) in H2.
        destruct (gather dc (_build_stock_embed d) EmptyString (ch :: channels) s1)
          as [s2 results]. cbn [fst] in H2.
        eexists _, _. split; [reflexivity |].
        eapply quiet_step_trans; [exact H1 |]. eapply quiet_step_trans; [exact H2 |].
        destruct (log_failures_fold (zip (ch :: channels) results) s2) as (Hdb3 & Hact3 & _).
        fold (log_failures (ch :: channels) results s2) in Hdb3, Hact3.
        split; [exists []; rewrite app_nil_r; auto | rewrite Hdb3; reflexivity]. }
  destruct Hgoal as (s' & results & Hrun & (sent & Hsent & Hall) & Hcfg).
  exists s', results, sent. auto.
Qed.

Lemma quiet_update_sends_no_alert_witness :
  ∃ s' results sent,
    _handle_update one_destination snapshot_empty store0 = Some (s', results) ∧
    actions s' = actions store0 ++ sent ∧
    Forall is_status sent ∧
    bot_config (db s') = bot_config (db store0).
Proof.
  apply (quiet_update_sends_no_alert one_destination snapshot_empty store0).
  vm_compute. reflexivity.
Defined.

End QuietUpdate.

(** ** The dealer's turn and the bet of Blackjack *)

Section DealerTurn.
Import DatabaseManager GameUtils Dealing Blackjack TableSamples.

Lemma hand_of_snoc (cs : list Card) (c : Card) :
  hand_of (cs ++ [c]) = add_card (hand_of cs) c.
Proof. unfold hand_of. rewrite fold_left_app. reflexivity. Qed.

Lemma card_hard_value (c : Card) :
  1 <= card_value c - 10 * (if is_ace (rank c) then 1 else 0) <= 10.
Proof. unfold card_value. destruct (rank c); simpl; lia. Qed.

(** The total of a hand with every ace counted as 1. *)
Lemma hard_total_nonneg (cs : list Card) : 0 <= face_total cs - 10 * count_aces cs.
Proof.
  induction cs as [| c cs IH] using rev_ind; [cbn; lia |].
  rewrite face_total_app, count_aces_app.
  pose proof (card_hard_value c). lia.
Qed.

Lemma dealer_draw_bound (cs : list Card) (c : Card) :
  value (hand_of cs) < 17 → value (hand_of (cs ++ [c])) <= 26.
Proof.
  intros Hlow.
  pose proof (hand_of_spec cs) as H. pose proof (hand_of_spec (cs ++ [c])) as H'.
  cbv zeta in H, H'. rewrite face_total_app, count_aces_app in H'.
  pose proof (card_hard_value c). lia.
Qed.

Lemma dealer_turn_spec (deck : list Card) :
  ∀ cs,
    17 - (face_total cs - 10 * count_aces cs) <= Z.of_nat (length deck) →
    ∃ drawn rest,
      deck = drawn ++ rest ∧
      dealer_turn deck (hand_of cs) = Some (hand_of (cs ++ drawn), rest) ∧
      17 <= value (hand_of (cs ++ drawn)) ∧
      (drawn = [] ∨ value (hand_of (cs ++ drawn)) <= 26) ∧
      (17 <= value (hand_of cs) → drawn = []).
Proof.
  induction deck as [| c deck IH]; intros cs Hlen.
  - pose proof (hand_of_spec cs) as H. cbv zeta in H.
    assert (Hv : 17 <= value (hand_of cs)) by (cbn [length] in Hlen; lia).
    exists [], []. cbn [dealer_turn app]. rewrite !app_nil_r.
    rewrite (proj2 (Z.ltb_ge _ _) Hv). auto 8.
  - cbn [dealer_turn]. destruct (value (hand_of cs) <? 17) eqn:Hlow.
    + apply Z.ltb_lt in Hlow.
      destruct (IH (cs ++ [c])) as (drawn & rest & Hdeck & Hrun & Hv & Hup & _).
      { rewrite face_total_app, count_aces_app.
        pose proof (card_hard_value c). cbn [length] in Hlen. lia. }
      exists (c :: drawn), rest.
      rewrite <- hand_of_snoc, Hrun, Hdeck.
      replace (cs ++ c :: drawn) with ((cs ++ [c]) ++ drawn)
        by (rewrite <- app_assoc; reflexivity).
      split; [reflexivity |]. split; [reflexivity |]. split; [exact Hv |].
      split; [| lia].
      right. destruct Hup as [-> | Hup]; [| exact Hup].
      rewrite app_nil_r. apply dealer_draw_bound. exact Hlow.
    + apply Z.ltb_ge in Hlow.
      exists [], (c :: deck). cbn [app]. rewrite !app_nil_r. auto 8.
Qed.

(** The dealer's turn in [stand] ends: with seventeen cards left to deal,
    whatever they are and whatever the dealer holds, the loop stops after
    drawing some of them, in order; the dealer then stands on 17 or more, on at
    most 26 if a card was drawn, and draws nothing when the hand is at 17
    already. *)
Theorem dealer_turn_stops (cs deck : list Card) :
  (17 ≤ length deck)%nat →
  ∃ drawn rest,
    deck = drawn ++ rest ∧
    dealer_turn deck (hand_of cs) = Some (hand_of (cs ++ drawn), rest) ∧
    17 <= value (hand_of (cs ++ drawn)) ∧
    (drawn = [] ∨ value (hand_of (cs ++ drawn)) <= 26) ∧
    (17 <= value (hand_of cs) → drawn = []).
Proof.
  intros Hlen. apply dealer_turn_spec.
  pose proof (hard_total_nonneg cs). lia.
Qed.

Lemma dealer_turn_stops_witness :
  ∃ drawn rest,
    drop 4 shoe = drawn ++ rest ∧
    dealer_turn (drop 4 shoe) (hand_of [card R6; card A])
      = Some (hand_of ([card R6; card A] ++ drawn), rest) ∧
    17 <= value (hand_of ([card R6; card A] ++ drawn)) ∧
    (drawn = [] ∨ value (hand_of ([card R6; card A] ++ drawn)) <= 26) ∧
    (17 <= value (hand_of [card R6; card A]) → drawn = []).
Proof.
  apply (dealer_turn_stops [card R6; card A] (drop 4 shoe)).
  cbn. lia.
Defined.

End DealerTurn.

Section BlackjackBet.
Import DatabaseManager GameUtils Dealing Blackjack TableSamples.

(** [/blackjack] takes the bet without looking at the balance: for a user
    with a profile and a row, on a healthy connection and a shoe of at least 21
    cards, the game always starts, and unless the first two cards make 21 and
    settle it at once, the balance is then the old one less the bet, below zero
    for a player who owned less than the bet.  A hand of 21 is settled on the
    spot as a blackjack and paid the bet and three halves of it. *)
Theorem blackjack_bet_unchecked (d : DB) (uid stake : Z) (shoe : list Card) :
  uid ∈ users d → is_Some (economy d !! uid) → (21 ≤ length shoe)%nat →
  ∃ g d',
    blackjack d uid stake shoe Admin.healthy = Some (Some g, d') ∧
    bet g = stake ∧
    (game_over g = false →
     get_user_balance d' uid = (get_user_balance d uid + inject_Z (- stake))%Q ∧
     ((get_user_balance d uid < inject_Z stake)%Q → (get_user_balance d' uid < 0)%Q)) ∧
    (game_over g = true →
     value (player_hand g) = 21 ∧
     get_user_balance d' uid =
       if 0 <? payout_map stake blackjack_
       then (get_user_balance d uid + inject_Z (- stake)
             + inject_Z (payout_map stake blackjack_))%Q
       else (get_user_balance d uid + inject_Z (- stake))%Q).
Proof.
  intros Hu Hrow Hlen. unfold blackjack. cbn [Admin.healthy Admin.e1 Admin.e2].
  destruct (get_user_balance_update_ok d uid (inject_Z (- stake)) Hu Hrow)
    as (Hbal & Husers & Hrow1).
  destruct (update_balance_ok d uid (inject_Z (- stake)) Hu) as (d1 & Hupd & _).
  rewrite Hupd in *. cbn [negb fst snd] in *.
  destruct shoe as [| c1 [| c2 [| c3 [| c4 rest]]]]; cbn [length] in Hlen; try lia.
  unfold start, __init__.
  cbn [deck player bet player_hand dealer_hand game_over].
  destruct (value (add_card (add_card empty_hand c1) c3) =? 21) eqn:H21.
  - apply Z.eqb_eq in H21. unfold stand.
    cbn [deck player bet player_hand dealer_hand game_over].
    destruct (dealer_turn_spec rest [c2; c4]) as (drawn & rest' & _ & Hrun & _).
    { pose proof (hard_total_nonneg [c2; c4]). lia. }
    change (hand_of [c2; c4]) with (add_card (add_card empty_hand c2) c4) in Hrun.
    rewrite Hrun. unfold end_game, stand_outcome.
    cbn [deck player bet player_hand dealer_hand game_over].
    eexists _, _. split; [reflexivity |].
    cbn [deck player bet player_hand dealer_hand game_over fst snd].
    split; [reflexivity |]. split; [discriminate |].
    intros _. split; [exact H21 |].
    destruct (0 <? payout_map stake blackjack_); [| exact Hbal].
    assert (Hu1 : uid ∈ users d1) by (rewrite Husers; exact Hu).
    destruct (get_user_balance_update_ok d1 uid
                (inject_Z (payout_map stake blackjack_)) Hu1 Hrow1) as (Hbal2 & _).
    rewrite Hbal2, Hbal. reflexivity.
  - eexists _, _. split; [reflexivity |].
    cbn [deck player bet player_hand dealer_hand game_over].
    split; [reflexivity |]. split; [| discriminate].
    intros _. split; [exact Hbal |].
    intros Hpoor. rewrite Hbal. rewrite inject_Z_opp. lra.
Qed.

Lemma blackjack_bet_unchecked_witness :
  ∃ g d',
    blackjack Samples.poor_db 7 100 shoe Admin.healthy = Some (Some g, d') ∧
    bet g = 100 ∧
    (game_over g = false →
     get_user_balance d' 7 = (get_user_balance Samples.poor_db 7 + inject_Z (- 100))%Q ∧
     ((get_user_balance Samples.poor_db 7 < inject_Z 100)%Q → (get_user_balance d' 7 < 0)%Q)) ∧
    (game_over g = true →
     value (player_hand g) = 21 ∧
     get_user_balance d' 7 =
       if 0 <? payout_map 100 blackjack_
       then (get_user_balance Samples.poor_db 7 + inject_Z (- 100)
             + inject_Z (payout_map 100 blackjack_))%Q
       else (get_user_balance Samples.poor_db 7 + inject_Z (- 100))%Q).
Proof.
  apply (blackjack_bet_unchecked Samples.poor_db 7 100 shoe).
  - apply (bool_decide_unpack _). vm_compute. exact I.
  - exists (mkRow 10 0 0). reflexivity.
  - cbn. lia.
Defined.

End BlackjackBet.

(** ** The daily reward as a command *)

Section DailyCommand.
Import DatabaseManager Economy Daily TableSamples.

Lemma add_or_update_user_known (d : DB) (uid : Z) :
  uid ∈ users d → is_Some (economy d !! uid) →
  (add_or_update_user d uid false).2 = d.
Proof.
  intros Hu [r Hr]. unfold add_or_update_user. cbn [snd]. rewrite Hr.
  destruct d as [us eco]. cbn in *. f_equal.
  apply subseteq_union_1_L. apply singleton_subseteq_l. exact Hu.
Qed.

(** Two [/daily] of one user on one day, the second entered when the first
    has run to its end: on a healthy connection, whatever the first one
    answers, the second is turned down with "Bạn đã điểm danh hôm nay rồi" and
    leaves the ledger and the table of claims as the first one left them. *)
Lemma daily_twice_in_a_row (DAILY_REWARD MAX_STREAK_MULTIPLIER : Z) (d : DB) (claims : Claims)
        (uid today : Z) :
  let r := daily DAILY_REWARD MAX_STREAK_MULTIPLIER d claims uid today Admin.healthy in
  daily DAILY_REWARD MAX_STREAK_MULTIPLIER r.1.1 r.1.2 uid today Admin.healthy
    = (r.1.1, r.1.2, AlreadyClaimed).
Proof.
  cbv zeta.
  destruct (add_or_update_user_registered d uid) as (Hu0 & Hrow0).
  assert (Hpaid : ∀ streak,
            let paid := update_balance (add_or_update_user d uid false).2 uid
                          (inject_Z (total (_calculate_reward DAILY_REWARD
                                              MAX_STREAK_MULTIPLIER streak))) false in
            paid.1 = true ∧ (add_or_update_user paid.2 uid false).2 = paid.2).
  { intros streak. cbv zeta.
    destruct (get_user_balance_update_ok _ uid
                (inject_Z (total (_calculate_reward DAILY_REWARD
                                    MAX_STREAK_MULTIPLIER streak))) Hu0 Hrow0)
      as (_ & Husers & Hrow1).
    destruct (update_balance_ok _ uid
                (inject_Z (total (_calculate_reward DAILY_REWARD
                                    MAX_STREAK_MULTIPLIER streak))) Hu0)
      as (d1 & Hupd & _).
    rewrite Hupd in *. cbn [fst snd] in *. split; [reflexivity |].
    apply add_or_update_user_known; [rewrite Husers; exact Hu0 | exact Hrow1]. }
  assert (Hclaimed : ∀ streak,
            daily DAILY_REWARD MAX_STREAK_MULTIPLIER
                  (update_balance (add_or_update_user d uid false).2 uid
                     (inject_Z (total (_calculate_reward DAILY_REWARD
                                         MAX_STREAK_MULTIPLIER streak))) false).2
                  (<[uid := (today, streak)]> claims) uid today Admin.healthy
            = ((update_balance (add_or_update_user d uid false).2 uid
                  (inject_Z (total (_calculate_reward DAILY_REWARD
                                      MAX_STREAK_MULTIPLIER streak))) false).2,
               <[uid := (today, streak)]> claims, AlreadyClaimed)).
  { intros streak. destruct (Hpaid streak) as (_ & Hsame). cbv zeta in Hsame.
    unfold daily at 1. cbn [Admin.healthy Admin.e1 Admin.e2 Admin.e3 Admin.e4].
    rewrite Hsame. unfold get_daily_claim_info. rewrite lookup_insert_eq.
    rewrite Z.eqb_refl. reflexivity. }
  assert (Hfirst : ∀ streak,
            (let '(success, db) :=
               update_balance (add_or_update_user d uid false).2 uid
                 (inject_Z (total (_calculate_reward DAILY_REWARD
                                     MAX_STREAK_MULTIPLIER streak))) false in
             if negb success then (db, claims, UpdateFailed)
             else (db, update_daily_claim claims uid today streak false,
                   Claimed (_calculate_reward DAILY_REWARD MAX_STREAK_MULTIPLIER streak) streak))
            = ((update_balance (add_or_update_user d uid false).2 uid
                  (inject_Z (total (_calculate_reward DAILY_REWARD
                                      MAX_STREAK_MULTIPLIER streak))) false).2,
               <[uid := (today, streak)]> claims,
               Claimed (_calculate_reward DAILY_REWARD MAX_STREAK_MULTIPLIER streak) streak)).
  { intros streak. destruct (Hpaid streak) as (Hok & _). cbv zeta in Hok.
    destruct (update_balance _ uid _ false) as [ok d1]. cbn [fst snd] in *.
    rewrite Hok. reflexivity. }
  set (r := daily DAILY_REWARD MAX_STREAK_MULTIPLIER d claims uid today Admin.healthy).
  assert (Hcases :
    (∃ current, claims !! uid = Some (today, current) ∧
                r = ((add_or_update_user d uid false).2, claims, AlreadyClaimed))
    ∨ ∃ streak,
        r = ((update_balance (add_or_update_user d uid false).2 uid
                (inject_Z (total (_calculate_reward DAILY_REWARD
                                    MAX_STREAK_MULTIPLIER streak))) false).2,
             <[uid := (today, streak)]> claims,
             Claimed (_calculate_reward DAILY_REWARD MAX_STREAK_MULTIPLIER streak) streak)).
  { unfold r, daily. cbn [Admin.healthy Admin.e1 Admin.e2 Admin.e3 Admin.e4].
    unfold get_daily_claim_info.
    destruct (claims !! uid) as [[last current] |];
      [destruct (last =? today) eqn:Htoday |].
    - left. exists current. apply Z.eqb_eq in Htoday. subst last. split; reflexivity.
    - right. destruct (last =? today - 1); eexists; apply Hfirst.
    - right. eexists. apply Hfirst. }
  clearbody r. destruct Hcases as [(current & Hclaim & ->) | (streak & ->)]; cbn [fst snd].
  - unfold daily. cbn [Admin.healthy Admin.e1 Admin.e2 Admin.e3 Admin.e4].
    rewrite (add_or_update_user_known _ uid Hu0 Hrow0).
    unfold get_daily_claim_info. rewrite Hclaim, Z.eqb_refl. reflexivity.
  - apply Hclaimed.
Qed.

Lemma daily_reward_paid (DAILY_REWARD MAX_STREAK_MULTIPLIER : Z) (d : DB)
        (claims : Claims) (uid today : Z) :
  (∀ streak, claims !! uid ≠ Some (today, streak)) →
  let streak := match claims !! uid with
                | Some (last, current) => if last =? today - 1 then current + 1 else 1
                | None => 1
                end in
  let reward := _calculate_reward DAILY_REWARD MAX_STREAK_MULTIPLIER streak in
  let r := daily DAILY_REWARD MAX_STREAK_MULTIPLIER d claims uid today Admin.healthy in
  r.2 = Claimed reward streak ∧
  r.1.2 = <[uid := (today, streak)]> claims ∧
  get_user_balance r.1.1 uid = (get_user_balance d uid + inject_Z (total reward))%Q ∧
  ∀ u, u ≠ uid → get_user_balance r.1.1 u = get_user_balance d u.
Proof.
  intros Hnot. cbv zeta.
  destruct (add_or_update_user_registered d uid) as (Hu0 & Hrow0).
  assert (Hstreak : ∀ streak,
    let reward := _calculate_reward DAILY_REWARD MAX_STREAK_MULTIPLIER streak in
    let r : DB * Claims * Reply :=
      let '(success, db) :=
        update_balance (add_or_update_user d uid false).2 uid
                       (inject_Z (total reward)) false in
      if negb success then (db, claims, UpdateFailed)
      else (db, update_daily_claim claims uid today streak false, Claimed reward streak) in
    r.2 = Claimed reward streak ∧
    r.1.2 = <[uid := (today, streak)]> claims ∧
    get_user_balance r.1.1 uid = (get_user_balance d uid + inject_Z (total reward))%Q ∧
    ∀ u, u ≠ uid → get_user_balance r.1.1 u = get_user_balance d u).
  { intros streak. cbv zeta.
    pose proof (get_user_balance_update_ok _ uid
                  (inject_Z (total (_calculate_reward DAILY_REWARD
                                      MAX_STREAK_MULTIPLIER streak))) Hu0 Hrow0) as (Hbal & _).
    pose proof (λ u, get_user_balance_update_other (add_or_update_user d uid false).2 uid u
                  (inject_Z (total (_calculate_reward DAILY_REWARD
                                      MAX_STREAK_MULTIPLIER streak))) false) as Hother.
    destruct (update_balance_ok _ uid
                (inject_Z (total (_calculate_reward DAILY_REWARD
                                    MAX_STREAK_MULTIPLIER streak))) Hu0) as (d1 & Hupd & _).
    rewrite Hupd in *. cbn [negb fst snd] in *.
    split; [reflexivity |]. split; [reflexivity |].
    split.
    - rewrite Hbal. rewrite add_or_update_user_balance. reflexivity.
    - intros u Hne. rewrite (Hother u Hne). apply add_or_update_user_balance. }
  unfold daily. cbn [Admin.healthy Admin.e1 Admin.e2 Admin.e3 Admin.e4].
  unfold get_daily_claim_info.
  destruct (claims !! uid) as [[last current] |] eqn:Hclaim.
  - destruct (last =? today) eqn:Htoday.
    + apply Z.eqb_eq in Htoday. subst last. exfalso. exact (Hnot current eq_refl).
    + destruct (last =? today - 1); apply Hstreak.
  - apply Hstreak.
Qed.

(** What a successful [/daily] pays: on a healthy connection, a user whose
    last claim was the day before goes on with the streak, one day longer, and
    any other user who has not claimed today starts a streak of one day; the
    balance grows by the reward of that streak, and the claim is filed under
    today with that streak.  Users never seen before are registered on the way
    and paid like the others. *)
Theorem daily_pays_streak_reward (DAILY_REWARD MAX_STREAK_MULTIPLIER : Z) (d : DB)
        (claims : Claims) (uid today : Z) :
  (∀ streak, claims !! uid ≠ Some (today, streak)) →
  let streak := match claims !! uid with
                | Some (last, current) => if last =? today - 1 then current + 1 else 1
                | None => 1
                end in
  let reward := _calculate_reward DAILY_REWARD MAX_STREAK_MULTIPLIER streak in
  let r := daily DAILY_REWARD MAX_STREAK_MULTIPLIER d claims uid today Admin.healthy in
  r.2 = Claimed reward streak ∧
  r.1.2 = <[uid := (today, streak)]> claims ∧
  get_user_balance r.1.1 uid = (get_user_balance d uid + inject_Z (total reward))%Q ∧
  ∀ u, u ≠ uid → get_user_balance r.1.1 u = get_user_balance d u.
Proof. exact (daily_reward_paid DAILY_REWARD MAX_STREAK_MULTIPLIER d claims uid today). Qed.

Lemma daily_pays_streak_reward_witness :
  let streak := match claims !! 7 with
                | Some (last, current) => if last =? 19001 - 1 then current + 1 else 1
                | None => 1
                end in
  let reward := _calculate_reward 100 5 streak in
  let r := daily 100 5 Samples.bank claims 7 19001 Admin.healthy in
  r.2 = Claimed reward streak ∧
  r.1.2 = <[7 := (19001, streak)]> claims ∧
  get_user_balance r.1.1 7 = (get_user_balance Samples.bank 7 + inject_Z (total reward))%Q ∧
  ∀ u, u ≠ 7 → get_user_balance r.1.1 u = get_user_balance Samples.bank u.
Proof.
  apply (daily_pays_streak_reward 100 5 Samples.bank claims 7 19001).
  intros streak. vm_compute. intros H. discriminate H.
Defined.

End DailyCommand.

(** ** Handlers suspended at an await *)

Section Stretches.
Import DatabaseManager CrashGameInstance Crash Economy Suspended.

(** The handlers of the earlier sections are their stretches run one after
    the other with nothing in between. *)
Lemma add_player_stretches (g : Game) (d : DB) (uid b : Z) (err : bool) :
  add_player g d uid b err =
    match add_player_tests g uid with
    | Some r => (g, d, [Followup uid r])
    | None =>
        let '(ok, d') := update_balance d uid (inject_Z (- b)) err in
        let '(g', fx) := add_player_resume g uid b ok in
        (g', d', fx)
    end.
Proof.
  unfold add_player, add_player_tests, add_player_resume.
  destruct (negb (is_betting_open g)); [reflexivity |].
  destruct (bool_decide (is_Some (players g !! uid))); [reflexivity |].
  destruct (bool_decide (MAX_PLAYERS ≤ size (players g))%nat); [reflexivity |].
  destruct (update_balance d uid (inject_Z (- b)) err) as [[] d']; reflexivity.
Qed.

Lemma coinflip_stretches (d : DB) (uid amount : Z) (side result : Coinflip.Side)
      (err : Admin.Errors) :
  Coinflip.coinflip d uid amount side result err =
    if coinflip_check d uid amount (Admin.e1 err)
    then coinflip_settle (coinflip_debit d uid amount (Admin.e2 err)) uid amount side result
                         (Admin.e3 err) (Admin.e4 err)
    else (d, Coinflip.NotEnough amount).
Proof.
  unfold Coinflip.coinflip, coinflip_check, coinflip_settle, coinflip_debit.
  destruct (Qlt_bool _ _); reflexivity.
Qed.

Lemma eco_remove_stretches (d : DB) (uid amount : Z) (err : Admin.Errors) :
  Admin.eco_remove d uid amount err =
    let '(d', current_balance, goes_on) :=
      eco_remove_check d uid amount (Admin.e1 err) (Admin.e2 err) in
    if goes_on then eco_remove_debit d' uid amount (Admin.e3 err) (Admin.e4 err)
    else (d', Admin.OnlyHas current_balance (inject_Z amount)).
Proof.
  unfold Admin.eco_remove, eco_remove_check, eco_remove_debit.
  destruct (Qlt_bool _ _); reflexivity.
Qed.

Lemma daily_stretches (DAILY_REWARD MAX_STREAK_MULTIPLIER : Z) (d : DB)
      (claims : Daily.Claims) (uid today : Z) (err : Admin.Errors) :
  Daily.daily DAILY_REWARD MAX_STREAK_MULTIPLIER d claims uid today err =
    let '(d', streak) := daily_read d claims uid today (Admin.e1 err) (Admin.e2 err) in
    match streak with
    | None => (d', claims, Daily.AlreadyClaimed)
    | Some streak =>
        let '(d'', success) :=
          daily_pay DAILY_REWARD MAX_STREAK_MULTIPLIER d' uid streak (Admin.e3 err) in
        if negb success then (d'', claims, Daily.UpdateFailed)
        else (d'', daily_file claims uid today streak (Admin.e4 err),
              Daily.Claimed (Daily._calculate_reward DAILY_REWARD MAX_STREAK_MULTIPLIER streak)
                            streak)
    end.
Proof.
  unfold Daily.daily, daily_read, daily_pay, daily_file.
  destruct (match Daily.get_daily_claim_info claims uid (Admin.e2 err) with
            | Some (last, current) => _
            | None => _
            end) as [streak |]; [| reflexivity].
  destruct (update_balance _ uid _ _) as [[] d'']; reflexivity.
Qed.

End Stretches.

Section JoinsInFlight.
Import DatabaseManager CrashGameInstance Crash Suspended Samples RaceSamples.

Lemma add_player_tests_pass (g : Game) (uid : Z) :
  is_betting_open g = true → players g !! uid = None →
  (size (players g) < MAX_PLAYERS)%nat →
  add_player_tests g uid = None.
Proof.
  intros Hopen Hnone Hsize. unfold add_player_tests. rewrite Hopen, Hnone. cbn [negb].
  rewrite bool_decide_eq_false_2 by (intros [p Hp]; discriminate).
  rewrite bool_decide_eq_false_2 by lia. reflexivity.
Qed.

(** C4.  A join that has passed its tests is not tested again.  On a round
    whose betting is open, a user who has not joined yet, has a profile, and
    finds the round not full enters [add_player]; the call passes its three
    tests and waits for the ledger.  [lock_bets] runs in the meantime: betting
    is closed, the phase is no longer Betting, and the join is still waiting.
    The ledger then answers, and [add_player] goes on where it was: the
    player is added to the players map of the round, the bet is taken from the
    balance, and the answer is "You have joined the game", not "The betting
    phase is over.". *)
Theorem join_in_flight_admitted_after_lock (g : Game) (d : DB) (uid b : Z) (t : Q) :
  is_betting_open g = true → players g !! uid = None →
  (size (players g) < MAX_PLAYERS)%nat → uid ∈ users d →
  let s1 := run (mkState g d [] []) [JoinTests uid; Timeout t] in
  let s2 := step s1 (JoinResume uid b false) in
  (is_betting_open (round s1) = false ∧ phase (round s1) ≠ Betting ∧
   awaiting s1 = [uid] ∧ players (round s1) = players g ∧ ledger s1 = d) ∧
  (is_betting_open (round s2) = false ∧ phase (round s2) ≠ Betting ∧
   players (round s2) = <[uid := mkPlayer b uid None]> (players g) ∧
   update_balance d uid (inject_Z (- b)) false = (true, ledger s2) ∧
   (∀ r, economy d !! uid = Some r →
         ∃ r', economy (ledger s2) !! uid = Some r' ∧
               balance r' = (balance r + inject_Z (- b))%Q) ∧
   sent s2 = sent s1 ++ Followup uid (JoinedWithBet b)
                        :: _update_player_list_embed (round s2)).
Proof.
  intros Hopen Hnone Hsize Hu. cbv zeta.
  cbn [run fold_left step round ledger awaiting sent].
  rewrite (add_player_tests_pass g uid Hopen Hnone Hsize).
  cbn [round ledger awaiting sent app].
  destruct (lock_bets_begin_frame t g) as (Hp & _ & Hclosed).
  destruct (lock_bets_begin t g) as [g1 fx1]. cbn [fst] in Hp, Hclosed.
  cbn [round ledger awaiting sent].
  assert (Hphase : ∀ g', is_betting_open g' = false → phase g' ≠ Betting).
  { intros g' H. unfold phase. rewrite H.
    destruct (is_running g'); [discriminate |].
    destruct (bool_decide _); discriminate. }
  split.
  - split; [exact Hclosed |]. split; [apply Hphase; exact Hclosed |]. auto.
  - rewrite bool_decide_eq_true_2 by (apply list_elem_of_singleton; reflexivity).
    destruct (update_balance_ok d uid (inject_Z (- b)) Hu) as (d2 & Hupd & _ & Hbal & _).
    rewrite Hupd. unfold add_player_resume. cbn [negb round ledger awaiting sent].
    cbn [is_betting_open set_players players].
    split; [exact Hclosed |]. split; [apply Hphase; exact Hclosed |].
    split; [rewrite Hp; reflexivity |]. split; [reflexivity |].
    split; [exact Hbal | reflexivity].
Qed.

Lemma join_in_flight_admitted_after_lock_witness :
  let s1 := run (mkState empty_round bank [] []) [JoinTests 7; Timeout 0] in
  let s2 := step s1 (JoinResume 7 100 false) in
  (is_betting_open (round s1) = false ∧ phase (round s1) ≠ Betting ∧
   awaiting s1 = [7] ∧ players (round s1) = players empty_round ∧ ledger s1 = bank) ∧
  (is_betting_open (round s2) = false ∧ phase (round s2) ≠ Betting ∧
   players (round s2) = <[7 := mkPlayer 100 7 None]> (players empty_round) ∧
   update_balance bank 7 (inject_Z (- 100)) false = (true, ledger s2) ∧
   (∀ r, economy bank !! 7 = Some r →
         ∃ r', economy (ledger s2) !! 7 = Some r' ∧
               balance r' = (balance r + inject_Z (- 100))%Q) ∧
   sent s2 = sent s1 ++ Followup 7 (JoinedWithBet 100)
                        :: _update_player_list_embed (round s2)).
Proof.
  apply (join_in_flight_admitted_after_lock empty_round bank 7 100 0).
  - reflexivity.
  - reflexivity.
  - vm_compute. lia.
  - apply (bool_decide_unpack _). vm_compute. exact I.
Defined.

(** The run of the witness, evaluated: nobody had joined, so the lock
    cancels the round with "Game Cancelled"; the join that was waiting is
    then admitted to the cancelled round, and the balance of 900 is 800. *)
Lemma join_in_flight_example :
  let s := run (mkState empty_round bank [] [])
               [JoinTests 7; Timeout 0; JoinResume 7 100 false] in
  phase (round s) = Settled ∧
  players (round s) !! 7 = Some (mkPlayer 100 7 None) ∧
  (get_user_balance (ledger s) 7 == 800)%Q ∧
  sent s = [EditCancelled; Followup 7 (JoinedWithBet 100); EditPlayerList [(7, 100)]].
Proof. cbv zeta. repeat split; vm_compute; reflexivity. Qed.

(** The joins of [uids] that have all passed their tests, resumed one after
    the other. *)
Lemma joins_resume (b : Z) (uids : list Z) :
  ∀ (g : Game) (d : DB) (out : list Effect),
    NoDup uids →
    (∀ u, u ∈ uids → players g !! u = None ∧ u ∈ users d) →
    let s := run (mkState g d uids out) ((λ u, JoinResume u b false) <$> uids) in
    awaiting s = [] ∧
    size (players (round s)) = (size (players g) + length uids)%nat ∧
    (∀ u, u ∈ uids → players (round s) !! u = Some (mkPlayer b u None)) ∧
    (∀ u, u ∉ uids → players (round s) !! u = players g !! u) ∧
    is_betting_open (round s) = is_betting_open g ∧
    users (ledger s) = users d.
Proof.
  induction uids as [| u uids IH]; intros g d out Hnd Hall; cbv zeta.
  - cbn. rewrite Nat.add_0_r. repeat split; try reflexivity.
    intros u Hu. inversion Hu.
  - apply NoDup_cons in Hnd. destruct Hnd as [Hu Hnd].
    destruct (Hall u ltac:(left)) as [Hnone Huser].
    cbn [fmap list_fmap run fold_left step round ledger awaiting sent].
    rewrite bool_decide_eq_true_2 by left.
    destruct (update_balance_ok d u (inject_Z (- b)) Huser) as (d' & Hupd & Husers & _).
    rewrite Hupd. unfold add_player_resume. cbn [negb remove_first].
    rewrite bool_decide_eq_true_2 by reflexivity.
    set (g' := set_players (insert u (mkPlayer b u None)) g).
    specialize (IH g' d' (out ++ Followup u (JoinedWithBet b) :: _update_player_list_embed g')
                  Hnd).
    cbv zeta in IH. unfold run in IH.
    destruct IH as (H1 & H2 & H3 & H4 & H5 & H6).
    { intros v Hv. destruct (Hall v ltac:(right; exact Hv)) as [Hvn Hvu].
      split; [| rewrite Husers; exact Hvu].
      unfold g'. cbn [players set_players].
      rewrite lookup_insert_ne by (intros ->; contradiction). exact Hvn. }
    split; [exact H1 |]. split; [| split; [| split; [| split]]].
    + rewrite H2. unfold g'. cbn [players set_players length].
      rewrite map_size_insert_None by exact Hnone. lia.
    + intros v Hv. apply elem_of_cons in Hv. destruct Hv as [-> | Hv]; [| apply H3; exact Hv].
      rewrite (H4 u Hu). unfold g'. cbn [players set_players].
      apply lookup_insert_eq.
    + intros v Hv. apply not_elem_of_cons in Hv. destruct Hv as [Hne Hv].
      rewrite (H4 v Hv). unfold g'. cbn [players set_players].
      apply lookup_insert_ne. congruence.
    + rewrite H5. reflexivity.
    + rewrite H6. exact Husers.
Qed.

(** As long as none has resumed, every join finds the round as it was. *)
Lemma joins_tests (g : Game) (d : DB) (uids : list Z) :
  ∀ (waiting : list Z) (out : list Effect),
    (∀ u, u ∈ uids → add_player_tests g u = None) →
    run (mkState g d waiting out) (JoinTests <$> uids) = mkState g d (waiting ++ uids) out.
Proof.
  induction uids as [| u uids IH]; intros waiting out Hall.
  - cbn. rewrite app_nil_r. reflexivity.
  - cbn [fmap list_fmap run fold_left step round ledger awaiting sent].
    rewrite (Hall u ltac:(left)).
    unfold run in IH. rewrite IH by (intros v Hv; apply Hall; right; exact Hv).
    rewrite <- app_assoc. reflexivity.
Qed.

(** [MAX_PLAYERS] holds back only the joins that find the round full when
    they are entered.  On a round whose betting is open and which is not full,
    any number of users with a profile who have not joined yet pass the test
    as long as none of their calls has resumed; when the ledger has answered
    them all, all of them are players of the round, which then holds more than
    [MAX_PLAYERS] players if they were more than the free places. *)
Theorem joins_in_flight_exceed_max_players (g : Game) (d : DB) (uids : list Z) (b : Z) :
  is_betting_open g = true →
  (size (players g) < MAX_PLAYERS)%nat →
  NoDup uids →
  (∀ u, u ∈ uids → players g !! u = None ∧ u ∈ users d) →
  let s := run (mkState g d [] [])
               ((JoinTests <$> uids) ++ ((λ u, JoinResume u b false) <$> uids)) in
  awaiting s = [] ∧
  is_betting_open (round s) = true ∧
  (∀ u, u ∈ uids → players (round s) !! u = Some (mkPlayer b u None)) ∧
  size (players (round s)) = (size (players g) + length uids)%nat ∧
  ((MAX_PLAYERS < size (players g) + length uids)%nat →
   (MAX_PLAYERS < size (players (round s)))%nat).
Proof.
  intros Hopen Hsize Hnd Hall. cbv zeta.
  unfold run. rewrite fold_left_app.
  fold (run (mkState g d [] []) (JoinTests <$> uids)).
  rewrite joins_tests.
  2: { intros u Hu. destruct (Hall u Hu) as [Hnone _].
       apply add_player_tests_pass; assumption. }
  cbn [app].
  destruct (joins_resume b uids g d [] Hnd Hall) as (H1 & H2 & H3 & _ & H5 & _).
  unfold run in H1, H2, H3, H5.
  split; [exact H1 |]. split; [rewrite H5; exact Hopen |].
  split; [exact H3 |]. split; [exact H2 |].
  intros Hmore. rewrite H2. exact Hmore.
Qed.

Lemma joins_in_flight_exceed_max_players_witness :
  let s := run (mkState empty_round crowd_db [] [])
               ((JoinTests <$> crowd) ++ ((λ u, JoinResume u 10 false) <$> crowd)) in
  awaiting s = [] ∧
  is_betting_open (round s) = true ∧
  (∀ u, u ∈ crowd → players (round s) !! u = Some (mkPlayer 10 u None)) ∧
  size (players (round s)) = (size (players empty_round) + length crowd)%nat ∧
  ((MAX_PLAYERS < size (players empty_round) + length crowd)%nat →
   (MAX_PLAYERS < size (players (round s)))%nat).
Proof.
  apply (joins_in_flight_exceed_max_players empty_round crowd_db crowd 10).
  - reflexivity.
  - vm_compute. lia.
  - apply NoDup_seqZ.
  - intros u Hu. split; [reflexivity |].
    unfold crowd_db. cbn [users]. apply elem_of_list_to_set. exact Hu.
Defined.

(** Twenty-one joins in flight on an empty round: twenty-one players. *)
Lemma joins_in_flight_example :
  size (players (round (run (mkState empty_round crowd_db [] [])
                            ((JoinTests <$> crowd)
                             ++ ((λ u, JoinResume u 10 false) <$> crowd))))) = 21%nat.
Proof. vm_compute. reflexivity. Qed.

End JoinsInFlight.

Section StaleReads.
Import DatabaseManager Economy Suspended Samples TableSamples.

(** A bet or an amount that the balance covers passes the test. *)
Lemma covered_passes (balance : Q) (amount : Z) :
  (inject_Z amount <= balance)%Q → Qlt_bool balance (inject_Z amount) = false.
Proof. intros H. apply Qlt_bool_false_iff. exact H. Qed.

Lemma balance_has_row (d : DB) (uid : Z) :
  (0 < get_user_balance d uid)%Q → is_Some (economy d !! uid).
Proof.
  unfold get_user_balance. destruct (economy d !! uid) as [r |]; [eauto |].
  intros H. exfalso. lra.
Qed.

(** The balance test of [/coinflip] guards only a command that no other
    command of the user overtakes.  Take two bets of one user, each covered
    by the balance but not both together.  When the second command is entered
    after the first has run to its end, the balance is not negative
    afterwards, however the coins fall.  When both commands have read the
    balance before either has taken its bet, both pass the test, both bets are
    taken, and the balance is negative, where it stays unless a coin wins. *)
Theorem coinflip_test_is_stale (d : DB) (uid a1 a2 : Z) :
  uid ∈ users d → is_Some (economy d !! uid) →
  1 <= a1 → 1 <= a2 →
  (inject_Z a1 <= get_user_balance d uid)%Q →
  (inject_Z a2 <= get_user_balance d uid)%Q →
  (get_user_balance d uid < inject_Z a1 + inject_Z a2)%Q →
  (∀ side1 result1 side2 result2,
     let first := Coinflip.coinflip d uid a1 side1 result1 Admin.healthy in
     let second := Coinflip.coinflip first.1 uid a2 side2 result2 Admin.healthy in
     (0 <= get_user_balance second.1 uid)%Q) ∧
  (coinflip_check d uid a1 false = true ∧
   coinflip_check d uid a2 false = true ∧
   let d2 := coinflip_debit (coinflip_debit d uid a1 false) uid a2 false in
   (get_user_balance d2 uid == get_user_balance d uid - inject_Z a1 - inject_Z a2)%Q ∧
   (get_user_balance d2 uid < 0)%Q ∧
   ∀ a side result e3 e4,
     Coinflip.Side_eqb result side = false →
     (coinflip_settle d2 uid a side result e3 e4).1 = d2).
Proof.
  intros Hu Hrow H1 H2 Hc1 Hc2 Hboth.
  assert (Hq1 : (1 <= inject_Z a1)%Q)
    by (change 1%Q with (inject_Z 1); rewrite <- Zle_Qle; exact H1).
  split.
  - intros side1 result1 side2 result2. cbv zeta.
    destruct (coinflip_alone d uid a1 side1 result1 Admin.healthy H1) as (Hpos1 & _);
      [lra |].
    destruct (coinflip_alone (Coinflip.coinflip d uid a1 side1 result1 Admin.healthy).1
                uid a2 side2 result2 Admin.healthy H2 Hpos1) as (Hpos2 & _).
    exact Hpos2.
  - unfold coinflip_check, get_user_balance_or_0.
    rewrite !covered_passes by assumption.
    split; [reflexivity |]. split; [reflexivity |]. cbv zeta.
    unfold coinflip_debit.
    destruct (get_user_balance_update_ok d uid (inject_Z (- a1)) Hu Hrow)
      as (Hb1 & Hu1 & Hrow1).
    rewrite <- Hu1 in Hu.
    destruct (get_user_balance_update_ok _ uid (inject_Z (- a2)) Hu Hrow1) as (Hb2 & _).
    rewrite Hb2, Hb1, !inject_Z_opp.
    split; [lra |]. split; [lra |].
    intros a side result e3 e4 Hlose. unfold coinflip_settle. rewrite Hlose. reflexivity.
Qed.

Lemma coinflip_test_is_stale_witness :
  (∀ side1 result1 side2 result2,
     let first := Coinflip.coinflip bank 7 600 side1 result1 Admin.healthy in
     let second := Coinflip.coinflip first.1 7 500 side2 result2 Admin.healthy in
     (0 <= get_user_balance second.1 7)%Q) ∧
  (coinflip_check bank 7 600 false = true ∧
   coinflip_check bank 7 500 false = true ∧
   let d2 := coinflip_debit (coinflip_debit bank 7 600 false) 7 500 false in
   (get_user_balance d2 7 == get_user_balance bank 7 - inject_Z 600 - inject_Z 500)%Q ∧
   (get_user_balance d2 7 < 0)%Q ∧
   ∀ a side result e3 e4,
     Coinflip.Side_eqb result side = false →
     (coinflip_settle d2 7 a side result e3 e4).1 = d2).
Proof.
  apply (coinflip_test_is_stale bank 7 600 500).
  - apply (bool_decide_unpack _). vm_compute. exact I.
  - exists (mkRow 900 0 100). reflexivity.
  - lia.
  - lia.
  - vm_compute. discriminate.
  - vm_compute. discriminate.
  - vm_compute. reflexivity.
Defined.

(** The same for [/eco_admin remove]: two amounts, each covered by the
    balance but not both together.  Run one after the other, the second
    command answers that the user only has what the first has left, and the
    balance is not negative.  When both have read the balance before either
    has taken its amount, both pass the test, both answer with a success, and
    the balance is negative. *)
Theorem eco_remove_test_is_stale (d : DB) (uid a1 a2 : Z) :
  1 <= a1 → 1 <= a2 →
  (inject_Z a1 <= get_user_balance d uid)%Q →
  (inject_Z a2 <= get_user_balance d uid)%Q →
  (get_user_balance d uid < inject_Z a1 + inject_Z a2)%Q →
  (let first := Admin.eco_remove d uid a1 Admin.healthy in
   let second := Admin.eco_remove first.1 uid a2 Admin.healthy in
   second.2 = Admin.OnlyHas (get_user_balance d uid + inject_Z (- a1))%Q (inject_Z a2) ∧
   get_user_balance second.1 uid = (get_user_balance d uid + inject_Z (- a1))%Q ∧
   (0 <= get_user_balance second.1 uid)%Q) ∧
  (let c1 := eco_remove_check d uid a1 false false in
   let c2 := eco_remove_check c1.1.1 uid a2 false false in
   let r1 := eco_remove_debit c2.1.1 uid a1 false false in
   let r2 := eco_remove_debit r1.1 uid a2 false false in
   c1.2 = true ∧ c2.2 = true ∧
   r1.2 = Admin.Removed (inject_Z a1) (get_user_balance d uid + inject_Z (- a1))%Q ∧
   r2.2 = Admin.Removed (inject_Z a2)
            (get_user_balance d uid + inject_Z (- a1) + inject_Z (- a2))%Q ∧
   get_user_balance r2.1 uid
     = (get_user_balance d uid + inject_Z (- a1) + inject_Z (- a2))%Q ∧
   (get_user_balance r2.1 uid < 0)%Q).
Proof.
  intros H1 H2 Hc1 Hc2 Hboth.
  assert (Hq1 : (1 <= inject_Z a1)%Q)
    by (change 1%Q with (inject_Z 1); rewrite <- Zle_Qle; exact H1).
  assert (Hq2 : (1 <= inject_Z a2)%Q)
    by (change 1%Q with (inject_Z 1); rewrite <- Zle_Qle; exact H2).
  split.
  - cbv zeta.
    destruct (eco_remove_alone d uid a1 Admin.healthy) as (Hpos1 & Hfirst); [lra |].
    specialize (Hfirst eq_refl). rewrite covered_passes in Hfirst by exact Hc1.
    destruct Hfirst as (_ & Hb1).
    destruct (eco_remove_alone (Admin.eco_remove d uid a1 Admin.healthy).1 uid a2
                Admin.healthy Hpos1) as (Hpos2 & Hsecond).
    specialize (Hsecond eq_refl). rewrite Hb1 in Hsecond.
    rewrite (proj2 (Qlt_bool_iff _ _)) in Hsecond by (rewrite inject_Z_opp; lra).
    destruct Hsecond as (Hans & Hb2).
    split; [exact Hans |]. split; [exact Hb2 | exact Hpos2].
  - cbv zeta. unfold eco_remove_check, get_user_balance_or_0. cbn [fst snd].
    destruct (add_or_update_user_registered d uid) as (Hu & Hrow).
    set (d0 := (add_or_update_user d uid false).2) in *.
    assert (Hb0 : get_user_balance d0 uid = get_user_balance d uid)
      by apply add_or_update_user_balance.
    rewrite (add_or_update_user_known d0 uid Hu Hrow).
    rewrite Hb0, !covered_passes by assumption.
    split; [reflexivity |]. split; [reflexivity |].
    unfold eco_remove_debit, get_user_balance_or_0.
    destruct (get_user_balance_update_ok d0 uid (inject_Z (- a1)) Hu Hrow)
      as (Hb1 & Hu1 & Hrow1).
    destruct (update_balance_ok d0 uid (inject_Z (- a1)) Hu) as (d1 & Hupd1 & _).
    rewrite Hupd1 in *. cbn [fst snd] in *.
    rewrite <- Hu1 in Hu.
    destruct (get_user_balance_update_ok d1 uid (inject_Z (- a2)) Hu Hrow1) as (Hb2 & _).
    destruct (update_balance_ok d1 uid (inject_Z (- a2)) Hu) as (d2 & Hupd2 & _).
    rewrite Hupd2 in *. cbn [fst snd] in *.
    rewrite Hb2, Hb1, Hb0.
    split; [reflexivity |]. split; [reflexivity |]. split; [reflexivity |].
    rewrite !inject_Z_opp. lra.
Qed.

Lemma eco_remove_test_is_stale_witness :
  (let first := Admin.eco_remove bank 7 600 Admin.healthy in
   let second := Admin.eco_remove first.1 7 500 Admin.healthy in
   second.2 = Admin.OnlyHas (get_user_balance bank 7 + inject_Z (- 600))%Q (inject_Z 500) ∧
   get_user_balance second.1 7 = (get_user_balance bank 7 + inject_Z (- 600))%Q ∧
   (0 <= get_user_balance second.1 7)%Q) ∧
  (let c1 := eco_remove_check bank 7 600 false false in
   let c2 := eco_remove_check c1.1.1 7 500 false false in
   let r1 := eco_remove_debit c2.1.1 7 600 false false in
   let r2 := eco_remove_debit r1.1 7 500 false false in
   c1.2 = true ∧ c2.2 = true ∧
   r1.2 = Admin.Removed (inject_Z 600) (get_user_balance bank 7 + inject_Z (- 600))%Q ∧
   r2.2 = Admin.Removed (inject_Z 500)
            (get_user_balance bank 7 + inject_Z (- 600) + inject_Z (- 500))%Q ∧
   get_user_balance r2.1 7
     = (get_user_balance bank 7 + inject_Z (- 600) + inject_Z (- 500))%Q ∧
   (get_user_balance r2.1 7 < 0)%Q).
Proof.
  apply (eco_remove_test_is_stale bank 7 600 500).
  - lia.
  - lia.
  - vm_compute. discriminate.
  - vm_compute. discriminate.
  - vm_compute. reflexivity.
Defined.

(** [/daily] pays once a day only to commands that do not overtake each
    other.  For a user who has not claimed today, on a healthy connection: a
    second [/daily] entered after the first has run to its end is turned down
    and changes nothing, so the day is paid once.  When both commands have
    read the claim before either has filed its own, both find no claim of
    today and the same streak, both rewards are paid, and the one row they
    both file says that today was claimed once. *)
Theorem daily_claim_read_is_stale (DAILY_REWARD MAX_STREAK_MULTIPLIER : Z) (d : DB)
        (claims : Daily.Claims) (uid today : Z) :
  (∀ streak, claims !! uid ≠ Some (today, streak)) →
  let streak := match claims !! uid with
                | Some (last, current) => if last =? today - 1 then current + 1 else 1
                | None => 1
                end in
  let paid := inject_Z (Daily.total (Daily._calculate_reward DAILY_REWARD
                                       MAX_STREAK_MULTIPLIER streak)) in
  (let first := Daily.daily DAILY_REWARD MAX_STREAK_MULTIPLIER d claims uid today
                            Admin.healthy in
   let second := Daily.daily DAILY_REWARD MAX_STREAK_MULTIPLIER first.1.1 first.1.2 uid today
                             Admin.healthy in
   second = (first.1.1, first.1.2, Daily.AlreadyClaimed) ∧
   get_user_balance second.1.1 uid = (get_user_balance d uid + paid)%Q) ∧
  (let r1 := daily_read d claims uid today false false in
   let r2 := daily_read r1.1 claims uid today false false in
   let p1 := daily_pay DAILY_REWARD MAX_STREAK_MULTIPLIER r2.1 uid streak false in
   let p2 := daily_pay DAILY_REWARD MAX_STREAK_MULTIPLIER p1.1 uid streak false in
   let filed := daily_file (daily_file claims uid today streak false) uid today streak false in
   r1.2 = Some streak ∧ r2.2 = Some streak ∧
   p1.2 = true ∧ p2.2 = true ∧
   get_user_balance p2.1 uid = (get_user_balance d uid + paid + paid)%Q ∧
   filed = <[uid := (today, streak)]> claims).
Proof.
  intros Hnot. cbv zeta. split.
  - split; [apply daily_twice_in_a_row |].
    rewrite daily_twice_in_a_row. cbn [fst snd].
    destruct (daily_reward_paid DAILY_REWARD MAX_STREAK_MULTIPLIER d claims
                uid today Hnot) as (_ & _ & Hbal & _).
    exact Hbal.
  - unfold daily_read, Daily.get_daily_claim_info. cbn [fst snd].
    destruct (add_or_update_user_registered d uid) as (Hu & Hrow).
    set (d0 := (add_or_update_user d uid false).2) in *.
    assert (Hb0 : get_user_balance d0 uid = get_user_balance d uid)
      by apply add_or_update_user_balance.
    rewrite (add_or_update_user_known d0 uid Hu Hrow).
    assert (Hstreak :
      match claims !! uid with
      | Some (last, current) =>
          if last =? today then None
          else if last =? today - 1 then Some (current + 1) else Some 1
      | None => Some 1
      end = Some (match claims !! uid with
                  | Some (last, current) => if last =? today - 1 then current + 1 else 1
                  | None => 1
                  end)).
    { destruct (claims !! uid) as [[last current] |] eqn:Hclaim; [| reflexivity].
      destruct (last =? today) eqn:Htoday.
      - apply Z.eqb_eq in Htoday. subst last. exfalso. exact (Hnot current eq_refl).
      - destruct (last =? today - 1); reflexivity. }
    rewrite Hstreak. split; [reflexivity |]. split; [reflexivity |].
    set (streak := match claims !! uid with
                   | Some (last, current) => if last =? today - 1 then current + 1 else 1
                   | None => 1
                   end).
    set (paid := inject_Z (Daily.total (Daily._calculate_reward DAILY_REWARD
                                          MAX_STREAK_MULTIPLIER streak))).
    unfold daily_pay. fold paid.
    destruct (get_user_balance_update_ok d0 uid paid Hu Hrow) as (Hb1 & Hu1 & Hrow1).
    destruct (update_balance_ok d0 uid paid Hu) as (d1 & Hupd1 & _).
    rewrite Hupd1 in *. cbn [fst snd] in *.
    rewrite <- Hu1 in Hu.
    destruct (get_user_balance_update_ok d1 uid paid Hu Hrow1) as (Hb2 & _).
    destruct (update_balance_ok d1 uid paid Hu) as (d2 & Hupd2 & _).
    rewrite Hupd2 in *. cbn [fst snd] in *.
    rewrite Hb2, Hb1, Hb0.
    split; [reflexivity |]. split; [reflexivity |]. split; [reflexivity |].
    unfold daily_file, Daily.update_daily_claim. apply insert_insert_eq.
Qed.

Lemma daily_claim_read_is_stale_witness :
  let streak := match claims !! 7 with
                | Some (last, current) => if last =? 19001 - 1 then current + 1 else 1
                | None => 1
                end in
  let paid := inject_Z (Daily.total (Daily._calculate_reward 100 5 streak)) in
  (let first := Daily.daily 100 5 bank claims 7 19001 Admin.healthy in
   let second := Daily.daily 100 5 first.1.1 first.1.2 7 19001 Admin.healthy in
   second = (first.1.1, first.1.2, Daily.AlreadyClaimed) ∧
   get_user_balance second.1.1 7 = (get_user_balance bank 7 + paid)%Q) ∧
  (let r1 := daily_read bank claims 7 19001 false false in
   let r2 := daily_read r1.1 claims 7 19001 false false in
   let p1 := daily_pay 100 5 r2.1 7 streak false in
   let p2 := daily_pay 100 5 p1.1 7 streak false in
   let filed := daily_file (daily_file claims 7 19001 streak false) 7 19001 streak false in
   r1.2 = Some streak ∧ r2.2 = Some streak ∧
   p1.2 = true ∧ p2.2 = true ∧
   get_user_balance p2.1 7 = (get_user_balance bank 7 + paid + paid)%Q ∧
   filed = <[7 := (19001, streak)]> claims).
Proof.
  apply (daily_claim_read_is_stale 100 5 bank claims 7 19001).
  intros streak. vm_compute. intros H. discriminate H.
Defined.

End StaleReads.
